(** * weight-track: the statistical core of [WeightTrackerApp.tsx]

  A shallow embedding of the entry log, the regression helpers, the
  empirical kcal/kg estimator, the period aggregator and the body
  composition estimator of [src/components/WeightTrackerApp.tsx], with the
  properties of the specification stated over it.

  JavaScript numbers are IEEE 754 binary64 values: they are modelled by
  Rocq's primitive floats, whose operations are the same roundings, so that
  [NaN], the infinities and signed zeros behave as they do in the source.
  Dates are the strings the source stores; [JsDate] models the part of the
  [Date] builtin the source uses. *)

From Stdlib Require Import ZArith List String Ascii Bool Lia Sorting.Sorted.
From Stdlib Require Import Permutation.
From Stdlib Require Import PrimFloat Uint63.
From Stdlib Require Import Floats.FloatOps Floats.FloatAxioms Floats.SpecFloat.
From Stdlib Require OrderedTypeEx.
From Stdlib Require QArith.QArith.
From Stdlib Require Reals.Reals micromega.Lra.
Import ListNotations.

Set Warnings "-inexact-float".

Open Scope Z_scope.

(** ** JavaScript numbers *)

Module JsNum.

(** Conversion of an integer below 2^63 in magnitude to the nearest double
    (exact below 2^53). *)
Definition of_Z (z : Z) : float :=
  if z <? 0 then PrimFloat.opp (PrimFloat.of_uint63 (Uint63.of_Z (- z)))
  else PrimFloat.of_uint63 (Uint63.of_Z z).

Definition of_nat (n : nat) : float := of_Z (Z.of_nat n).

(** [x > y], [x >= y]: false when either side is NaN. *)
Definition gtb (x y : float) : bool := PrimFloat.ltb y x.
Definition geb (x y : float) : bool := PrimFloat.leb y x.

(** [x === y] on numbers. *)
Definition seq (x y : float) : bool := PrimFloat.eqb x y.

(** Truthiness of a number: [0], [-0] and [NaN] are falsy. *)
Definition truthy (x : float) : bool :=
  negb (PrimFloat.eqb x PrimFloat.zero || PrimFloat.is_nan x).

(** Truthiness of an optional number ([undefined] and [null] are falsy). *)
Definition truthy_opt (x : option float) : bool :=
  match x with Some v => truthy v | None => false end.

(** [x || d] for a number or null/undefined [x]. *)
Definition or_default (x : option float) (d : float) : float :=
  match x with
  | Some v => if truthy v then v else d
  | None => d
  end.

Definition is_neg_zero (x : float) : bool :=
  match PrimFloat.classify x with FloatClass.NZero => true | _ => false end.

(** [Math.max(a, b)] and [Math.min(a, b)]: NaN if either argument is NaN,
    and [+0] is larger than [-0]. *)
Definition max (a b : float) : float :=
  if PrimFloat.is_nan a || PrimFloat.is_nan b then PrimFloat.nan
  else if PrimFloat.ltb a b then b
  else if PrimFloat.ltb b a then a
  else if is_neg_zero a then b else a.

Definition min (a b : float) : float :=
  if PrimFloat.is_nan a || PrimFloat.is_nan b then PrimFloat.nan
  else if PrimFloat.ltb a b then a
  else if PrimFloat.ltb b a then b
  else if is_neg_zero a then a else b.

(** [Math.max(...xs)] and [Math.min(...xs)]; on no arguments they are
    [-Infinity] and [+Infinity]. *)
Definition max_list (xs : list float) : float :=
  fold_left max xs PrimFloat.neg_infinity.
Definition min_list (xs : list float) : float :=
  fold_left min xs PrimFloat.infinity.

(** [Math.pow(x, 2)] and [x ** 2]: the square. *)
Definition sq (x : float) : float := PrimFloat.mul x x.

(** [xs.reduce((a, b) => a + b, 0)]. *)
Definition sum (xs : list float) : float :=
  fold_left PrimFloat.add xs PrimFloat.zero.

(** [isFinite(x)]. *)
Definition isFinite (x : float) : bool := PrimFloat.is_finite x.

End JsNum.

(** ** The [Date] builtin, for the date strings the application stores

  The application stores the value of an [<input type="date">], a string
  [YYYY-MM-DD].  [new Date(s)] reads such a string as midnight UTC of that
  calendar day.  Strings of another shape, or naming no calendar day, are
  outside the model ([None]): the standard makes them an Invalid Date and
  the engines differ (V8 reads 2024-02-30 as 2024-03-01).  The local-time
  accessors of this module ([getDay], the [Date(y, m, d)] constructor) are
  written for a host on UTC and a year from 100 on; module [Host] below
  has them for any host and any year, and lemma [getGroupInfo_at_utc]
  relates the two. *)

Module JsDate.

Definition DAY_MS : Z := 24 * 60 * 60 * 1000.

Definition digit (c : ascii) : option Z :=
  let n := Z.of_nat (nat_of_ascii c) in
  if (48 <=? n) && (n <=? 57) then Some (n - 48) else None.

Fixpoint number (acc : Z) (cs : list ascii) : option Z :=
  match cs with
  | [] => Some acc
  | c :: cs' =>
      match digit c with
      | Some d => number (10 * acc + d) cs'
      | None => None
      end
  end.

Definition is_leap (y : Z) : bool :=
  ((y mod 4 =? 0) && negb (y mod 100 =? 0)) || (y mod 400 =? 0).

Definition days_in_month (y m : Z) : Z :=
  if m =? 2 then (if is_leap y then 29 else 28)
  else if (m =? 4) || (m =? 6) || (m =? 9) || (m =? 11) then 30
  else 31.

(** Days from 1970-01-01 to the civil day [y]-[m]-[d] ([m] from 1). *)
Definition days_from_civil (y m d : Z) : Z :=
  let y' := if m <=? 2 then y - 1 else y in
  let era := y' / 400 in
  let yoe := y' - era * 400 in
  let mp := if m <=? 2 then m + 9 else m - 3 in
  let doy := (153 * mp + 2) / 5 + d - 1 in
  let doe := yoe * 365 + yoe / 4 - yoe / 100 + doy in
  era * 146097 + doe - 719468.

(** The calendar day a date string names ([None] for every other
    string). *)
Definition parse (s : string) : option (Z * Z * Z) :=
  match list_ascii_of_string s with
  | [y1; y2; y3; y4; dash1; m1; m2; dash2; d1; d2] =>
      if (Ascii.eqb dash1 "-") && (Ascii.eqb dash2 "-") then
        match number 0 [y1; y2; y3; y4], number 0 [m1; m2], number 0 [d1; d2] with
        | Some y, Some m, Some d =>
            if (1 <=? m) && (m <=? 12) && (1 <=? d) && (d <=? days_in_month y m)
            then Some (y, m, d) else None
        | _, _, _ => None
        end
      else None
  | _ => None
  end.

(** Day number of [new Date(s)], when valid. *)
Definition day_number (s : string) : option Z :=
  match parse s with
  | Some (y, m, d) => Some (days_from_civil y m d)
  | None => None
  end.

(** [new Date(s).getTime()] as an integer of milliseconds. *)
Definition time_ms (s : string) : option Z :=
  option_map (fun d => d * DAY_MS) (day_number s).

(** [new Date(s).getTime()] as a number (NaN for an Invalid Date). *)
Definition getTime (s : string) : float :=
  match time_ms s with
  | Some t => JsNum.of_Z t
  | None => PrimFloat.nan
  end.

(** [getDay()] of the day with number [d]: 0 is Sunday; 1970-01-01 was a
    Thursday. *)
Definition getDay (d : Z) : Z := (d + 4) mod 7.

(** [new Date(y, m0, d)] at a host on UTC, with a month index from 0 that
    may overflow and a day of month that may be 0: its day number.  For a
    year from 0 to 99 the constructor takes the year 1900 + y
    ([Host.newDate]). *)
Definition make_day (y m0 d : Z) : Z :=
  days_from_civil (y + m0 / 12) (m0 mod 12 + 1) 1 + (d - 1).

End JsDate.

Definition DAY_MS_f : float := JsNum.of_Z JsDate.DAY_MS.

(** [(new Date(b).getTime() - new Date(a).getTime()) / DAY_MS]. *)
Definition days_between (a b : string) : float :=
  PrimFloat.div (PrimFloat.sub (JsDate.getTime b) (JsDate.getTime a)) DAY_MS_f.

(** ** Data model *)

Record WeightEntry : Type := mkEntry {
  date : string;
  weight : float;
  calories : option float
}.

Record BodyMeasurement : Type := mkMeasurement {
  m_date : string;
  bodyFat : option float;
  (* neck, shoulders, chest, waist, hips, biceps, forearms, thighs, calves *)
  parts : list (string * float)
}.

Inductive ConfidenceLevel : Type := C80 | C90 | C95 | C99.

Definition zScores (c : ConfidenceLevel) : float :=
  match c with
| C80 => 1.28%float
| C90 => 1.645%float
| C95 => 1.96%float
| C99 => 2.576%float
end.

Definition KCAL_PER_KG : float := 7700%float.
Definition MIN_DAYS_FOR_INFERENCE : nat := 14.

Inductive TrendWindowOption : Type := W14 | W30 | W60 | WAll.
Inductive StatsGroupingOption : Type := G1w | G2w | G1m | G2m.

Record CalibrationFactor : Type := mkCalibration {
  cf_date : string;
  muscleGainFactor : float;
  fatLossFactor : float
}.

Record BodyCompositionEstimate : Type := mkEstimate {
  bc_date : string;
  bc_weight : float;
  bodyFatPercentage : float;
  fatMass : float;
  leanMass : float;
  bodyFatPercentageCI : float * float;
  isEstimated : bool
}.

(** ** Sorting

  [Array.prototype.sort] is stable; with a comparator that is a total
  preorder its result is the stable sorted permutation, computed here by
  insertion.  [cmp a b] is the sign of the comparator. *)

Section Sort.
Context {A : Type}.
Variable cmp : A -> A -> comparison.

Fixpoint insert_sorted (x : A) (l : list A) : list A :=
  match l with
  | [] => [x]
  | y :: l' =>
      match cmp x y with
      | Gt => y :: insert_sorted x l'
      | _ => x :: l
      end
  end.

Fixpoint js_sort (l : list A) : list A :=
  match l with
  | [] => []
  | x :: l' => insert_sorted x (js_sort l')
  end.

(** The order the comparator induces: [a] may stand before [b]. *)
Definition cmp_le (a b : A) : Prop := cmp a b <> Gt.

End Sort.

(** [a.date.localeCompare(b.date)]: on the date strings of the application
  (same length, digits and dashes at the same places) the collation order
  is the order of the code units. *)
Definition localeCompare (a b : string) : comparison := String.compare a b.

Definition by_date (a b : WeightEntry) : comparison :=
  localeCompare (date a) (date b).

Definition by_m_date (a b : BodyMeasurement) : comparison :=
  localeCompare (m_date a) (m_date b).

(** Ascending date order of a log. *)
Definition date_le (a b : WeightEntry) : Prop := cmp_le by_date a b.

Definition sort_entries (l : list WeightEntry) : list WeightEntry :=
  js_sort by_date l.

(** ** Application state

  The part of the component state of [WeightTrackerApp] that the core
  reads and writes.  [parseFloat] is the JavaScript builtin. *)

Record AppState : Type := mkState {
  st_entries : list WeightEntry;
  st_measurements : list BodyMeasurement;
  st_date : string;          (* the date input *)
  st_weight : string;        (* the weight input *)
  st_calories : string;      (* the calories input *)
  st_confidence : ConfidenceLevel;
  st_trendWindow : TrendWindowOption;
  st_statsGrouping : StatsGroupingOption;
  st_startingBodyFat : string;
  st_calibrationFactor : CalibrationFactor;
  st_bodyCompositionHistory : list BodyCompositionEstimate
}.

Definition set_entries (st : AppState) (l : list WeightEntry) : AppState :=
  mkState l (st_measurements st) (st_date st) (st_weight st) (st_calories st)
  (st_confidence st) (st_trendWindow st) (st_statsGrouping st)
  (st_startingBodyFat st) (st_calibrationFactor st)
  (st_bodyCompositionHistory st).

Definition set_calibrationFactor (st : AppState) (cf : CalibrationFactor) : AppState :=
  mkState (st_entries st) (st_measurements st) (st_date st) (st_weight st)
  (st_calories st) (st_confidence st) (st_trendWindow st)
  (st_statsGrouping st) (st_startingBodyFat st) cf
  (st_bodyCompositionHistory st).

Definition set_bodyCompositionHistory (st : AppState)
  (h : list BodyCompositionEstimate) : AppState :=
  mkState (st_entries st) (st_measurements st) (st_date st) (st_weight st)
  (st_calories st) (st_confidence st) (st_trendWindow st)
  (st_statsGrouping st) (st_startingBodyFat st) (st_calibrationFactor st) h.

(** [e.date !== d] *)
Definition other_date (d : string) (e : WeightEntry) : bool :=
  negb (String.eqb (date e) d).

(** [!s] for a string. *)
Definition is_empty (s : string) : bool := String.eqb s "".

(** The log invariant: at most one entry per date, in ascending date
  order. *)
Definition one_entry_per_date (l : list WeightEntry) : Prop :=
  NoDup (map date l).

Definition log_invariant (l : list WeightEntry) : Prop :=
  one_entry_per_date l /\ Sorted date_le l.

Section AddEntry.

Variable parseFloat : string -> float.

(** The entry the form describes. *)
Definition parsedCalories (st : AppState) : option float :=
  if is_empty (st_calories st) then None
  else Some (parseFloat (st_calories st)).

Definition newEntry (st : AppState) : WeightEntry :=
  mkEntry (st_date st) (parseFloat (st_weight st)) (parsedCalories st).

(** [addEntry]: the new state and the alert shown, if any. *)
Definition addEntry (st : AppState) : AppState * option string :=
  if is_empty (st_date st) || is_empty (st_weight st) then
    (st, Some "Please enter a date and weight"%string)
  else
    let parsedWeight := parseFloat (st_weight st) in
    if negb (JsNum.isFinite parsedWeight) || PrimFloat.leb parsedWeight 0 then
      (st, Some "Weight must be greater than 0"%string)
    else if match parsedCalories st with
            | Some c => negb (JsNum.isFinite c) || PrimFloat.leb c 0
            | None => false
            end then
      (st, Some "Calories must be greater than 0"%string)
    else
      (* Deduplicate by date (last-write-wins) *)
      let filtered := filter (other_date (st_date st)) (st_entries st) in
      let newEntries := filtered ++ [newEntry st] in
      (mkState (sort_entries newEntries) (st_measurements st)
         ""%string ""%string ""%string
         (st_confidence st) (st_trendWindow st) (st_statsGrouping st)
         (st_startingBodyFat st) (st_calibrationFactor st)
         (st_bodyCompositionHistory st),
       None).

(** [removeEntry(index)]. *)
Fixpoint remove_at {A : Type} (i : nat) (l : list A) : list A :=
  match l, i with
  | [], _ => []
  | _ :: l', O => l'
  | x :: l', S i' => x :: remove_at i' l'
  end.

Definition removeEntry (index : nat) (st : AppState) : AppState :=
  set_entries st (remove_at index (st_entries st)).

End AddEntry.

(** ** Statistics primitives *)

Open Scope float_scope.

(** [arr.reduce((acc, b, i) => f(acc, b, i), init)]. *)
Fixpoint reduce_from {A : Type} (f : float -> A -> nat -> float)
    (i : nat) (l : list A) (acc : float) : float :=
  match l with
  | [] => acc
  | b :: l' => reduce_from f (S i) l' (f acc b i)
  end.

Definition reduce_i {A : Type} (f : float -> A -> nat -> float)
    (l : list A) (init : float) : float :=
  reduce_from f 0 l init.

(** [a[i]] used as a number: [undefined] past the end, NaN in arithmetic. *)
Definition at_index (a : list float) (i : nat) : float := nth i a PrimFloat.nan.

Definition computeMean (arr : list float) : float :=
  JsNum.sum arr / JsNum.of_nat (List.length arr).

Definition computeSD (arr : list float) (mean : float) : float :=
  let sumSq := fold_left (fun sum v => sum + JsNum.sq (v - mean)) arr 0 in
  PrimFloat.sqrt (sumSq / (JsNum.of_nat (List.length arr) - 1)).

Definition computeCI (mean sd : float) (n : nat) (conf : ConfidenceLevel)
    : float * float :=
  let z := zScores conf in
  let se := sd / PrimFloat.sqrt (JsNum.of_nat n) in
  let margin := z * se in
  (mean - margin, mean + margin).

Record Regression : Type := mkRegression {
  slope : float;
  intercept : float;
  r2 : float
}.

Definition linearRegression (x y : list float) : Regression :=
  let n := List.length x in
  if (n <? 2)%nat then mkRegression 0 0 0
  else
    let nf := JsNum.of_nat n in
    let sumX := JsNum.sum x in
    let sumY := JsNum.sum y in
    let sumXY := reduce_i (fun a b i => a + b * at_index y i) x 0 in
    let sumXX := fold_left (fun a b => a + b * b) x 0 in
    let slope := (nf * sumXY - sumX * sumY) / (nf * sumXX - sumX * sumX) in
    let intercept := (sumY - slope * sumX) / nf in
    (* Calculate R² *)
    let yMean := sumY / nf in
    let ssTot := fold_left (fun a b => a + JsNum.sq (b - yMean)) y 0 in
    let ssRes :=
      reduce_i (fun a b i => a + JsNum.sq (b - (slope * at_index x i + intercept))) y 0 in
    let r2 := 1 - ssRes / ssTot in
    mkRegression slope intercept r2.

(** Helper: average daily intake (for entries with calories). *)
Definition has_calories (e : WeightEntry) : bool :=
  match calories e with Some _ => true | None => false end.

Definition getAverageIntake (entries : list WeightEntry) : option float :=
  let withCalories := filter has_calories entries in
  if (List.length withCalories <? 2)%nat then None
  else
    let total :=
      fold_left (fun sum e => sum + JsNum.or_default (calories e) 0) withCalories 0 in
    Some (total / JsNum.of_nat (List.length withCalories)).

Record TrendPoint : Type := mkTrendPoint {
  tp_date : string;
  tp_weight : float;
  predicted : float;
  predictedLow : float;
  predictedHigh : float;
  predictedRange : float
}.

Record CaloricInference : Type := mkInference {
  maintenanceCalories : float;
  confidenceInterval : float * float;
  weightChangeRate : float;
  weightChangeRateCI : float * float;
  slopeCI : float * float;
  ci_intercept : float;
  daysOfData : float;
  ci_r2 : float;
  trendData : list TrendPoint
}.

(** The standard error of the slope, as [calculateCaloricInference] computes
    it from the regression of [y] on [x]. *)
Definition slopeSE_of (x y : list float) (slope : float) : float :=
  let n := JsNum.of_nat (List.length x) in
  let xMean := JsNum.sum x / n in
  let yMean := JsNum.sum y / n in
  let ssx := fold_left (fun a b => a + JsNum.sq (b - xMean)) x 0 in
  let mse :=
    reduce_i (fun a b i =>
                a + JsNum.sq (b - (slope * at_index x i + yMean - slope * xMean)))
             y 0 / (n - 2) in
  PrimFloat.sqrt (mse / ssx).

Definition calculateCaloricInference (entries : list WeightEntry)
    (conf : ConfidenceLevel) : option CaloricInference :=
  match entries with
  | [] | [_] => None
  | first :: _ =>
      (* Convert dates to days since first entry *)
      let x := map (fun entry => days_between (date first) (date entry)) entries in
      let y := map weight entries in
      let reg := linearRegression x y in
      let slope := slope reg in
      let intercept := intercept reg in
      (* Calculate standard error of the slope *)
      let slopeSE := slopeSE_of x y slope in
      (* Calculate confidence interval for the slope *)
      let z := zScores conf in
      let slopeCI := (slope - z * slopeSE, slope + z * slopeSE) in
      let weightChangeRate := slope in
      let weightChangeRateCI := slopeCI in
      let avgIntake := getAverageIntake entries in
      let maintenanceCandidates :=
        match avgIntake with
        | Some a => [a - snd weightChangeRateCI * KCAL_PER_KG;
                     a - fst weightChangeRateCI * KCAL_PER_KG]
        | None => [PrimFloat.abs (fst weightChangeRateCI * KCAL_PER_KG);
                   PrimFloat.abs (snd weightChangeRateCI * KCAL_PER_KG)]
        end in
      let maintenanceCalories :=
        match avgIntake with
        | Some a => a - weightChangeRate * KCAL_PER_KG
        | None => PrimFloat.abs (weightChangeRate * KCAL_PER_KG)
        end in
      let maintenanceCaloriesCI :=
        (JsNum.min_list maintenanceCandidates, JsNum.max_list maintenanceCandidates) in
      let trendData :=
        map (fun '(entry, xi) =>
               let predicted := slope * xi + intercept in
               let predictedLow := fst slopeCI * xi + intercept in
               let predictedHigh := snd slopeCI * xi + intercept in
               mkTrendPoint (date entry) (weight entry) predicted predictedLow
                 predictedHigh (predictedHigh - predictedLow))
            (combine entries x) in
      Some (mkInference maintenanceCalories maintenanceCaloriesCI
              weightChangeRate weightChangeRateCI slopeCI intercept
              (JsNum.max_list x - JsNum.min_list x + 1) (r2 reg) trendData)
  end.

(** [filterEntriesByWindow]: the trailing window of the sorted log. *)
Definition window_days (w : TrendWindowOption) : option Z :=
  match w with W14 => Some 14%Z | W30 => Some 30%Z | W60 => Some 60%Z | WAll => None end.

Definition filterEntriesByWindow (entries : list WeightEntry)
    (window : TrendWindowOption) : list WeightEntry :=
  let sorted := sort_entries entries in
  match window_days window, sorted with
  | None, _ | _, [] => sorted
  | Some w, _ :: _ =>
      let lastDate := JsDate.getTime (date (last sorted (mkEntry "" 0 None))) in
      let cutoff := lastDate - JsNum.of_Z ((w - 1) * JsDate.DAY_MS) in
      filter (fun e => JsNum.geb (JsDate.getTime (date e)) cutoff) sorted
  end.

(** ** Ordinary least squares

    The regression in the words of section 3 of the specification
    ([linearRegression]: ordinary least squares, with the neutral result for
    fewer than two points or zero variance in x).  It is written once over an
    arithmetic, to be read over the doubles, which is what a program
    computes, and over the real numbers, where least squares has its
    meaning: the line that minimises the sum of the squared residuals. *)

Record Arith (T : Type) : Type := mkArith {
  a_zero : T;
  a_add : T -> T -> T;
  a_sub : T -> T -> T;
  a_mul : T -> T -> T;
  a_div : T -> T -> T;
  a_of_nat : nat -> T;
  a_is_zero : T -> bool
}.

Arguments a_zero {T} _.
Arguments a_add {T} _ _ _.
Arguments a_sub {T} _ _ _.
Arguments a_mul {T} _ _ _.
Arguments a_div {T} _ _ _.
Arguments a_of_nat {T} _ _.
Arguments a_is_zero {T} _ _.

(** The arithmetic of the doubles. *)
Definition float_arith : Arith float :=
  mkArith float 0 PrimFloat.add PrimFloat.sub PrimFloat.mul PrimFloat.div
    JsNum.of_nat (fun x => PrimFloat.eqb x 0).

Section OrdinaryLeastSquares.

Context {T : Type} (A : Arith T).

(** The sum of [f] over the points (x, y). *)
Definition ols_sum (f : T * T -> T) (points : list (T * T)) : T :=
  fold_left (fun s p => a_add A s (f p)) points (a_zero A).

Definition ols_n (points : list (T * T)) : T := a_of_nat A (List.length points).
Definition ols_sumX : list (T * T) -> T := ols_sum fst.
Definition ols_sumY : list (T * T) -> T := ols_sum snd.
Definition ols_sumXY : list (T * T) -> T :=
  ols_sum (fun p => a_mul A (fst p) (snd p)).
Definition ols_sumXX : list (T * T) -> T :=
  ols_sum (fun p => a_mul A (fst p) (fst p)).

(** n sum(x^2) - (sum x)^2, which is n^2 times the variance of x. *)
Definition ols_denominator (points : list (T * T)) : T :=
  a_sub A (a_mul A (ols_n points) (ols_sumXX points))
          (a_mul A (ols_sumX points) (ols_sumX points)).

(** Fewer than two points, or zero variance in x. *)
Definition ols_degenerate (points : list (T * T)) : bool :=
  (List.length points <? 2)%nat || a_is_zero A (ols_denominator points).

Definition ols_slope (points : list (T * T)) : T :=
  if ols_degenerate points then a_zero A
  else
    a_div A
      (a_sub A (a_mul A (ols_n points) (ols_sumXY points))
               (a_mul A (ols_sumX points) (ols_sumY points)))
      (ols_denominator points).

Definition ols_intercept (points : list (T * T)) : T :=
  if ols_degenerate points then a_zero A
  else
    a_div A
      (a_sub A (ols_sumY points) (a_mul A (ols_slope points) (ols_sumX points)))
      (ols_n points).

(** The sum of the squared residuals of the line y = a x + b. *)
Definition ols_sse (a b : T) (points : list (T * T)) : T :=
  ols_sum (fun p =>
             let r := a_sub A (snd p) (a_add A (a_mul A a (fst p)) b) in
             a_mul A r r)
          points.

End OrdinaryLeastSquares.

Module RealArith.

Import Stdlib.Reals.Reals.

(** The arithmetic of the real numbers. *)
Definition real_arith : Arith R :=
  mkArith R 0%R Rplus Rminus Rmult Rdiv INR
    (fun x => if Req_dec_T x 0%R then true else false).

(** The line y = a x + b is a least-squares fit of the points: no line has
    a smaller sum of squared residuals. *)
Definition least_squares_fit (points : list (R * R)) (a b : R) : Prop :=
  forall a' b' : R,
    (ols_sse real_arith a b points <= ols_sse real_arith a' b' points)%R.

End RealArith.

(** ** Empirical kcal/kg estimator *)

Record IntervalPair : Type := mkPair {
  p_calories : float;      (* avgCalories, kcal/day *)
  weightRate : float       (* kg per day *)
}.

(** The points (avgCalories, weightRate) of the pairs. *)
Definition points_of (pairs : list IntervalPair) : list (float * float) :=
  map (fun p => (p_calories p, weightRate p)) pairs.

(** The inner loop of [calculateEmpiricalKcalPerKg]: the pairs of [curr]
    (whose calories are [c]) with the later entries [rest]. *)
Fixpoint pairs_with (curr : WeightEntry) (c : float) (rest : list WeightEntry)
    : list IntervalPair :=
  match rest with
  | [] => []
  | next :: rest' =>
      match calories next with
      | None => pairs_with curr c rest'
      | Some cn =>
          let days := days_between (date curr) (date next) in
          if PrimFloat.leb days 0 then pairs_with curr c rest'
          else
            let weightRate := (weight next - weight curr) / days in
            let avgCalories := (c + cn) / 2 in
            mkPair avgCalories weightRate :: pairs_with curr c rest'
      end
  end.

(** The outer loop, over the sorted log. *)
Fixpoint pairs_of (sorted : list WeightEntry) : list IntervalPair :=
  match sorted with
  | [] => []
  | curr :: rest =>
      match calories curr with
      | None => pairs_of rest
      | Some c => pairs_with curr c rest ++ pairs_of rest
      end
  end.

(** The pair of two entries when it is valid (both have calories, and the
    day gap from [curr] to [next] is positive), as a list of at most one
    pair. *)
Definition pair_of (curr next : WeightEntry) : list IntervalPair :=
  match calories curr, calories next with
  | Some c, Some cn =>
      let days := days_between (date curr) (date next) in
      if PrimFloat.leb days 0 then []
      else [mkPair ((c + cn) / 2) ((weight next - weight curr) / days)]
  | _, _ => []
  end.

(** All valid pairs (i < j) of a log, in the words of section 4.4: for
    every index i and every later index j, the pair of the two entries. *)
Definition all_pairs (l : list WeightEntry) : list IntervalPair :=
  flat_map
    (fun i =>
       flat_map
         (fun j =>
            match nth_error l i, nth_error l j with
            | Some curr, Some next => pair_of curr next
            | _, _ => []
            end)
         (seq (S i) (List.length l - S i)))
    (seq 0 (List.length l)).

Record EmpiricalEstimate : Type := mkEmpirical {
  empirical : option float;
  maintenance : option float;
  e_r2 : option float;
  intervals : nat
}.

(** The sums of the regression of weight rate on average calories. *)
Definition emp_n (pairs : list IntervalPair) : float :=
  JsNum.of_nat (List.length pairs).
Definition emp_sumX (pairs : list IntervalPair) : float :=
  JsNum.sum (map p_calories pairs).
Definition emp_sumY (pairs : list IntervalPair) : float :=
  JsNum.sum (map weightRate pairs).
Definition emp_sumXY (pairs : list IntervalPair) : float :=
  reduce_i (fun s v idx => s + v * at_index (map weightRate pairs) idx)
           (map p_calories pairs) 0.
Definition emp_sumXX (pairs : list IntervalPair) : float :=
  fold_left (fun s v => s + v * v) (map p_calories pairs) 0.

Definition emp_denominator (pairs : list IntervalPair) : float :=
  emp_n pairs * emp_sumXX pairs - emp_sumX pairs * emp_sumX pairs.

(** kg/day per kcal/day *)
Definition emp_slope (pairs : list IntervalPair) : float :=
  (emp_n pairs * emp_sumXY pairs - emp_sumX pairs * emp_sumY pairs)
  / emp_denominator pairs.

Definition emp_intercept (pairs : list IntervalPair) : float :=
  (emp_sumY pairs - emp_slope pairs * emp_sumX pairs) / emp_n pairs.

Definition emp_r2 (pairs : list IntervalPair) : float :=
  let x := map p_calories pairs in
  let y := map weightRate pairs in
  let meanY := emp_sumY pairs / emp_n pairs in
  let ssTot := fold_left (fun s v => s + JsNum.sq (v - meanY)) y 0 in
  let ssRes :=
    reduce_i (fun s v idx =>
                s + JsNum.sq (v - (emp_slope pairs * at_index x idx + emp_intercept pairs)))
             y 0 in
  if PrimFloat.eqb ssTot 0 then 0 else 1 - ssRes / ssTot.

(** The slope of the regression, when the regression has one: with no
    variance in the abscissae there is no regression line. *)
Definition regression_slope (pairs : list IntervalPair) : option float :=
  if PrimFloat.eqb (emp_denominator pairs) 0 then None
  else Some (emp_slope pairs).

Definition no_estimate (intervals : nat) : EmpiricalEstimate :=
  mkEmpirical None None None intervals.

Definition calculateEmpiricalKcalPerKg (entries : list WeightEntry)
    : EmpiricalEstimate :=
  let sorted := sort_entries entries in
  let pairs := pairs_of sorted in
  let intervals := List.length pairs in
  if (intervals <? 3)%nat then no_estimate intervals
  else if PrimFloat.eqb (emp_denominator pairs) 0 then no_estimate intervals
  else
    let slope := emp_slope pairs in
    if PrimFloat.eqb slope 0 then no_estimate intervals
    else
      let intercept := emp_intercept pairs in
      let r2 := emp_r2 pairs in
      let empirical := PrimFloat.abs (1 / slope) in
      let maintenance := - intercept / slope in
      mkEmpirical (Some empirical) (Some maintenance) (Some r2) intervals.

(** [getEmpiricalKcalPerKg]: [empirical || null]. *)
Definition getEmpiricalKcalPerKg (entries : list WeightEntry)
    (weightChangeRate : float) : option float :=
  match empirical (calculateEmpiricalKcalPerKg entries) with
  | Some e => if JsNum.truthy e then Some e else None
  | None => None
  end.

Definition clamp01 (x : float) : float := JsNum.max 0 (JsNum.min 1 x).

Record FatLeanPercent : Type := mkFatLean {
  fatPct : float; fatPctLow : float; fatPctHigh : float;
  leanPct : float; leanPctLow : float; leanPctHigh : float
}.

(** Helper: fat/lean % and CI from empirical kcal/kg and its CI. *)
Definition getFatLeanPercent (empKcal : float) (empKcalCI : float * float)
    : FatLeanPercent :=
  let fatPct := (empKcal - 2000) / (7700 - 2000) in
  let fatPctLow := (fst empKcalCI - 2000) / (7700 - 2000) in
  let fatPctHigh := (snd empKcalCI - 2000) / (7700 - 2000) in
  mkFatLean (clamp01 fatPct) (clamp01 fatPctLow) (clamp01 fatPctHigh)
            (1 - clamp01 fatPct) (1 - clamp01 fatPctHigh) (1 - clamp01 fatPctLow).

(** ** Body composition estimator *)

Record BodyCompositionResult : Type := mkBCResult {
  estimates : list BodyCompositionEstimate;
  newCalibrationFactor : option CalibrationFactor
}.

(** The variables the loop of [calculateBodyComposition] assigns. *)
Record LoopState : Type := mkLoop {
  currentFatMass : float;
  currentLeanMass : float;
  lastKnownFatPercentage : float;
  lastCalibrationDate : string;
  results : list BodyCompositionEstimate;
  l_newCalibrationFactor : CalibrationFactor;
  shouldUpdateCalibration : bool
}.

(** [e.date >= lo && e.date <= hi] on date strings. *)
Definition in_range (lo hi : string) (e : WeightEntry) : bool :=
  String.leb lo (date e) && String.leb (date e) hi.

(** [typeof m.bodyFat === 'number'] *)
Definition has_bodyFat (m : BodyMeasurement) : bool :=
  match bodyFat m with Some _ => true | None => false end.

Definition bodyFatMeasurements (measurements : list BodyMeasurement)
    : list BodyMeasurement :=
  js_sort by_m_date (filter has_bodyFat measurements).

(** The measured body fat for a date, if there is one. *)
Definition actualMeasurement (bfm : list BodyMeasurement) (d : string)
    : option float :=
  match find (fun m => String.eqb (m_date m) d) bfm with
  | Some m => bodyFat m
  | None => None
  end.

Section BodyComposition.

Variable entries : list WeightEntry.
Variable confidence : ConfidenceLevel.
Let sortedEntries := sort_entries entries.

(** Recalibration at a measured entry that has a previous entry; the loop
    state already holds the measured masses and the pushed result.  [None]
    is the TypeError of the non-null assertion on [find]. *)
Definition calibrate (startFatMass : float) (entry : WeightEntry)
    (s : LoopState) : option LoopState :=
  let lastDate := lastCalibrationDate s in
  let moved :=
    mkLoop (currentFatMass s) (currentLeanMass s) (lastKnownFatPercentage s)
      (date entry) (results s) in
  let daysBetween := days_between lastDate (date entry) in
  (* Calculate average daily caloric surplus/deficit *)
  let '(totalCalories, countDays) :=
    fold_left
      (fun '(total, count) e =>
         match calories e with
         | Some c =>
             if in_range lastDate (date entry) e && JsNum.truthy c
             then (total + c, S count) else (total, count)
         | None => (total, count)
         end)
      sortedEntries (0, O) in
  if (0 <? countDays)%nat then
    let avgDailyCalories := totalCalories / JsNum.of_nat countDays in
    (* Get empirical kcal/kg value if available *)
    let estimatedKcalPerKg :=
      if (MIN_DAYS_FOR_INFERENCE <=? List.length entries)%nat
         && match getAverageIntake entries with Some _ => true | None => false end
      then getEmpiricalKcalPerKg entries
             (JsNum.or_default
                (option_map weightChangeRate
                   (calculateCaloricInference entries confidence)) 0)
      else None in
    (* Use the empiricalKcalPerKg if available, otherwise use 7700 as default *)
    let kcalPerKg := JsNum.or_default estimatedKcalPerKg 7700 in
    (* Find our maintenance estimate *)
    let window := filter (in_range lastDate (date entry)) sortedEntries in
    match calculateCaloricInference window confidence with
    | None =>
        Some (moved (l_newCalibrationFactor s) (shouldUpdateCalibration s))
    | Some inference =>
        let maintenanceCalories :=
          match getAverageIntake window with Some a => a | None => 0 end
          - weightChangeRate inference * kcalPerKg in
        let avgSurplus := avgDailyCalories - maintenanceCalories in
        let totalSurplus := avgSurplus * daysBetween in
        (* Theoretical fat gain based on energy balance *)
        let theoreticalFatChange := totalSurplus / kcalPerKg in
        (* Actual changes *)
        match find (fun e => String.eqb (date e) lastDate) sortedEntries with
        | None => None
        | Some anchor =>
            let weightChange := weight entry - weight anchor in
            let fatMassChange :=
              currentFatMass s
              - JsNum.or_default
                  (option_map fatMass
                     (find (fun r => String.eqb (bc_date r) lastDate) (results s)))
                  startFatMass in
            (* Calibrate our factors based on actual vs. theoretical changes *)
            if JsNum.gtb avgSurplus 0 then (* In a surplus *)
              if JsNum.gtb weightChange 0 && JsNum.gtb theoreticalFatChange 0 then
                let newMuscleFactor :=
                  JsNum.max 0 (JsNum.min 0.7 (1 - fatMassChange / theoreticalFatChange)) in
                let cf := l_newCalibrationFactor s in
                Some (moved
                        (mkCalibration (date entry)
                           ((muscleGainFactor cf + newMuscleFactor) / 2)
                           (fatLossFactor cf))
                        true)
              else Some (moved (l_newCalibrationFactor s) (shouldUpdateCalibration s))
            else if PrimFloat.ltb avgSurplus 0 then (* In a deficit *)
              if PrimFloat.ltb weightChange 0 && PrimFloat.ltb theoreticalFatChange 0 then
                let newFatLossFactor :=
                  JsNum.max 0.5 (JsNum.min 1.0 (fatMassChange / theoreticalFatChange)) in
                let cf := l_newCalibrationFactor s in
                Some (moved
                        (mkCalibration (date entry)
                           (muscleGainFactor cf)
                           ((fatLossFactor cf + newFatLossFactor) / 2))
                        true)
              else Some (moved (l_newCalibrationFactor s) (shouldUpdateCalibration s))
            else Some (moved (l_newCalibrationFactor s) (shouldUpdateCalibration s))
        end
    end
  else Some (moved (l_newCalibrationFactor s) (shouldUpdateCalibration s)).

End BodyComposition.

(** Two loop states that differ at most in the calibration factor they
    carry. *)
Definition agree (s1 s2 : LoopState) : Prop :=
  currentFatMass s1 = currentFatMass s2
  /\ currentLeanMass s1 = currentLeanMass s2
  /\ lastKnownFatPercentage s1 = lastKnownFatPercentage s2
  /\ lastCalibrationDate s1 = lastCalibrationDate s2
  /\ results s1 = results s2
  /\ shouldUpdateCalibration s1 = shouldUpdateCalibration s2.

Definition agree_opt (a b : option LoopState) : Prop :=
  match a, b with
  | Some s1, Some s2 => agree s1 s2
  | None, None => True
  | _, _ => False
  end.

Section Estimator.

Variable entries : list WeightEntry.
Variable confidence : ConfidenceLevel.
Variable bfm : list BodyMeasurement.     (* bodyFatMeasurements *)
Variable startBodyFat : float.
Variable startFatMass : float.
Variable startLeanMass : float.

Definition push (s : LoopState) (r : BodyCompositionEstimate)
    (fat lean : float) : LoopState :=
  mkLoop fat lean (lastKnownFatPercentage s) (lastCalibrationDate s)
    (results s ++ [r]) (l_newCalibrationFactor s) (shouldUpdateCalibration s).

(** One iteration of the loop, for [entry] and the entry before it. *)
Definition step (prevEntry : option WeightEntry) (entry : WeightEntry)
    (s : LoopState) : option LoopState :=
  match actualMeasurement bfm (date entry) with
  | Some actualBodyFat =>
      (* If we have an actual measurement, use it to calibrate *)
      let actualFatMass := weight entry * (actualBodyFat / 100) in
      let actualLeanMass := weight entry - actualFatMass in
      let s1 :=
        mkLoop actualFatMass actualLeanMass actualBodyFat (lastCalibrationDate s)
          (results s ++
             [mkEstimate (date entry) (weight entry) actualBodyFat actualFatMass
                actualLeanMass (actualBodyFat - 1, actualBodyFat + 1) false])
          (l_newCalibrationFactor s) (shouldUpdateCalibration s) in
      match prevEntry with
      | Some _ => calibrate entries confidence startFatMass entry s1
      | None => Some s1
      end
  | None =>
      match prevEntry with
      | Some prevEntry =>
          if JsNum.truthy_opt (calories entry) && JsNum.truthy_opt (calories prevEntry)
          then
            let weightChange := weight entry - weight prevEntry in
            let empiricalRes := calculateEmpiricalKcalPerKg entries in
            let kcalPerKgUsed := JsNum.or_default (empirical empiricalRes) 7700 in
            let fatPct :=
              fatPct (getFatLeanPercent kcalPerKgUsed (kcalPerKgUsed, kcalPerKgUsed)) in
            let leanPct := 1 - fatPct in
            let fatMassChange := weightChange * fatPct in
            let leanMassChange := weightChange * leanPct in
            (* Minimum physiological safety bounds *)
            let fat := JsNum.max (weight entry * 0.03) (currentFatMass s + fatMassChange) in
            let lean := JsNum.max (weight entry * 0.5) (currentLeanMass s + leanMassChange) in
            let bodyFatPercentage := fat / weight entry * 100 in
            let daysSinceCalibration :=
              days_between (lastCalibrationDate s) (date entry) in
            let confidenceMargin := 1 + daysSinceCalibration * 0.05 in
            Some (push s
                    (mkEstimate (date entry) (weight entry) bodyFatPercentage fat lean
                       (JsNum.max 3 (bodyFatPercentage - confidenceMargin),
                        JsNum.min (bodyFatPercentage + confidenceMargin) 60)
                       true)
                    fat lean)
          else
            (* Without calorie data, assume the body fat percentage stays
               roughly the same *)
            let bodyFatPercentage := lastKnownFatPercentage s in
            let fatMass := weight entry * (bodyFatPercentage / 100) in
            let leanMass := weight entry - fatMass in
            Some (push s
                    (mkEstimate (date entry) (weight entry) bodyFatPercentage fatMass
                       leanMass (bodyFatPercentage - 3, bodyFatPercentage + 3) true)
                    (currentFatMass s) (currentLeanMass s))
      | None =>
          (* First entry - use starting body fat percentage *)
          Some (push s
                  (mkEstimate (date entry) (weight entry) startBodyFat startFatMass
                     startLeanMass (startBodyFat - 1, startBodyFat + 1) false)
                  (currentFatMass s) (currentLeanMass s))
      end
  end.

(** The loop over the sorted entries, from an entry whose predecessor is
    [prevEntry]. *)
Fixpoint loop (prevEntry : option WeightEntry) (rest : list WeightEntry)
    (s : LoopState) : option LoopState :=
  match rest with
  | [] => Some s
  | entry :: rest' =>
      match step prevEntry entry s with
      | Some s' => loop (Some entry) rest' s'
      | None => None
      end
  end.

End Estimator.

Section App.

Variable parseFloat : string -> float.

(** [calculateBodyComposition], the value of the [useMemo]; [None] is an
    exception. *)
Definition calculateBodyComposition (st : AppState)
    : option BodyCompositionResult :=
  let entries := st_entries st in
  if (List.length entries =? 0)%nat || is_empty (st_startingBodyFat st) then
    Some (mkBCResult [] None)
  else
    let sortedEntries := sort_entries entries in
    match sortedEntries with
    | [] => None
    | first :: _ =>
        let bfm := bodyFatMeasurements (st_measurements st) in
        let startWeight := weight first in
        let startBodyFat := parseFloat (st_startingBodyFat st) in
        let startFatMass := startWeight * (startBodyFat / 100) in
        let startLeanMass := startWeight - startFatMass in
        let init :=
          mkLoop startFatMass startLeanMass startBodyFat (date first) []
            (st_calibrationFactor st) false in
        match loop entries (st_confidence st) bfm startBodyFat startFatMass
                startLeanMass None sortedEntries init with
        | Some s =>
            Some (mkBCResult (results s)
                    (if shouldUpdateCalibration s
                     then Some (l_newCalibrationFactor s) else None))
        | None => None
        end
    end.

(** The effect that follows a render: it stores the estimates and commits a
    proposed calibration factor. *)
Definition commitEffect (st : AppState) : option AppState :=
  match calculateBodyComposition st with
  | Some result =>
      let st1 :=
        if (0 <? List.length (estimates result))%nat
        then set_bodyCompositionHistory st (estimates result) else st in
      Some match newCalibrationFactor result with
           | Some cf => set_calibrationFactor st1 cf
           | None => st1
           end
  | None => None
  end.

End App.

(** The states the inputs of the estimator agree on: its [useMemo] depends
    on entries, measurements, startingBodyFat, calibrationFactor and
    confidence. *)
Definition same_inputs (st1 st2 : AppState) : Prop :=
  st_entries st1 = st_entries st2
  /\ st_measurements st1 = st_measurements st2
  /\ st_startingBodyFat st1 = st_startingBodyFat st2
  /\ st_calibrationFactor st1 = st_calibrationFactor st2
  /\ st_confidence st1 = st_confidence st2.

(** The estimates of a run, and whether it proposes a calibration factor. *)
Definition outcome (r : option BodyCompositionResult)
    : option (list BodyCompositionEstimate * bool) :=
  option_map
    (fun r => (estimates r,
               match newCalibrationFactor r with Some _ => true | None => false end))
    r.


(** ** Period aggregator

    Time values are integers of milliseconds here (they are multiples of
    [DAY_MS] far below 2^53, so the source's arithmetic on them is exact).
    A bucket's key and label are template strings; they are modelled by the
    values the template interpolates, and two keys are the same string
    exactly when these values agree. *)

Open Scope Z_scope.

Inductive GroupKey : Type :=
| KeyDay (startDay : Z)              (* iso(weekStart), iso(startDate)_2w *)
| KeyMonth (year month : Z).         (* year-month *)

Definition key_eqb (a b : GroupKey) : bool :=
  match a, b with
  | KeyDay x, KeyDay y => x =? y
  | KeyMonth y1 m1, KeyMonth y2 m2 => (y1 =? y2) && (m1 =? m2)
  | _, _ => false
  end.

Inductive GroupLabel : Type :=
| LabelDay (day : Z)                          (* iso(weekStart) *)
| LabelDays (startDay endDay : Z)             (* iso(start) to iso(end) *)
| LabelMonth (year month : Z)                 (* YYYY-MM *)
| LabelMonths (year month endYear endMonth : Z).

Record GroupInfo : Type := mkGroupInfo {
  key : GroupKey;
  label : GroupLabel;
  startDate : Z;      (* startDate.getTime() *)
  endDate : Z         (* endDate.getTime() *)
}.

(** [startOfWeek] at a host on UTC: the day number of the Monday on or
    before day [d] ([Host.startOfWeek] is the function at any host). *)
Definition startOfWeek (d : Z) : Z :=
  let day := JsDate.getDay d in
  let diff := (day + 6) mod 7 in
  d - diff.

(** [getGroupInfo] at a host on UTC, for a date string that names a
    calendar day ([None] for any other string, which the model does not
    follow further).  [Host.getGroupInfo] is the function at any host; the
    two agree at a host on UTC, in the month groupings for the years from
    100 on (lemma [getGroupInfo_at_utc]). *)
Definition getGroupInfo (dateStr : string) (grouping : StatsGroupingOption)
    : option GroupInfo :=
  match JsDate.parse dateStr with
  | None => None
  | Some (y, m, d) =>
      let date := JsDate.days_from_civil y m d in
      let weekStart := startOfWeek date * JsDate.DAY_MS in
      Some
        match grouping with
        | G1w =>
            let e := weekStart + 7 * JsDate.DAY_MS - JsDate.DAY_MS in
            mkGroupInfo (KeyDay (weekStart / JsDate.DAY_MS))
              (LabelDay (weekStart / JsDate.DAY_MS)) weekStart e
        | G2w =>
            let weeksSinceEpoch := weekStart / (7 * JsDate.DAY_MS) in
            let bucketStartWeek := weeksSinceEpoch / 2 * 2 in
            let startDate := bucketStartWeek * 7 * JsDate.DAY_MS in
            let endDate := startDate + 14 * JsDate.DAY_MS - JsDate.DAY_MS in
            mkGroupInfo (KeyDay (startDate / JsDate.DAY_MS))
              (LabelDays (startDate / JsDate.DAY_MS) (endDate / JsDate.DAY_MS))
              startDate endDate
        | G1m =>
            (* getMonth() is m - 1 *)
            let startDate := JsDate.make_day y (m - 1) 1 in
            let endDate := JsDate.make_day y m 0 in
            mkGroupInfo (KeyMonth y m) (LabelMonth y m)
              (startDate * JsDate.DAY_MS) (endDate * JsDate.DAY_MS)
        | G2m =>
            let bucketMonth := (m - 1) / 2 * 2 in
            let startDate := JsDate.make_day y bucketMonth 1 in
            let endDate := JsDate.make_day y (bucketMonth + 2) 0 in
            mkGroupInfo (KeyMonth y bucketMonth)
              (LabelMonths y (bucketMonth + 1) y (bucketMonth + 2))
              (startDate * JsDate.DAY_MS) (endDate * JsDate.DAY_MS)
        end
  end.

Record WeeklyGroup : Type := mkGroup {
  weekStart : GroupLabel;
  data : list WeightEntry;
  startDateMs : Z
}.

(** The [Map] from key to group, in insertion order. *)
Definition GroupMap : Type := list (GroupKey * WeeklyGroup).

(** [if (!grouped.has(key)) grouped.set(key, fresh); grouped.get(key).data.push(entry)] *)
Fixpoint group_push (info : GroupInfo) (entry : WeightEntry) (grouped : GroupMap)
    : GroupMap :=
  match grouped with
  | [] => [(key info, mkGroup (label info) [entry] (startDate info))]
  | (k, g) :: grouped' =>
      if key_eqb (key info) k
      then (k, mkGroup (weekStart g) (data g ++ [entry]) (startDateMs g)) :: grouped'
      else (k, g) :: group_push info entry grouped'
  end.

Fixpoint group_entries (grouping : StatsGroupingOption) (entries : list WeightEntry)
    (grouped : GroupMap) : option GroupMap :=
  match entries with
  | [] => Some grouped
  | entry :: entries' =>
      match getGroupInfo (date entry) grouping with
      | Some info => group_entries grouping entries' (group_push info entry grouped)
      | None => None
      end
  end.

Definition by_startDateMs (a b : WeeklyGroup) : comparison :=
  Z.compare (startDateMs a) (startDateMs b).

Definition weeklyGroups (entries : list WeightEntry)
    (statsGrouping : StatsGroupingOption) : option (list WeeklyGroup) :=
  match group_entries statsGrouping entries [] with
  | Some grouped =>
      Some (js_sort by_startDateMs
              (map (fun '(_, group) =>
                      mkGroup (weekStart group) (sort_entries (data group))
                        (startDateMs group))
                   grouped))
  | None => None
  end.

Open Scope float_scope.

Record WeeklyStats : Type := mkStats {
  ws_weekStart : GroupLabel;
  ws_startDateMs : Z;
  ws_mean : float;
  ws_sd : float;
  ws_ci : float * float;
  dataLength : nat;
  change : option float;
  changeCI : option (float * float)
}.

(** One iteration of the [forEach] of [results]: the statistics of a group,
    given the statistics [res] pushed so far. *)
Definition stats_of (confidence : ConfidenceLevel) (res : list WeeklyStats)
    (g : WeeklyGroup) : WeeklyStats :=
  let weights := map weight (data g) in
  let n := List.length weights in
  let mean := computeMean weights in
  let sd := if (1 <? n)%nat then computeSD weights mean else 0 in
  let ci := if (1 <? n)%nat then computeCI mean sd n confidence else (mean, mean) in
  match rev res with
  | prev :: _ =>
      let gain := mean - ws_mean prev in
      let se_combined :=
        PrimFloat.sqrt
          ((if (1 <? n)%nat then JsNum.sq sd / JsNum.of_nat n else 0)
           + (if (1 <? dataLength prev)%nat
              then JsNum.sq (ws_sd prev) / JsNum.of_nat (dataLength prev) else 0)) in
      let z := zScores confidence in
      let margin := z * se_combined in
      mkStats (weekStart g) (startDateMs g) mean sd ci n (Some gain)
        (Some (gain - margin, gain + margin))
  | [] => mkStats (weekStart g) (startDateMs g) mean sd ci n None None
  end.

(** [results]: the statistics of the groups, in order. *)
Definition weeklyStats (confidence : ConfidenceLevel) (groups : list WeeklyGroup)
    : list WeeklyStats :=
  fold_left (fun res g => res ++ [stats_of confidence res g]) groups [].

Definition results_of (entries : list WeightEntry)
    (statsGrouping : StatsGroupingOption) (confidence : ConfidenceLevel)
    : option (list WeeklyStats) :=
  option_map (weeklyStats confidence) (weeklyGroups entries statsGrouping).

(** The number of entries of the log whose date lies in [[start, end]]. *)
Definition entries_within (entries : list WeightEntry) (start end_ : Z) : nat :=
  List.length
    (filter (fun e =>
               match JsDate.time_ms (date e) with
               | Some t => ((start <=? t) && (t <=? end_))%Z
               | None => false
               end)
            entries).

(** A reading of [parseFloat] on plain decimals, [digits] or
    [digits.digits]: the quotient of two integers that doubles hold exactly
    is rounded once, as the decimal is (up to 15 digits).  Other strings are
    NaN here, also those [parseFloat] reads as a number (a sign, an
    exponent, blanks before or text after the number).  It instantiates
    [parseFloat] in the examples, on plain decimals; the theorems hold for
    every [parseFloat]. *)
Fixpoint split_dot (cs : list ascii) : list ascii * option (list ascii) :=
  match cs with
  | [] => ([], None)
  | c :: cs' =>
      if Ascii.eqb c "." then ([], Some cs')
      else let '(a, b) := split_dot cs' in (c :: a, b)
  end.

Definition parseDecimal (s : string) : float :=
  let '(ip, fp) := split_dot (list_ascii_of_string s) in
  let fp := match fp with Some f => f | None => [] end in
  match ip, JsDate.number 0 (ip ++ fp) with
  | _ :: _, Some n => JsNum.of_Z n / JsNum.of_Z (10 ^ Z.of_nat (List.length fp))
  | _, _ => PrimFloat.nan
  end.

(** The calibration factor in the state after [n] rounds of render and
    commit. *)
Fixpoint committed (n : nat) (st : AppState) : option CalibrationFactor :=
  match n with
  | O => Some (st_calibrationFactor st)
  | S n' =>
      match commitEffect parseDecimal st with
      | Some st' => committed n' st'
      | None => None
      end
  end.

(** ** The richer empirical estimator

    Modelled from the spec: [calculateEmpiricalKcalPerKgHelper] is exported
    by the component its tests import but is not in the source at hand.  The
    pairs and the regression are those of [calculateEmpiricalKcalPerKg]; the
    interval on the slope is slope ± z·SE with the standard error of
    section 4.3; the stability bands follow section 4.4.  The fraction of
    the point value beyond which the interval counts as wide is left to the
    implementer by the spec and is a parameter here. *)

Inductive Stability : Type := stable | noisy | insufficient.

Record RichEstimate : Type := mkRich {
  rich_empirical : option float;
  empiricalCI : option (float * float);
  rich_maintenance : option float;
  rich_r2 : option float;
  rich_intervals : nat;
  stability : Stability
}.

(** The confidence interval of the regression slope over the pairs. *)
Definition helper_slopeCI (pairs : list IntervalPair) (conf : ConfidenceLevel)
    : float * float :=
  let slope := emp_slope pairs in
  let se := slopeSE_of (map p_calories pairs) (map weightRate pairs) slope in
  (slope - zScores conf * se, slope + zScores conf * se).

(** The interval contains zero. *)
Definition straddles_zero (iv : float * float) : bool :=
  PrimFloat.leb (fst iv) 0 && PrimFloat.leb 0 (snd iv).

Section RichEstimator.

Variable WIDE_CI_FRACTION : float.

Definition calculateEmpiricalKcalPerKgHelper (entries : list WeightEntry)
    (conf : ConfidenceLevel) : RichEstimate :=
  let base := calculateEmpiricalKcalPerKg entries in
  let pairs := pairs_of (sort_entries entries) in
  match empirical base with
  | None =>
      mkRich None None None None (intervals base) insufficient
  | Some e =>
      let iv := helper_slopeCI pairs conf in
      if straddles_zero iv then
        mkRich (Some e) None (maintenance base) (e_r2 base) (intervals base)
          insufficient
      else
        let a := PrimFloat.abs (1 / fst iv) in
        let b := PrimFloat.abs (1 / snd iv) in
        let lo := JsNum.min a b in
        let hi := JsNum.max a b in
        let halfWidth := (hi - lo) / 2 in
        mkRich (Some e) (Some (lo, hi)) (maintenance base) (e_r2 base)
          (intervals base)
          (if JsNum.gtb halfWidth (WIDE_CI_FRACTION * e) then noisy else stable)
  end.

End RichEstimator.

(** ** Intake notice detector

    Modelled from the spec: [computeIntakeNotice] is exported by the
    component its tests import but is not in the source at hand.  Section
    4.5 describes it over real quantities, and it is modelled over exact
    rationals.  An [Observation] holds what the detector reads off the log
    (days of data, slope of the weight regression, average logged intake)
    and off its two collaborators (inferred maintenance, and the empirical
    kcal/kg when it is stable).  The noise band is left open by the spec and
    is a parameter. *)

Module IntakeNotice.

Import Stdlib.QArith.QArith.
Open Scope Q_scope.

Inductive Direction : Type :=
| gain_larger_than_expected
| gain_despite_deficit
| loss_despite_surplus
| loss_larger_than_expected.

Record Notice : Type := mkNotice {
  direction : Direction;
  suggestedAdjustment : Q         (* signed kcal/day *)
}.

Record Observation : Type := mkObservation {
  obs_daysOfData : nat;
  observedSlope : Q;              (* kg/day *)
  avgIntake : option Q;           (* kcal/day *)
  obs_maintenance : Q;            (* kcal/day *)
  stableEmpirical : option Q      (* kcal/kg, when stable *)
}.

Definition Qltb (a b : Q) : bool := negb (Qle_bool b a).

(** Best-available kcal/kg: empirical if stable, else the 7700 constant. *)
Definition bestKcalPerKg (o : Observation) : Q :=
  match stableEmpirical o with
  | Some k => k
  | None => 7700
  end.

(** The rate of weight change the logged calories predict. *)
Definition expectedRate (o : Observation) (intake : Q) : Q :=
  (intake - obs_maintenance o) / bestKcalPerKg o.

Section Detector.

Variable outsideNoiseBand : Observation -> bool.

Definition computeIntakeNotice (o : Observation) : option Notice :=
  if (obs_daysOfData o <? MIN_DAYS_FOR_INFERENCE)%nat then None
  else
    match avgIntake o with
    | None => None
    | Some intake =>
        if negb (outsideNoiseBand o) then None
        else
          let expectLoss := Qltb intake (obs_maintenance o) in
          let observedGain := Qltb 0 (observedSlope o) in
          let gap := observedSlope o - expectedRate o intake in
          Some (mkNotice
                  (match expectLoss, observedGain with
                   | false, true => gain_larger_than_expected
                   | true, true => gain_despite_deficit
                   | false, false => loss_despite_surplus
                   | true, false => loss_larger_than_expected
                   end)
                  (gap * bestKcalPerKg o))
    end.

End Detector.

(** A month of slow gain at a logged intake below maintenance. *)
Definition gaining_on_deficit : Observation :=
  mkObservation 31 (1 # 50) (Some 2000) 2500 None.

End IntakeNotice.

(** ** Example inputs *)

Module Examples.

Open Scope string_scope.
Open Scope float_scope.

(** A log with two dated entries, and the form filled in for the second
    date again. *)
Definition two_days : list WeightEntry :=
  [mkEntry "2024-01-01" 70 (Some 2200); mkEntry "2024-01-02" 72 (Some 2300)].

Definition default_calibration : CalibrationFactor :=
  mkCalibration "2024-06-01" 0.3 0.9.

Definition rewrite_second_day : AppState :=
  mkState two_days [] "2024-01-02" "73.0" "2400" C95 WAll G1w ""
    default_calibration [].

(** Two weighings a day apart. *)
Definition two_points : list WeightEntry :=
  [mkEntry "2024-01-01" 70 None; mkEntry "2024-01-02" 71 None].

(** A gain of one kilogram in a day with calories logged, and the body fat
    measured on the second day. *)
Definition measured_gain : AppState :=
  mkState
    [mkEntry "2024-01-01" 70 (Some 2000); mkEntry "2024-01-02" 71 (Some 3000)]
    [mkMeasurement "2024-01-02" (Some 20) []]
    "" "" "" C95 WAll G1w "20" default_calibration [].

(** The same log seen while the user types into the form and changes the
    chart options. *)
Definition measured_gain_typing : AppState :=
  mkState (st_entries measured_gain) (st_measurements measured_gain)
    "2024-01-03" "71.5" "" C95 W30 G2w "20" default_calibration [].

(** One weighing on a Thursday. *)
Definition one_thursday : list WeightEntry := [mkEntry "2024-01-04" 70 None].

(** Three entries with calories, two days apart, gaining steadily. *)
Definition steady_gain : list WeightEntry :=
  [mkEntry "2024-01-01" 70 (Some 2300);
   mkEntry "2024-01-03" 70.4 (Some 2600);
   mkEntry "2024-01-05" 70.9 (Some 2900)].

(** Three entries with the same calories. *)
Definition same_calories : list WeightEntry :=
  [mkEntry "2024-01-01" 70 (Some 2500);
   mkEntry "2024-01-03" 70.4 (Some 2500);
   mkEntry "2024-01-05" 70.9 (Some 2500)].

(** Flat weight while the calories vary. *)
Definition flat_weight : list WeightEntry :=
  [mkEntry "2024-01-01" 70 (Some 2000);
   mkEntry "2024-01-03" 70 (Some 2500);
   mkEntry "2024-01-05" 70 (Some 3000)].

(** A gain followed by a loss while the calories go up and down. *)
Definition zigzag : list WeightEntry :=
  [mkEntry "2024-01-01" 70 (Some 2000);
   mkEntry "2024-01-03" 70.3 (Some 2600);
   mkEntry "2024-01-05" 70.1 (Some 2300)].

(** Two entries with calories, a day apart. *)
Definition two_with_calories : list WeightEntry :=
  [mkEntry "2024-01-01" 70 (Some 2500); mkEntry "2024-01-02" 70.1 (Some 2550)].

End Examples.

(** ** The rest of the component's core *)

Open Scope string_scope.
Open Scope float_scope.

(** An entry as the form validates it: a finite positive weight and, when
    present, finite positive calories. *)
Definition validated (e : WeightEntry) : bool :=
  JsNum.isFinite (weight e) && negb (PrimFloat.leb (weight e) 0)
  && match calories e with
     | Some c => JsNum.isFinite c && negb (PrimFloat.leb c 0)
     | None => true
     end.

(** [removeMeasurement(index)]. *)
Definition removeMeasurement (index : nat) (measurements : list BodyMeasurement)
    : list BodyMeasurement :=
  remove_at index measurements.

(** The measurement form: the date input, the body fat input and the inputs
    of the body parts ([undefined] is [None]). *)
Record MeasurementForm : Type := mkMeasurementForm {
  measurementDate : string;
  form_bodyFat : string;
  measurementInputs : string -> option string
}.

Definition MEASURED_PARTS : list string :=
  ["neck"; "shoulders"; "chest"; "waist"; "hips"; "biceps"; "forearms";
   "thighs"; "calves"].

Definition empty_form : MeasurementForm :=
  mkMeasurementForm "" "" (fun _ => None).

Section AddBodyMeasurement.

Variable parseFloat : string -> float.

(** The parts that were entered, in the order of the loop. *)
Definition entered_parts (form : MeasurementForm) : list (string * float) :=
  flat_map
    (fun part =>
       match measurementInputs form part with
       | Some s => if is_empty s then [] else [(part, parseFloat s)]
       | None => []
       end)
    MEASURED_PARTS.

Definition newMeasurement (form : MeasurementForm) : BodyMeasurement :=
  mkMeasurement (measurementDate form)
    (if is_empty (form_bodyFat form) then None
     else Some (parseFloat (form_bodyFat form)))
    (entered_parts form).

(** [Object.keys(m).length] *)
Definition keys_length (m : BodyMeasurement) : nat :=
  1 + (if has_bodyFat m then 1 else 0) + List.length (parts m).

(** [addBodyMeasurement]: the new log, the new form and the alert shown. *)
Definition addBodyMeasurement (form : MeasurementForm)
    (measurements : list BodyMeasurement)
    : list BodyMeasurement * MeasurementForm * option string :=
  if is_empty (measurementDate form) then
    (measurements, form, Some "Please select a date for the measurements")
  else if (keys_length (newMeasurement form) <=? 1)%nat then
    (measurements, form, Some "Please enter at least one measurement")
  else
    (js_sort by_m_date (measurements ++ [newMeasurement form]), empty_form, None).

(** [getProgressPercentage], from the goal and starting weight inputs. *)
Definition getProgressPercentage (goalWeight startingWeight : string)
    (entries : list WeightEntry) : float :=
  match rev entries with
  | [] => 0
  | lastEntry :: _ =>
      if is_empty goalWeight || is_empty startingWeight then 0
      else
        let currentWeight := weight lastEntry in
        let start := parseFloat startingWeight in
        let goal := parseFloat goalWeight in
        let progress := (currentWeight - start) / (goal - start) * 100 in
        JsNum.min (JsNum.max progress 0) 100
  end.

End AddBodyMeasurement.

(** How the statistics of a bucket refer to those of the bucket before:
    the first has no change; a later one has the difference of the means as
    its change, and a change interval, whose margin is zero when both
    buckets have at most one entry. *)
Definition link (prev : option WeeklyStats) (s : WeeklyStats) : Prop :=
  match prev with
  | None => change s = None /\ changeCI s = None
  | Some p =>
      change s = Some (ws_mean s - ws_mean p)
      /\ changeCI s <> None
      /\ ((dataLength s <= 1)%nat -> (dataLength p <= 1)%nat ->
          changeCI s
          = Some (ws_mean s - ws_mean p - 0, ws_mean s - ws_mean p + 0))
  end.

Fixpoint linked (prev : option WeeklyStats) (l : list WeeklyStats) : Prop :=
  match l with
  | [] => True
  | s :: l' => link prev s /\ linked (Some s) l'
  end.

(** [res[res.length - 1]], if any. *)
Definition last_pushed (res : list WeeklyStats) : option WeeklyStats :=
  match rev res with
  | prev :: _ => Some prev
  | [] => None
  end.

(** What the loop pushes for an entry without a measurement whose
    calories and those of the entry before are logged: the safety floors of
    the masses and the caps of the interval hold, unless the value is NaN. *)
Definition floored (bfm : list BodyMeasurement) (prevEntry : option WeightEntry)
    (entry : WeightEntry) (est : BodyCompositionEstimate) : Prop :=
  actualMeasurement bfm (date entry) = None ->
  forall p, prevEntry = Some p ->
    JsNum.truthy_opt (calories entry) && JsNum.truthy_opt (calories p) = true ->
    (PrimFloat.is_nan (fatMass est) = true
     \/ PrimFloat.leb (weight entry * 0.03) (fatMass est) = true)
    /\ (PrimFloat.is_nan (leanMass est) = true
        \/ PrimFloat.leb (weight entry * 0.5) (leanMass est) = true)
    /\ (PrimFloat.is_nan (fst (bodyFatPercentageCI est)) = true
        \/ PrimFloat.leb 3 (fst (bodyFatPercentageCI est)) = true)
    /\ (PrimFloat.is_nan (snd (bodyFatPercentageCI est)) = true
        \/ PrimFloat.leb (snd (bodyFatPercentageCI est)) 60 = true)
    /\ bodyFatPercentage est = fatMass est / weight entry * 100.

Fixpoint floored_all (bfm : list BodyMeasurement) (prevEntry : option WeightEntry)
    (rest : list WeightEntry) (ests : list BodyCompositionEstimate) : Prop :=
  match rest, ests with
  | [], [] => True
  | entry :: rest', est :: ests' =>
      floored bfm prevEntry entry est /\ floored_all bfm (Some entry) rest' ests'
  | _, _ => False
  end.

(** The number of entries that have calories. *)
Definition with_calories (l : list WeightEntry) : nat :=
  List.length (filter has_calories l).

(** [coverage.calorieIntervals]: the adjacent pairs of the sorted log whose
    two entries have calories. *)
Fixpoint calorieIntervals (sorted : list WeightEntry) : nat :=
  match sorted with
  | curr :: (next :: _) as rest =>
      (if has_calories curr && has_calories next then 1 else 0)%nat
      + calorieIntervals rest
  | _ => 0%nat
  end.

(** A point of the scatter plot; its label is the template
    [curr.date → next.date], kept as the two dates. *)
Record ScatterPoint : Type := mkScatter {
  avgCalories : float;
  sp_weightRate : float;
  sp_label : string * string
}.

(** [intervalPairs]: the pairs of adjacent entries of the sorted log. *)
Fixpoint adjacent_pairs (sorted : list WeightEntry) : list ScatterPoint :=
  match sorted with
  | curr :: (next :: _) as rest =>
      match calories curr, calories next with
      | Some c, Some cn =>
          let days := days_between (date curr) (date next) in
          if PrimFloat.leb days 0 then adjacent_pairs rest
          else
            mkScatter ((c + cn) / 2) ((weight next - weight curr) / days)
              (date curr, date next)
            :: adjacent_pairs rest
      | _, _ => adjacent_pairs rest
      end
  | _ => []
  end.

Definition intervalPairs (entries : list WeightEntry) : list ScatterPoint :=
  adjacent_pairs (sort_entries entries).

Definition point_pair (p : ScatterPoint) : IntervalPair :=
  mkPair (avgCalories p) (sp_weightRate p).

(** [getChangeColor]. *)
Inductive ChangeColor : Type := green | red | gray.

Definition getChangeColor (changeCI : option (float * float)) : ChangeColor :=
  match changeCI with
  | None => gray
  | Some (lo, hi) =>
      if JsNum.gtb lo 0 then green
      else if PrimFloat.ltb hi 0 then red
      else gray
  end.

(** All entries held by the map of buckets, bucket after bucket. *)
Definition all_data (grouped : GroupMap) : list WeightEntry :=
  List.concat (map (fun kg => data (snd kg)) grouped).

(** The start of the bucket a key names, in each grouping. *)
Definition start_of_key (grouping : StatsGroupingOption) (k : GroupKey) : Z :=
  match k with
  | KeyDay d => (d * JsDate.DAY_MS)%Z
  | KeyMonth y m =>
      match grouping with
      | G2m => (JsDate.make_day y m 1 * JsDate.DAY_MS)%Z
      | _ => (JsDate.make_day y (m - 1) 1 * JsDate.DAY_MS)%Z
      end
  end.

(** The key of the bucket an entry goes to, and the test that it is [k]. *)
Definition key_of (grouping : StatsGroupingOption) (e : WeightEntry)
    : option GroupKey :=
  option_map key (getGroupInfo (date e) grouping).

Definition has_key (grouping : StatsGroupingOption) (k : GroupKey)
    (e : WeightEntry) : bool :=
  match key_of grouping e with
  | Some k' => key_eqb k' k
  | None => false
  end.

(** The map of buckets after the entries [processed]: the keys are
    distinct, every key met has its bucket, and a bucket holds the entries
    of its key, in the order of the log, with the start of its key. *)
Definition buckets_of (grouping : StatsGroupingOption)
    (processed : list WeightEntry) (grouped : GroupMap) : Prop :=
  NoDup (map fst grouped)
  /\ (forall e k, In e processed -> key_of grouping e = Some k ->
        In k (map fst grouped))
  /\ (forall k g, In (k, g) grouped ->
        data g = filter (has_key grouping k) processed
        /\ data g <> []
        /\ startDateMs g = start_of_key grouping k
        /\ exists e, In e processed /\ key_of grouping e = Some k).

(** What an iteration of the estimator's loop pushes for [entry]. *)
Definition pushed (bfm : list BodyMeasurement) (prevEntry : option WeightEntry)
    (entry : WeightEntry) (est : BodyCompositionEstimate) : Prop :=
  bc_date est = date entry /\ bc_weight est = weight entry
  /\ (forall bf, actualMeasurement bfm (date entry) = Some bf ->
        bodyFatPercentage est = bf
        /\ fatMass est = weight entry * (bf / 100)
        /\ leanMass est = weight entry - weight entry * (bf / 100)
        /\ bodyFatPercentageCI est = (bf - 1, bf + 1)
        /\ isEstimated est = false)
  /\ (actualMeasurement bfm (date entry) = None ->
        isEstimated est = match prevEntry with Some _ => true | None => false end).

(** The estimates a run of the loop pushes for the entries [rest], the
    first of which follows [prevEntry]. *)
Fixpoint pushed_all (bfm : list BodyMeasurement) (prevEntry : option WeightEntry)
    (rest : list WeightEntry) (ests : list BodyCompositionEstimate) : Prop :=
  match rest, ests with
  | [], [] => True
  | entry :: rest', est :: ests' =>
      pushed bfm prevEntry entry est /\ pushed_all bfm (Some entry) rest' ests'
  | _, _ => False
  end.

(** No calibration can be derived from a log: no entry after the first has
    a body-fat measurement on its date. *)
Definition unmeasured_after_first (bfm : list BodyMeasurement)
    (sorted : list WeightEntry) : Prop :=
  forall e, In e (tl sorted) -> actualMeasurement bfm (date e) = None.

(** ** The arrays of the state, as objects

    A JavaScript array is an object: [a.sort(...)] sorts [a] itself, in
    place, and [[...a]] and [a.filter(...)] make a new array.  To state that
    a run of the estimator leaves the state as it found it, the arrays of
    entries and of measurements live in a store and are named by their
    address, and the functions a run goes through are written again as
    store transformers, each array operation where the source has it.  An
    entry or a measurement is never assigned a field, [newCalibrationFactor]
    is a copy ([{...calibrationFactor}]) that is replaced and never
    assigned, and the arrays of numbers, of pairs and of results are made
    and used within one call: they are values.  The store also holds the
    clock of the host ([Date.now()]). *)

Module Heap.

Record store : Type := mkStore {
  entryArrays : list (list WeightEntry);
  measurementArrays : list (list BodyMeasurement);
  clock : Z
}.

(** The array at an address. *)
Definition entriesAt (a : nat) (h : store) : list WeightEntry :=
  nth a (entryArrays h) [].
Definition measurementsAt (a : nat) (h : store) : list BodyMeasurement :=
  nth a (measurementArrays h) [].

(** [l[i] = x] for an address in range. *)
Fixpoint assign {A : Type} (i : nat) (x : A) (l : list A) : list A :=
  match l, i with
  | [], _ => []
  | _ :: l', O => x :: l'
  | y :: l', S i' => y :: assign i' x l'
  end.

(** [[...a]]: a new array with the elements of [a]. *)
Definition spread (a : nat) (h : store) : store * nat :=
  (mkStore (entryArrays h ++ [entriesAt a h]) (measurementArrays h) (clock h),
   List.length (entryArrays h)).

(** [a.filter(p)]: a new array. *)
Definition filterEntries (p : WeightEntry -> bool) (a : nat) (h : store)
    : store * nat :=
  (mkStore (entryArrays h ++ [filter p (entriesAt a h)]) (measurementArrays h)
     (clock h),
   List.length (entryArrays h)).

Definition filterMeasurements (p : BodyMeasurement -> bool) (a : nat) (h : store)
    : store * nat :=
  (mkStore (entryArrays h) (measurementArrays h ++ [filter p (measurementsAt a h)])
     (clock h),
   List.length (measurementArrays h)).

(** [a.sort((x, y) => x.date.localeCompare(y.date))]: sorts [a] in place and
    returns [a]. *)
Definition sortEntries (a : nat) (h : store) : store * nat :=
  (mkStore (assign a (js_sort by_date (entriesAt a h)) (entryArrays h))
     (measurementArrays h) (clock h),
   a).

Definition sortMeasurements (a : nat) (h : store) : store * nat :=
  (mkStore (entryArrays h)
     (assign a (js_sort by_m_date (measurementsAt a h)) (measurementArrays h))
     (clock h),
   a).

(** [getAverageIntake(entries)] *)
Definition getAverageIntake (entries : nat) (h : store) : store * option float :=
  let '(h, withCalories) := filterEntries has_calories entries h in
  let withCalories := entriesAt withCalories h in
  if (List.length withCalories <? 2)%nat then (h, None)
  else
    let total :=
      fold_left (fun sum e => sum + JsNum.or_default (calories e) 0) withCalories 0 in
    (h, Some (total / JsNum.of_nat (List.length withCalories))).

(** [calculateEmpiricalKcalPerKg(entries)] *)
Definition calculateEmpiricalKcalPerKg (entries : nat) (h : store)
    : store * EmpiricalEstimate :=
  let '(h, copy) := spread entries h in
  let '(h, sorted) := sortEntries copy h in
  let pairs := pairs_of (entriesAt sorted h) in
  let intervals := List.length pairs in
  if (intervals <? 3)%nat then (h, no_estimate intervals)
  else if PrimFloat.eqb (emp_denominator pairs) 0 then (h, no_estimate intervals)
  else
    let slope := emp_slope pairs in
    if PrimFloat.eqb slope 0 then (h, no_estimate intervals)
    else
      let intercept := emp_intercept pairs in
      let r2 := emp_r2 pairs in
      let empirical := PrimFloat.abs (1 / slope) in
      let maintenance := - intercept / slope in
      (h, mkEmpirical (Some empirical) (Some maintenance) (Some r2) intervals).

(** [getEmpiricalKcalPerKg(entries, weightChangeRate)] *)
Definition getEmpiricalKcalPerKg (entries : nat) (weightChangeRate : float)
    (h : store) : store * option float :=
  let '(h, res) := calculateEmpiricalKcalPerKg entries h in
  (h, match empirical res with
      | Some e => if JsNum.truthy e then Some e else None
      | None => None
      end).

(** [calculateCaloricInference(entries, conf)] *)
Definition calculateCaloricInference (entries : nat) (conf : ConfidenceLevel)
    (h : store) : store * option CaloricInference :=
  let es := entriesAt entries h in
  match es with
  | [] | [_] => (h, None)
  | first :: _ =>
      let x := map (fun entry => days_between (date first) (date entry)) es in
      let y := map weight es in
      let reg := linearRegression x y in
      let slope := slope reg in
      let intercept := intercept reg in
      let slopeSE := slopeSE_of x y slope in
      let z := zScores conf in
      let slopeCI := (slope - z * slopeSE, slope + z * slopeSE) in
      let weightChangeRate := slope in
      let weightChangeRateCI := slopeCI in
      let '(h, avgIntake) := getAverageIntake entries h in
      let maintenanceCandidates :=
        match avgIntake with
        | Some a => [a - snd weightChangeRateCI * KCAL_PER_KG;
                     a - fst weightChangeRateCI * KCAL_PER_KG]
        | None => [PrimFloat.abs (fst weightChangeRateCI * KCAL_PER_KG);
                   PrimFloat.abs (snd weightChangeRateCI * KCAL_PER_KG)]
        end in
      let maintenanceCalories :=
        match avgIntake with
        | Some a => a - weightChangeRate * KCAL_PER_KG
        | None => PrimFloat.abs (weightChangeRate * KCAL_PER_KG)
        end in
      let maintenanceCaloriesCI :=
        (JsNum.min_list maintenanceCandidates, JsNum.max_list maintenanceCandidates) in
      let trendData :=
        map (fun '(entry, xi) =>
               let predicted := slope * xi + intercept in
               let predictedLow := fst slopeCI * xi + intercept in
               let predictedHigh := snd slopeCI * xi + intercept in
               mkTrendPoint (date entry) (weight entry) predicted predictedLow
                 predictedHigh (predictedHigh - predictedLow))
            (combine es x) in
      (h, Some (mkInference maintenanceCalories maintenanceCaloriesCI
                  weightChangeRate weightChangeRateCI slopeCI intercept
                  (JsNum.max_list x - JsNum.min_list x + 1) (r2 reg) trendData))
  end.

Section Run.

(** The addresses of [entries], of [sortedEntries] and of
    [bodyFatMeasurements]. *)
Variable entries : nat.
Variable sortedEntries : nat.
Variable bodyFatMeasurements : nat.
Variable confidence : ConfidenceLevel.
Variable startBodyFat : float.
Variable startFatMass : float.
Variable startLeanMass : float.

(** The recalibration at a measured entry that has a previous entry. *)
Definition calibrate (entry : WeightEntry) (s : LoopState) (h : store)
    : store * option LoopState :=
  let lastDate := lastCalibrationDate s in
  let moved :=
    mkLoop (currentFatMass s) (currentLeanMass s) (lastKnownFatPercentage s)
      (date entry) (results s) in
  let daysBetween := days_between lastDate (date entry) in
  let '(totalCalories, countDays) :=
    fold_left
      (fun '(total, count) e =>
         match calories e with
         | Some c =>
             if in_range lastDate (date entry) e && JsNum.truthy c
             then (total + c, S count) else (total, count)
         | None => (total, count)
         end)
      (entriesAt sortedEntries h) (0, O) in
  if (0 <? countDays)%nat then
    let avgDailyCalories := totalCalories / JsNum.of_nat countDays in
    let '(h, estimatedKcalPerKg) :=
      if (MIN_DAYS_FOR_INFERENCE <=? List.length (entriesAt entries h))%nat then
        let '(h, avgIntake) := getAverageIntake entries h in
        match avgIntake with
        | Some _ =>
            let '(h, inference) := calculateCaloricInference entries confidence h in
            getEmpiricalKcalPerKg entries
              (JsNum.or_default (option_map weightChangeRate inference) 0) h
        | None => (h, None)
        end
      else (h, None) in
    let kcalPerKg := JsNum.or_default estimatedKcalPerKg 7700 in
    let '(h, window) :=
      filterEntries (in_range lastDate (date entry)) sortedEntries h in
    let '(h, inference) := calculateCaloricInference window confidence h in
    match inference with
    | None =>
        (h, Some (moved (l_newCalibrationFactor s) (shouldUpdateCalibration s)))
    | Some inference =>
        let '(h, window) :=
          filterEntries (in_range lastDate (date entry)) sortedEntries h in
        let '(h, avgIntake) := getAverageIntake window h in
        let maintenanceCalories :=
          match avgIntake with Some a => a | None => 0 end
          - weightChangeRate inference * kcalPerKg in
        let avgSurplus := avgDailyCalories - maintenanceCalories in
        let totalSurplus := avgSurplus * daysBetween in
        let theoreticalFatChange := totalSurplus / kcalPerKg in
        match find (fun e => String.eqb (date e) lastDate)
                (entriesAt sortedEntries h) with
        | None => (h, None)
        | Some anchor =>
            let weightChange := weight entry - weight anchor in
            let fatMassChange :=
              currentFatMass s
              - JsNum.or_default
                  (option_map fatMass
                     (find (fun r => String.eqb (bc_date r) lastDate) (results s)))
                  startFatMass in
            if JsNum.gtb avgSurplus 0 then
              if JsNum.gtb weightChange 0 && JsNum.gtb theoreticalFatChange 0 then
                let newMuscleFactor :=
                  JsNum.max 0 (JsNum.min 0.7 (1 - fatMassChange / theoreticalFatChange)) in
                let cf := l_newCalibrationFactor s in
                (h, Some (moved
                            (mkCalibration (date entry)
                               ((muscleGainFactor cf + newMuscleFactor) / 2)
                               (fatLossFactor cf))
                            true))
              else (h, Some (moved (l_newCalibrationFactor s)
                               (shouldUpdateCalibration s)))
            else if PrimFloat.ltb avgSurplus 0 then
              if PrimFloat.ltb weightChange 0 && PrimFloat.ltb theoreticalFatChange 0 then
                let newFatLossFactor :=
                  JsNum.max 0.5 (JsNum.min 1.0 (fatMassChange / theoreticalFatChange)) in
                let cf := l_newCalibrationFactor s in
                (h, Some (moved
                            (mkCalibration (date entry)
                               (muscleGainFactor cf)
                               ((fatLossFactor cf + newFatLossFactor) / 2))
                            true))
              else (h, Some (moved (l_newCalibrationFactor s)
                               (shouldUpdateCalibration s)))
            else (h, Some (moved (l_newCalibrationFactor s)
                             (shouldUpdateCalibration s)))
        end
    end
  else (h, Some (moved (l_newCalibrationFactor s) (shouldUpdateCalibration s))).

(** One iteration of the loop. *)
Definition step (prevEntry : option WeightEntry) (entry : WeightEntry)
    (s : LoopState) (h : store) : store * option LoopState :=
  match actualMeasurement (measurementsAt bodyFatMeasurements h) (date entry) with
  | Some actualBodyFat =>
      let actualFatMass := weight entry * (actualBodyFat / 100) in
      let actualLeanMass := weight entry - actualFatMass in
      let s1 :=
        mkLoop actualFatMass actualLeanMass actualBodyFat (lastCalibrationDate s)
          (results s ++
             [mkEstimate (date entry) (weight entry) actualBodyFat actualFatMass
                actualLeanMass (actualBodyFat - 1, actualBodyFat + 1) false])
          (l_newCalibrationFactor s) (shouldUpdateCalibration s) in
      match prevEntry with
      | Some _ => calibrate entry s1 h
      | None => (h, Some s1)
      end
  | None =>
      match prevEntry with
      | Some prevEntry =>
          if JsNum.truthy_opt (calories entry) && JsNum.truthy_opt (calories prevEntry)
          then
            let weightChange := weight entry - weight prevEntry in
            let '(h, empiricalRes) := calculateEmpiricalKcalPerKg entries h in
            let kcalPerKgUsed := JsNum.or_default (empirical empiricalRes) 7700 in
            let fatPct :=
              fatPct (getFatLeanPercent kcalPerKgUsed (kcalPerKgUsed, kcalPerKgUsed)) in
            let leanPct := 1 - fatPct in
            let fatMassChange := weightChange * fatPct in
            let leanMassChange := weightChange * leanPct in
            let fat := JsNum.max (weight entry * 0.03) (currentFatMass s + fatMassChange) in
            let lean := JsNum.max (weight entry * 0.5) (currentLeanMass s + leanMassChange) in
            let bodyFatPercentage := fat / weight entry * 100 in
            let daysSinceCalibration :=
              days_between (lastCalibrationDate s) (date entry) in
            let confidenceMargin := 1 + daysSinceCalibration * 0.05 in
            (h, Some (push s
                        (mkEstimate (date entry) (weight entry) bodyFatPercentage
                           fat lean
                           (JsNum.max 3 (bodyFatPercentage - confidenceMargin),
                            JsNum.min (bodyFatPercentage + confidenceMargin) 60)
                           true)
                        fat lean))
          else
            let bodyFatPercentage := lastKnownFatPercentage s in
            let fatMass := weight entry * (bodyFatPercentage / 100) in
            let leanMass := weight entry - fatMass in
            (h, Some (push s
                        (mkEstimate (date entry) (weight entry) bodyFatPercentage
                           fatMass leanMass
                           (bodyFatPercentage - 3, bodyFatPercentage + 3) true)
                        (currentFatMass s) (currentLeanMass s)))
      | None =>
          (h, Some (push s
                      (mkEstimate (date entry) (weight entry) startBodyFat
                         startFatMass startLeanMass
                         (startBodyFat - 1, startBodyFat + 1) false)
                      (currentFatMass s) (currentLeanMass s)))
      end
  end.

(** [for (let i = 0; i < sortedEntries.length; i++)], from [i] on.  The
    array is read at every turn; [fuel] bounds the number of turns, and the
    outer [None] says that it was used up before the loop ended. *)
Fixpoint loop (fuel : nat) (i : nat) (s : LoopState) (h : store)
    : option (store * option LoopState) :=
  match fuel with
  | O => None
  | S fuel' =>
      match nth_error (entriesAt sortedEntries h) i with
      | None => Some (h, Some s)
      | Some entry =>
          let prevEntry :=
            match i with
            | O => None
            | S j => nth_error (entriesAt sortedEntries h) j
            end in
          match step prevEntry entry s h with
          | (h, Some s) => loop fuel' (S i) s h
          | (h, None) => Some (h, None)
          end
      end
  end.

End Run.

Section App.

Variable parseFloat : string -> float.

(** A run of the [useMemo] of [calculateBodyComposition] on the state
    arrays at [entries] and [measurements]; the inner [None] is an
    exception. *)
Definition calculateBodyComposition (fuel : nat) (entries measurements : nat)
    (startingBodyFat : string) (calibrationFactor : CalibrationFactor)
    (confidence : ConfidenceLevel) (h : store)
    : option (store * option BodyCompositionResult) :=
  if (List.length (entriesAt entries h) =? 0)%nat || is_empty startingBodyFat then
    Some (h, Some (mkBCResult [] None))
  else
    let '(h, copy) := spread entries h in
    let '(h, sortedEntries) := sortEntries copy h in
    let '(h, withBodyFat) := filterMeasurements has_bodyFat measurements h in
    let '(h, bodyFatMeasurements) := sortMeasurements withBodyFat h in
    match entriesAt sortedEntries h with
    | [] => Some (h, None)
    | first :: _ =>
        let startWeight := weight first in
        let startBodyFat := parseFloat startingBodyFat in
        let startFatMass := startWeight * (startBodyFat / 100) in
        let startLeanMass := startWeight - startFatMass in
        let init :=
          mkLoop startFatMass startLeanMass startBodyFat (date first) []
            calibrationFactor false in
        match loop entries sortedEntries bodyFatMeasurements confidence
                startBodyFat startFatMass startLeanMass fuel 0 init h with
        | Some (h, Some s) =>
            Some (h, Some (mkBCResult (results s)
                             (if shouldUpdateCalibration s
                              then Some (l_newCalibrationFactor s) else None)))
        | Some (h, None) => Some (h, None)
        | None => None
        end
    end.

End App.

End Heap.

(** The state a run reads, as the values at its addresses. *)
Definition state_at (entries measurements : nat) (startingBodyFat : string)
    (calibrationFactor : CalibrationFactor) (confidence : ConfidenceLevel)
    (h : Heap.store) : AppState :=
  mkState (Heap.entriesAt entries h) (Heap.measurementsAt measurements h)
    "" "" "" confidence WAll G1w startingBodyFat calibrationFactor [].

(** A store extends another when it holds the arrays of the other, at their
    addresses and with their elements, and shows the same clock. *)
Definition extends (h h' : Heap.store) : Prop :=
  (exists more, Heap.entryArrays h' = (Heap.entryArrays h ++ more)%list)
  /\ (exists more, Heap.measurementArrays h' = (Heap.measurementArrays h ++ more)%list)
  /\ Heap.clock h' = Heap.clock h.

(** What a turn of the loop relies on: the arrays of [entries], of
    [sortedEntries] and of [bodyFatMeasurements] are in the store, and the
    second is the first one sorted. *)
Definition arrays_ok (eR sR bR : nat) (h : Heap.store) (es : list WeightEntry)
    (bfm : list BodyMeasurement) : Prop :=
  (eR < List.length (Heap.entryArrays h))%nat
  /\ (sR < List.length (Heap.entryArrays h))%nat
  /\ (bR < List.length (Heap.measurementArrays h))%nat
  /\ Heap.entriesAt eR h = es
  /\ Heap.entriesAt sR h = sort_entries es
  /\ Heap.measurementsAt bR h = bfm.

(** ** Dates in the time zone of the host

    [getGroupInfo] reads its date through the local-time methods of [Date]
    ([getDay], [getDate], [setDate], [setHours], [getFullYear], [getMonth],
    [new Date(y, m, d)]) and prints it through [toISOString], which is UTC.
    The definitions below follow ECMAScript: a time value is a number of
    milliseconds since the epoch, the host gives LocalTZA(t, isUTC), the
    offset of its local time, and the methods convert with LocalTime and
    UTC.  TimeClip is left out: the dates of four-digit years are far from
    its bound.  [getGroupInfo] and [startOfWeek] above are these functions
    at a host on UTC, written on the calendar day the string names (lemma
    [getGroupInfo_at_utc]; for the years 0 to 99 the month groupings of the
    code start in 1900 + y, see [MakeFullYear]). *)

Module Host.

Local Open Scope Z_scope.

(** LocalTZA(t, isUTC), in milliseconds. *)
Definition LocalTZA : Type := Z -> bool -> Z.

(** A host on UTC, and a host at a fixed offset. *)
Definition utc : LocalTZA := fun _ _ => 0.
Definition fixed (offset : Z) : LocalTZA := fun _ _ => offset.

Definition Day (t : Z) : Z := t / JsDate.DAY_MS.
Definition TimeWithinDay (t : Z) : Z := t mod JsDate.DAY_MS.
Definition WeekDay (t : Z) : Z := (Day t + 4) mod 7.

(** The calendar day (year, month from 1, day of month) with a day
    number. *)
Definition civil_from_days (z : Z) : Z * Z * Z :=
  let z := z + 719468 in
  let era := z / 146097 in
  let doe := z - era * 146097 in
  let yoe := (doe - doe / 1460 + doe / 36524 - doe / 146096) / 365 in
  let y := yoe + era * 400 in
  let doy := doe - (365 * yoe + yoe / 4 - yoe / 100) in
  let mp := (5 * doy + 2) / 153 in
  let d := doy - (153 * mp + 2) / 5 + 1 in
  let m := if mp <? 10 then mp + 3 else mp - 9 in
  (if m <=? 2 then y + 1 else y, m, d).

Definition YearFromTime (t : Z) : Z := fst (fst (civil_from_days (Day t))).
Definition MonthFromTime (t : Z) : Z := snd (fst (civil_from_days (Day t))) - 1.
Definition DateFromTime (t : Z) : Z := snd (civil_from_days (Day t)).

Definition MakeDay (year month date : Z) : Z := JsDate.make_day year month date.
Definition MakeDate (day time : Z) : Z := day * JsDate.DAY_MS + time.

(** The years 0 to 99 of [new Date(y, m, d)] are the years 1900 to 1999. *)
Definition MakeFullYear (year : Z) : Z :=
  if (0 <=? year) && (year <=? 99) then 1900 + year else year.

Section Local.

Variable tza : LocalTZA.

Definition LocalTime (t : Z) : Z := t + tza t true.
Definition UTC (t : Z) : Z := t - tza t false.

(** The methods of a [Date] whose time value is [t]. *)
Definition getDay (t : Z) : Z := WeekDay (LocalTime t).
Definition getDate (t : Z) : Z := DateFromTime (LocalTime t).
Definition getMonth (t : Z) : Z := MonthFromTime (LocalTime t).
Definition getFullYear (t : Z) : Z := YearFromTime (LocalTime t).

(** [d.setDate(dt)] and [d.setHours(0, 0, 0, 0)]: the new time value. *)
Definition setDate (t dt : Z) : Z :=
  let lt := LocalTime t in
  UTC (MakeDate (MakeDay (YearFromTime lt) (MonthFromTime lt) dt)
         (TimeWithinDay lt)).

Definition setHours0 (t : Z) : Z := UTC (MakeDate (Day (LocalTime t)) 0).

(** [new Date(year, month, date)]. *)
Definition newDate (year month date : Z) : Z :=
  UTC (MakeDate (MakeDay (MakeFullYear year) month date) 0).

(** [iso(d)]: the UTC calendar day of [d], as its day number. *)
Definition iso (t : Z) : Z := Day t.

Definition startOfWeek (date : Z) : Z :=
  let day := getDay date in
  let diff := (day + 6) mod 7 in
  let monday := setDate date (getDate date - diff) in
  setHours0 monday.

Definition getGroupInfo (dateStr : string) (grouping : StatsGroupingOption)
    : option GroupInfo :=
  match JsDate.time_ms dateStr with
  | None => None
  | Some date =>
      let weekStart := startOfWeek date in
      Some
        match grouping with
        | G1w =>
            let e := weekStart + 7 * JsDate.DAY_MS - JsDate.DAY_MS in
            mkGroupInfo (KeyDay (iso weekStart)) (LabelDay (iso weekStart))
              weekStart e
        | G2w =>
            let weeksSinceEpoch := weekStart / (7 * JsDate.DAY_MS) in
            let bucketStartWeek := weeksSinceEpoch / 2 * 2 in
            let startDate := bucketStartWeek * 7 * JsDate.DAY_MS in
            let endDate := startDate + 14 * JsDate.DAY_MS - JsDate.DAY_MS in
            mkGroupInfo (KeyDay (iso startDate))
              (LabelDays (iso startDate) (iso endDate)) startDate endDate
        | G1m =>
            let startDate := newDate (getFullYear date) (getMonth date) 1 in
            let endDate := newDate (getFullYear date) (getMonth date + 1) 0 in
            mkGroupInfo
              (KeyMonth (getFullYear startDate) (getMonth startDate + 1))
              (LabelMonth (getFullYear startDate) (getMonth startDate + 1))
              startDate endDate
        | G2m =>
            let bucketMonth := getMonth date / 2 * 2 in
            let startDate := newDate (getFullYear date) bucketMonth 1 in
            let endDate := newDate (getFullYear date) (bucketMonth + 2) 0 in
            mkGroupInfo (KeyMonth (getFullYear startDate) bucketMonth)
              (LabelMonths (getFullYear startDate) (bucketMonth + 1)
                 (getFullYear endDate) (getMonth endDate + 1))
              startDate endDate
        end
  end.

End Local.

End Host.

(** More example inputs. *)

Module MoreExamples.

(** The stored data of the repository's render test: three entries with
    calories, a starting body fat of 15 and no measurement. *)
Definition prior_data : AppState :=
  mkState
    [mkEntry "2024-01-01" 70 (Some 2200);
     mkEntry "2024-01-03" 70.4 (Some 2300);
     mkEntry "2024-01-05" 70.8 (Some 2400)]
    [] "" "" "" C95 WAll G1w "15" Examples.default_calibration [].

(** Two measurements of one date, and a later one without body fat. *)
Definition repeated_measurements : list BodyMeasurement :=
  [mkMeasurement "2024-01-02" (Some 20) [];
   mkMeasurement "2024-01-02" (Some 25) [("waist", 80)];
   mkMeasurement "2024-01-03" None [("waist", 81)]].

(** The measurement form with a date, a body fat and a waist. *)
Definition waist_form : MeasurementForm :=
  mkMeasurementForm "2024-01-02" "12"
    (fun part => if String.eqb part "waist" then Some "80" else None).

(** Two weeks of entries across a week boundary. *)
Definition around_new_year : list WeightEntry :=
  [mkEntry "2024-01-04" 70 None;
   mkEntry "2023-12-31" 71 None;
   mkEntry "2024-01-01" 72 None;
   mkEntry "2024-01-09" 72 None].

(** The arrays of [measured_gain] in a store, on 2024-01-04. *)
Definition measured_gain_store : Heap.store :=
  Heap.mkStore [st_entries Examples.measured_gain]
    [st_measurements Examples.measured_gain] 1704326400000.

End MoreExamples.

Close Scope float_scope.
Close Scope string_scope.

(** * Properties *)

Open Scope nat_scope.

(** ** Sorting *)

Section SortFacts.
Context {A : Type}.
Variable cmp : A -> A -> comparison.

Lemma insert_sorted_perm (x : A) (l : list A) :
  Permutation (x :: l) (insert_sorted cmp x l).
Proof.
  induction l as [|y l IH]; simpl; [reflexivity|].
  destruct (cmp x y); try reflexivity.
  etransitivity; [apply perm_swap|]. now apply perm_skip.
Qed.

Lemma js_sort_perm (l : list A) : Permutation l (js_sort cmp l).
Proof.
  induction l as [|x l IH]; simpl; [constructor|].
  etransitivity; [apply perm_skip, IH|]. apply insert_sorted_perm.
Qed.

Lemma js_sort_length (l : list A) : List.length (js_sort cmp l) = List.length l.
Proof. symmetry. apply Permutation_length, js_sort_perm. Qed.

Lemma js_sort_In (l : list A) (x : A) : In x (js_sort cmp l) <-> In x l.
Proof.
  split; apply Permutation_in; [symmetry|]; apply js_sort_perm.
Qed.

Hypothesis cmp_total : forall a b, cmp a b = Gt -> cmp b a <> Gt.

Lemma insert_sorted_hd (x a : A) (l : list A) :
  HdRel (cmp_le cmp) a l -> cmp_le cmp a x ->
  HdRel (cmp_le cmp) a (insert_sorted cmp x l).
Proof.
  intros Hl Hax. destruct l as [|y l]; simpl.
  - now constructor.
  - destruct (cmp x y); constructor; auto; now inversion Hl.
Qed.

Lemma insert_sorted_sorted (x : A) (l : list A) :
  Sorted (cmp_le cmp) l -> Sorted (cmp_le cmp) (insert_sorted cmp x l).
Proof.
  induction 1 as [|y l Hs IH Hhd]; simpl.
  - repeat constructor.
  - destruct (cmp x y) eqn:E.
    + constructor; [now constructor|]. constructor. unfold cmp_le. congruence.
    + constructor; [now constructor|]. constructor. unfold cmp_le. congruence.
    + constructor; [exact IH|].
      apply insert_sorted_hd; [exact Hhd|]. now apply cmp_total.
Qed.

Lemma js_sort_sorted (l : list A) : Sorted (cmp_le cmp) (js_sort cmp l).
Proof.
  induction l as [|x l IH]; simpl; [constructor|].
  now apply insert_sorted_sorted.
Qed.

End SortFacts.

Lemma localeCompare_total (a b : string) :
  localeCompare a b = Gt -> localeCompare b a <> Gt.
Proof.
  unfold localeCompare. intros H. rewrite String.compare_antisym, H. discriminate.
Qed.

Lemma sort_entries_sorted (l : list WeightEntry) :
  Sorted date_le (sort_entries l).
Proof.
  apply js_sort_sorted. intros a b. apply localeCompare_total.
Qed.

Lemma sort_entries_perm (l : list WeightEntry) :
  Permutation l (sort_entries l).
Proof. apply js_sort_perm. Qed.

(** ** The entry log *)

Lemma filter_dates_NoDup (f : WeightEntry -> bool) (l : list WeightEntry) :
  NoDup (map date l) -> NoDup (map date (filter f l)).
Proof.
  induction l as [|e l IH]; simpl; intros H; [constructor|].
  inversion H as [|? ? Hn Hd]; subst.
  destruct (f e); simpl; [constructor|]; auto.
  intros Hin. apply Hn. apply in_map_iff in Hin as (x & Hx & Hin).
  apply filter_In in Hin as [Hin _]. apply in_map_iff. now exists x.
Qed.

Lemma other_date_absent (d : string) (l : list WeightEntry) :
  ~ In d (map date (filter (other_date d) l)).
Proof.
  intros Hin. apply in_map_iff in Hin as (x & Hx & Hin).
  apply filter_In in Hin as [_ Hf]. unfold other_date in Hf.
  rewrite Hx, String.eqb_refl in Hf. discriminate.
Qed.

Lemma other_date_length (d : string) (l : list WeightEntry) :
  NoDup (map date l) -> In d (map date l) ->
  S (List.length (filter (other_date d) l)) = List.length l.
Proof.
  induction l as [|e l IH]; simpl; intros Hnd Hin; [contradiction|].
  inversion Hnd as [|? ? Hn Hd]; subst.
  unfold other_date at 1. destruct (String.eqb_spec (date e) d) as [E|E]; simpl.
  - f_equal. subst d. clear IH Hin Hd Hnd.
    induction l as [|x l IHl]; simpl; [reflexivity|].
    unfold other_date at 1.
    destruct (String.eqb_spec (date x) (date e)) as [E|E]; simpl.
    + exfalso. apply Hn. left. exact E.
    + f_equal. apply IHl. intros H. apply Hn. now right.
  - f_equal. apply IH; [exact Hd|]. destruct Hin; [contradiction|assumption].
Qed.

Section AddEntryFacts.

Variable parseFloat : string -> float.

(** The log after an accepted [addEntry]. *)
Lemma addEntry_accepted (st : AppState) :
  snd (addEntry parseFloat st) = None ->
  st_entries (fst (addEntry parseFloat st)) =
  sort_entries (filter (other_date (st_date st)) (st_entries st)
                ++ [newEntry parseFloat st]).
Proof.
  unfold addEntry.
  destruct (is_empty (st_date st) || is_empty (st_weight st)); [discriminate|].
  destruct (negb _ || _); [discriminate|].
  destruct (match parsedCalories parseFloat st with Some _ => _ | None => _ end);
    [discriminate|].
  reflexivity.
Qed.

Lemma addEntry_rejected (st : AppState) :
  snd (addEntry parseFloat st) <> None -> fst (addEntry parseFloat st) = st.
Proof.
  unfold addEntry.
  destruct (is_empty (st_date st) || is_empty (st_weight st)); [reflexivity|].
  destruct (negb _ || _); [reflexivity|].
  destruct (match parsedCalories parseFloat st with Some _ => _ | None => _ end);
    [reflexivity|].
  simpl. congruence.
Qed.

(** C8: adding an entry whose date is already in the log overwrites the
    entry of that date instead of appending a row.  [addEntry] accepts
    exactly the forms that hold a date, a weight that reads as a finite
    positive number and calories that are empty or read as a finite positive
    number, whatever the log holds: a date that is already present raises no
    alert.  Every call keeps the log invariant (at most one entry per date,
    ascending dates); an accepted call leaves exactly the new entry at its
    date, keeps every entry of another date, and keeps the length of the log
    when the date was present (it adds one row when it was not); a refused
    call leaves the state as it is. *)
Theorem addEntry_last_write_wins (st : AppState) :
  log_invariant (st_entries st) ->
  let st' := fst (addEntry parseFloat st) in
  log_invariant (st_entries st')
  /\ (snd (addEntry parseFloat st) = None <->
      is_empty (st_date st) = false /\ is_empty (st_weight st) = false
      /\ JsNum.isFinite (parseFloat (st_weight st)) = true
      /\ PrimFloat.leb (parseFloat (st_weight st)) 0 = false
      /\ (is_empty (st_calories st) = false ->
          JsNum.isFinite (parseFloat (st_calories st)) = true
          /\ PrimFloat.leb (parseFloat (st_calories st)) 0 = false))
  /\ (snd (addEntry parseFloat st) = None ->
      In (newEntry parseFloat st) (st_entries st')
      /\ (forall e, In e (st_entries st') -> date e = st_date st ->
                    e = newEntry parseFloat st)
      /\ (forall e, date e <> st_date st ->
                    (In e (st_entries st') <-> In e (st_entries st)))
      /\ (In (st_date st) (map date (st_entries st)) ->
          List.length (st_entries st') = List.length (st_entries st))
      /\ (~ In (st_date st) (map date (st_entries st)) ->
          List.length (st_entries st') = S (List.length (st_entries st))))
  /\ (snd (addEntry parseFloat st) <> None -> st' = st)
  /\ (forall l, snd (addEntry parseFloat (set_entries st l))
                = snd (addEntry parseFloat st)).
Proof.
  intros [Hnd Hs] st'. subst st'.
  set (d := st_date st). set (ne := newEntry parseFloat st).
  assert (Hmem : forall e,
             In e (sort_entries (filter (other_date d) (st_entries st) ++ [ne]))
             <-> (In e (st_entries st) /\ other_date d e = true) \/ e = ne).
  { intros e. unfold sort_entries. rewrite js_sort_In, in_app_iff, filter_In.
    simpl. intuition. }
  split; [|split; [|split; [|split]]].
  - destruct (snd (addEntry parseFloat st)) eqn:E.
    + rewrite addEntry_rejected by congruence. now split.
    + rewrite addEntry_accepted by exact E. split; [|apply sort_entries_sorted].
      unfold one_entry_per_date.
      eapply Permutation_NoDup; [apply Permutation_map, sort_entries_perm|].
      rewrite map_app. simpl.
      eapply Permutation_NoDup; [apply Permutation_cons_append|].
      constructor; [apply other_date_absent|].
      now apply filter_dates_NoDup.
  - clear Hmem. subst d ne. unfold addEntry, parsedCalories.
    destruct (is_empty (st_date st)); simpl;
      [split; [discriminate|intros (? & _); discriminate]|].
    destruct (is_empty (st_weight st)); simpl;
      [split; [discriminate|intros (_ & ? & _); discriminate]|].
    destruct (JsNum.isFinite (parseFloat (st_weight st))); simpl;
      [|split; [discriminate|intros (_ & _ & ? & _); discriminate]].
    destruct (PrimFloat.leb (parseFloat (st_weight st)) 0); simpl;
      [split; [discriminate|intros (_ & _ & _ & ? & _); discriminate]|].
    destruct (is_empty (st_calories st)); simpl.
    + split; [|reflexivity]. intros _.
      repeat split; try reflexivity; intros; discriminate.
    + destruct (JsNum.isFinite (parseFloat (st_calories st))); simpl;
        [|split; [discriminate|]; intros (_ & _ & _ & _ & H);
          destruct (H eq_refl); discriminate].
      destruct (PrimFloat.leb (parseFloat (st_calories st)) 0); simpl;
        [split; [discriminate|]; intros (_ & _ & _ & _ & H);
         destruct (H eq_refl); discriminate|].
      split; [|reflexivity]. intros _. repeat split; intros; reflexivity.
  - intros E. rewrite addEntry_accepted by exact E. fold d ne.
    split; [|split; [|split; [|split]]].
    + apply Hmem. now right.
    + intros e He Hd. apply Hmem in He as [[_ Ho]|He]; [|exact He].
      unfold other_date in Ho. rewrite Hd, String.eqb_refl in Ho. discriminate.
    + intros e Hd. rewrite Hmem. split.
      * intros [[Hin _]|He]; [exact Hin|]. subst e. now elim Hd.
      * intros Hin. left. split; [exact Hin|]. unfold other_date.
        now apply negb_true_iff, String.eqb_neq.
    + intros Hin. unfold sort_entries. rewrite js_sort_length, length_app. simpl.
      rewrite Nat.add_1_r. now apply other_date_length.
    + intros Hin. unfold sort_entries. rewrite js_sort_length, length_app. simpl.
      rewrite Nat.add_1_r. f_equal. f_equal.
      clear - Hin. induction (st_entries st) as [|e l IH]; [reflexivity|].
      simpl in *. unfold other_date at 1.
      destruct (String.eqb_spec (date e) d) as [E|E]; simpl.
      * exfalso. apply Hin. now left.
      * f_equal. apply IH. intros H. apply Hin. now right.
  - apply addEntry_rejected.
  - intros l. unfold addEntry. simpl.
    destruct (is_empty (st_date st) || is_empty (st_weight st)); [reflexivity|].
    destruct (negb _ || _); [reflexivity|].
    unfold parsedCalories. simpl.
    destruct (is_empty (st_calories st)); [reflexivity|].
    destruct (negb _ || _); reflexivity.
Qed.

End AddEntryFacts.

Lemma two_days_invariant : log_invariant Examples.two_days.
Proof.
  split.
  - unfold one_entry_per_date. simpl.
    repeat (constructor; [simpl; intuition discriminate|]). constructor.
  - repeat constructor. unfold date_le, cmp_le. simpl. discriminate.
Defined.

Lemma addEntry_last_write_wins_witness :
  log_invariant (st_entries Examples.rewrite_second_day)
  /\ snd (addEntry parseDecimal Examples.rewrite_second_day) = None
  /\ log_invariant
       (st_entries (fst (addEntry parseDecimal Examples.rewrite_second_day)))
  /\ In (mkEntry "2024-01-02" 73 (Some 2400%float))
        (st_entries (fst (addEntry parseDecimal Examples.rewrite_second_day)))
  /\ (forall e,
        In e (st_entries (fst (addEntry parseDecimal Examples.rewrite_second_day))) ->
        date e = "2024-01-02"%string ->
        e = mkEntry "2024-01-02" 73 (Some 2400%float))
  /\ List.length (st_entries (fst (addEntry parseDecimal Examples.rewrite_second_day)))
     = 2.
Proof.
  pose proof (addEntry_last_write_wins parseDecimal Examples.rewrite_second_day
                two_days_invariant) as (Hinv & Hiff & Hacc & _).
  assert (Hok : snd (addEntry parseDecimal Examples.rewrite_second_day) = None).
  { apply Hiff. repeat split; vm_compute; reflexivity. }
  assert (Hne : newEntry parseDecimal Examples.rewrite_second_day
                = mkEntry "2024-01-02" 73 (Some 2400%float))
    by (vm_compute; reflexivity).
  destruct (Hacc Hok) as (Hin & Hone & _ & Hlen & _). rewrite Hne in Hin, Hone.
  split; [exact two_days_invariant|]. split; [exact Hok|].
  split; [exact Hinv|]. split; [exact Hin|]. split; [exact Hone|].
  rewrite Hlen; [reflexivity|]. simpl. right. left. reflexivity.
Defined.

(** The log of the example after the second day is written again. *)
Example addEntry_rewrite_second_day :
  st_entries (fst (addEntry parseDecimal Examples.rewrite_second_day))
  = [mkEntry "2024-01-01" 70 (Some 2200%float);
     mkEntry "2024-01-02" 73 (Some 2400%float)].
Proof. vm_compute. reflexivity. Qed.

(** ** Linear regression *)

(** With fewer than two points the regression is the neutral result. *)
Lemma linearRegression_short (x y : list float) :
  List.length x < 2 -> linearRegression x y = mkRegression 0 0 0.
Proof.
  intros H. unfold linearRegression.
  destruct (Nat.ltb_spec (List.length x) 2) as [_|H']; [reflexivity|lia].
Qed.

(** C3: with two points of equal abscissa (zero variance in x) the
    regression is not the neutral result slope 0, intercept 0, R² 0: the
    slope is 0/0, and slope, intercept and R² are all NaN. *)
Theorem linearRegression_zero_variance_is_nan :
  linearRegression [1; 1]%float [2; 3]%float
  = mkRegression PrimFloat.nan PrimFloat.nan PrimFloat.nan.
Proof. vm_compute. reflexivity. Qed.

(** ** Trend inference *)

(** Fewer than two entries: no inference. *)
Lemma calculateCaloricInference_short (entries : list WeightEntry)
    (conf : ConfidenceLevel) :
  List.length entries < 2 -> calculateCaloricInference entries conf = None.
Proof.
  destruct entries as [|a [|b l]]; simpl; intros H; [reflexivity|reflexivity|lia].
Qed.

(** C4: with exactly two points the mean squared error is divided by
    n - 2 = 0 without a guard: the interval of the slope is (NaN, NaN), not
    the degenerate interval of a standard error 0, and the predicted band of
    the trend is NaN as well. *)
Theorem calculateCaloricInference_two_points_nan :
  option_map slopeCI (calculateCaloricInference Examples.two_points C95)
  = Some (PrimFloat.nan, PrimFloat.nan)
  /\ option_map weightChangeRate (calculateCaloricInference Examples.two_points C95)
     = Some 1%float
  /\ slopeSE_of [0; 1]%float [70; 71]%float 1 = PrimFloat.nan.
Proof. vm_compute. repeat split. Qed.

(** ** Empirical estimator *)

Lemma flat_map_nil {A B : Type} (f : A -> list B) (l : list A) :
  (forall a, f a = []) -> flat_map f l = [].
Proof.
  intros H. induction l as [|a l IH]; simpl; [reflexivity|].
  now rewrite H, IH.
Qed.

Lemma flat_map_seq_shift {B : Type} (f : nat -> list B) (a n : nat) :
  flat_map f (seq (S a) n) = flat_map (fun i => f (S i)) (seq a n).
Proof.
  revert a. induction n as [|n IH]; intros a; simpl; [reflexivity|].
  now rewrite IH.
Qed.

Lemma flat_map_nth_error {A B : Type} (f : A -> list B) (l : list A) :
  flat_map (fun j => match nth_error l j with Some b => f b | None => [] end)
           (seq 0 (List.length l))
  = flat_map f l.
Proof.
  induction l as [|a l IH]; simpl; [reflexivity|].
  f_equal. rewrite flat_map_seq_shift. exact IH.
Qed.

Lemma pairs_with_pair_of (curr : WeightEntry) (c : float) (rest : list WeightEntry) :
  calories curr = Some c -> pairs_with curr c rest = flat_map (pair_of curr) rest.
Proof.
  intros Hc. induction rest as [|next rest IH]; simpl; [reflexivity|].
  unfold pair_of at 1. rewrite Hc.
  destruct (calories next) as [cn|]; simpl; [|exact IH].
  destruct (PrimFloat.leb _ 0); simpl; now rewrite IH.
Qed.

Lemma pairs_of_cons (curr : WeightEntry) (rest : list WeightEntry) :
  pairs_of (curr :: rest) = flat_map (pair_of curr) rest ++ pairs_of rest.
Proof.
  simpl. destruct (calories curr) as [c|] eqn:Hc.
  - now rewrite (pairs_with_pair_of curr c rest Hc).
  - rewrite flat_map_nil; [reflexivity|].
    intros next. unfold pair_of. now rewrite Hc.
Qed.

(** The loops of the estimator build exactly the valid pairs (i < j). *)
Lemma pairs_of_all_pairs (l : list WeightEntry) : pairs_of l = all_pairs l.
Proof.
  induction l as [|a l IH]; [reflexivity|].
  rewrite pairs_of_cons, IH. unfold all_pairs.
  cbn [List.length seq flat_map nth_error]. f_equal.
  - replace (S (List.length l) - 1) with (List.length l) by lia.
    rewrite flat_map_seq_shift. cbn [nth_error].
    symmetry. apply flat_map_nth_error.
  - rewrite flat_map_seq_shift. apply flat_map_ext. intros i.
    replace (S (List.length l) - S (S i)) with (List.length l - S i) by lia.
    rewrite (flat_map_seq_shift _ (S i)). reflexivity.
Qed.

(** *** Least squares over the real numbers *)

Module LeastSquaresFacts.

Import Stdlib.Reals.Reals Stdlib.micromega.Lra RealArith.

Local Open Scope R_scope.

Lemma fold_add_acc (f : R * R -> R) (l : list (R * R)) (a : R) :
  fold_left (fun s p => s + f p) l a = a + fold_left (fun s p => s + f p) l 0.
Proof.
  revert a. induction l as [|p l IH]; intros a; simpl; [lra|].
  rewrite IH, (IH (0 + f p)). lra.
Qed.

Lemma ols_sum_cons (f : R * R -> R) (p : R * R) (l : list (R * R)) :
  ols_sum real_arith f (p :: l) = f p + ols_sum real_arith f l.
Proof.
  unfold ols_sum. simpl. rewrite fold_add_acc. lra.
Qed.

Lemma ols_sum_nil (f : R * R -> R) : ols_sum real_arith f [] = 0.
Proof. reflexivity. Qed.

Lemma ols_sse_expand (a b : R) (l : list (R * R)) :
  ols_sse real_arith a b l
  = ols_sum real_arith (fun p => snd p * snd p) l
    - 2 * a * ols_sumXY real_arith l - 2 * b * ols_sumY real_arith l
    + a * a * ols_sumXX real_arith l + 2 * a * b * ols_sumX real_arith l
    + ols_n real_arith l * (b * b).
Proof.
  unfold ols_sse, ols_sumXY, ols_sumY, ols_sumXX, ols_sumX, ols_n.
  induction l as [|p l IH].
  - rewrite !ols_sum_nil. simpl. lra.
  - rewrite !ols_sum_cons, IH. cbn [List.length a_of_nat real_arith].
    rewrite S_INR. simpl. ring.
Qed.

Lemma ols_sse_nonneg (a b : R) (l : list (R * R)) : 0 <= ols_sse real_arith a b l.
Proof.
  unfold ols_sse. induction l as [|p l IH].
  - rewrite ols_sum_nil. lra.
  - rewrite ols_sum_cons. apply Rplus_le_le_0_compat; [|exact IH].
    cbn. apply Rle_0_sqr.
Qed.

Lemma ols_line_sq_nonneg (u v : R) (l : list (R * R)) :
  0 <= u * u * ols_sumXX real_arith l + 2 * u * v * ols_sumX real_arith l
       + ols_n real_arith l * (v * v).
Proof.
  unfold ols_sumXX, ols_sumX, ols_n. induction l as [|p l IH].
  - rewrite !ols_sum_nil. simpl. lra.
  - rewrite !ols_sum_cons. cbn [List.length a_of_nat a_mul real_arith].
    rewrite S_INR.
    pose proof (Rle_0_sqr (u * fst p + v)) as Hsq. unfold Rsqr in Hsq.
    cbn [a_of_nat a_mul real_arith] in IH.
    set (X := ols_sum real_arith (fun p0 : R * R => fst p0 * fst p0) l) in *.
    set (Y := ols_sum real_arith fst l) in *.
    set (x := fst p) in *. nra.
Qed.

Lemma ols_least_squares (l : list (R * R)) :
  ols_degenerate real_arith l = false ->
  least_squares_fit l (ols_slope real_arith l) (ols_intercept real_arith l).
Proof.
  intros Hd a b. unfold ols_intercept, ols_slope. rewrite Hd.
  unfold ols_degenerate in Hd. apply Bool.orb_false_iff in Hd as [Hn Hz].
  apply PeanoNat.Nat.ltb_ge in Hn.
  cbn [a_is_zero real_arith] in Hz.
  destruct (Req_dec_T (ols_denominator real_arith l) 0) as [|Hden]; [discriminate|].
  clear Hz.
  assert (Hn0 : ols_n real_arith l <> 0).
  { unfold ols_n. cbn [a_of_nat real_arith]. apply not_0_INR. lia. }
  rewrite !ols_sse_expand.
  unfold ols_denominator in *. cbn [a_div a_sub a_mul a_add real_arith] in *.
  set (n := ols_n real_arith l) in *.
  set (Sx := ols_sumX real_arith l) in *.
  set (Sy := ols_sumY real_arith l) in *.
  set (Sxy := ols_sumXY real_arith l) in *.
  set (Sxx := ols_sumXX real_arith l) in *.
  set (Syy := ols_sum real_arith (fun p => snd p * snd p) l).
  set (s := (n * Sxy - Sx * Sy) / (n * Sxx - Sx * Sx)).
  set (i := (Sy - s * Sx) / n).
  pose proof (ols_line_sq_nonneg (a - s) (b - i) l) as Hq.
  fold n Sx Sxx in Hq.
  match goal with
  | |- ?lhs <= ?rhs =>
      match type of Hq with
      | 0 <= ?q => assert (E : rhs = lhs + q)
      end
  end; [subst s i; field; split; assumption|lra].
Qed.

End LeastSquaresFacts.

(** *** The regression of the estimator *)

Lemma fold_left_map_fun {A B C : Type} (f : A -> B -> A) (g : C -> B)
    (l : list C) (a : A) :
  fold_left f (map g l) a = fold_left (fun s x => f s (g x)) l a.
Proof. revert a. induction l as [|x l IH]; intros a; simpl; [reflexivity|apply IH]. Qed.

Lemma reduce_from_products (pre l : list IntervalPair) (acc : float) :
  reduce_from (fun s v idx =>
                 (s + v * at_index (map weightRate (pre ++ l)) idx)%float)
              (List.length pre) (map p_calories l) acc
  = fold_left (fun s p => (s + p_calories p * weightRate p)%float) l acc.
Proof.
  revert pre acc. induction l as [|p l IH]; intros pre acc; simpl; [reflexivity|].
  replace (pre ++ p :: l) with ((pre ++ [p]) ++ l) by now rewrite <- app_assoc.
  specialize (IH (pre ++ [p])). rewrite length_app, Nat.add_1_r in IH. simpl in IH.
  rewrite <- IH. f_equal.
  unfold at_index. rewrite map_app, app_nth1, map_app, app_nth2;
    rewrite ?length_map, ?length_app; simpl; try lia.
  now rewrite Nat.sub_diag.
Qed.

Lemma emp_sums_ols (pairs : list IntervalPair) :
  emp_n pairs = ols_n float_arith (points_of pairs)
  /\ emp_sumX pairs = ols_sumX float_arith (points_of pairs)
  /\ emp_sumY pairs = ols_sumY float_arith (points_of pairs)
  /\ emp_sumXY pairs = ols_sumXY float_arith (points_of pairs)
  /\ emp_sumXX pairs = ols_sumXX float_arith (points_of pairs).
Proof.
  unfold emp_n, emp_sumX, emp_sumY, emp_sumXY, emp_sumXX, ols_n, ols_sumX,
    ols_sumY, ols_sumXY, ols_sumXX, ols_sum, points_of, JsNum.sum, reduce_i.
  rewrite length_map, !fold_left_map_fun.
  repeat split.
  exact (reduce_from_products [] pairs 0%float).
Qed.

Lemma emp_regression_ols (pairs : list IntervalPair) :
  emp_denominator pairs = ols_denominator float_arith (points_of pairs)
  /\ (2 <= List.length pairs ->
      PrimFloat.eqb (emp_denominator pairs) 0 = false ->
      emp_slope pairs = ols_slope float_arith (points_of pairs)
      /\ emp_intercept pairs = ols_intercept float_arith (points_of pairs))
  /\ (PrimFloat.eqb (emp_denominator pairs) 0 = true ->
      ols_slope float_arith (points_of pairs) = 0%float).
Proof.
  destruct (emp_sums_ols pairs) as (En & Ex & Ey & Exy & Exx).
  assert (Ed : emp_denominator pairs = ols_denominator float_arith (points_of pairs)).
  { unfold emp_denominator, ols_denominator. now rewrite En, Ex, Exx. }
  split; [exact Ed|]. split.
  - intros Hn Hz.
    assert (Hdeg : ols_degenerate float_arith (points_of pairs) = false).
    { unfold ols_degenerate, points_of. rewrite length_map.
      apply orb_false_iff. split; [apply Nat.ltb_ge; exact Hn|].
      cbn [a_is_zero float_arith]. fold (points_of pairs). now rewrite <- Ed. }
    assert (Es : emp_slope pairs = ols_slope float_arith (points_of pairs)).
    { unfold emp_slope, ols_slope. rewrite Hdeg, Ed, En, Ex, Ey, Exy. reflexivity. }
    split; [exact Es|].
    unfold emp_intercept, ols_intercept. rewrite Hdeg, Es, En, Ex, Ey. reflexivity.
  - intros Hz. unfold ols_slope, ols_degenerate. cbn [a_is_zero float_arith].
    rewrite <- Ed, Hz, orb_true_r. reflexivity.
Qed.



(** The estimate of the steady gain of the example. *)
Example calculateEmpiricalKcalPerKg_steady_gain :
  calculateEmpiricalKcalPerKg Examples.steady_gain
  = mkEmpirical (Some 6000.0000000007276%float) (Some 1249.9999999998279%float)
      (Some 1%float) 3.
Proof. vm_compute. reflexivity. Qed.

(** ** Body composition estimator *)

Ltac split_matches :=
  repeat match goal with
         | |- context [match ?x with _ => _ end] => destruct x
         end.

Lemma agree_refl (s : LoopState) : agree s s.
Proof. repeat split. Qed.

Section EstimatorFacts.

Variable entries : list WeightEntry.
Variable confidence : ConfidenceLevel.
Variable bfm : list BodyMeasurement.
Variables startBodyFat startFatMass startLeanMass : float.

(** Recalibration reads the calibration factor only to average it into the
    factor it proposes. *)
Lemma calibrate_agree (entry : WeightEntry) (s1 s2 : LoopState) :
  agree s1 s2 ->
  agree_opt (calibrate entries confidence startFatMass entry s1)
            (calibrate entries confidence startFatMass entry s2).
Proof.
  destruct s1 as [f1 l1 k1 d1 r1 c1 u1], s2 as [f2 l2 k2 d2 r2 c2 u2].
  unfold agree. simpl. intros (-> & -> & -> & -> & -> & ->).
  unfold calibrate. cbn [currentFatMass currentLeanMass lastKnownFatPercentage
    lastCalibrationDate results l_newCalibrationFactor shouldUpdateCalibration].
  split_matches; simpl; unfold agree; simpl; auto 10.
Qed.

Lemma step_agree (prevEntry : option WeightEntry) (entry : WeightEntry)
    (s1 s2 : LoopState) :
  agree s1 s2 ->
  agree_opt
    (step entries confidence bfm startBodyFat startFatMass startLeanMass
       prevEntry entry s1)
    (step entries confidence bfm startBodyFat startFatMass startLeanMass
       prevEntry entry s2).
Proof.
  intros H. unfold step.
  destruct (actualMeasurement bfm (date entry)) as [bf|].
  - destruct prevEntry as [p|].
    + apply calibrate_agree.
      destruct H as (? & ? & ? & Hd & Hr & Hu). unfold agree. simpl.
      rewrite Hd, Hr, Hu. auto 10.
    + destruct H as (? & ? & ? & Hd & Hr & Hu). unfold agree_opt, agree. simpl.
      rewrite Hd, Hr, Hu. auto 10.
  - destruct H as (Hf & Hl & Hk & Hd & Hr & Hu).
    destruct prevEntry as [p|]; [destruct (_ && _)|];
      unfold agree_opt, agree, push; simpl;
      rewrite ?Hf, ?Hl, ?Hk, ?Hd, ?Hr, ?Hu; auto 10.
Qed.

Lemma loop_agree (rest : list WeightEntry) (prevEntry : option WeightEntry)
    (s1 s2 : LoopState) :
  agree s1 s2 ->
  agree_opt
    (loop entries confidence bfm startBodyFat startFatMass startLeanMass
       prevEntry rest s1)
    (loop entries confidence bfm startBodyFat startFatMass startLeanMass
       prevEntry rest s2).
Proof.
  revert prevEntry s1 s2.
  induction rest as [|entry rest IH]; intros prevEntry s1 s2 H; simpl.
  - exact H.
  - pose proof (step_agree prevEntry entry s1 s2 H) as Hs.
    destruct (step _ _ _ _ _ _ prevEntry entry s1) as [s1'|],
             (step _ _ _ _ _ _ prevEntry entry s2) as [s2'|];
      simpl in Hs; try contradiction; [now apply IH|exact I].
Qed.

End EstimatorFacts.

Section AppFacts.

Variable parseFloat : string -> float.

(** The calibration factor a run starts from decides neither its estimates
    nor whether it proposes a factor. *)
Lemma outcome_independent_of_calibration (st : AppState) (cf : CalibrationFactor) :
  outcome (calculateBodyComposition parseFloat (set_calibrationFactor st cf))
  = outcome (calculateBodyComposition parseFloat st).
Proof.
  unfold calculateBodyComposition. simpl.
  destruct ((List.length (st_entries st) =? 0) || is_empty (st_startingBodyFat st));
    [reflexivity|].
  destruct (sort_entries (st_entries st)) as [|first rest] eqn:Hs; [reflexivity|].
  match goal with
  | |- outcome match loop ?e ?c ?b ?x ?y ?z None ?l ?s1 with _ => _ end
       = outcome match loop _ _ _ _ _ _ None _ ?s2 with _ => _ end =>
      pose proof (loop_agree e c b x y z l None s1 s2) as H
  end.
  match type of H with ?P -> _ => assert (Hp : P) by (repeat split) end.
  specialize (H Hp). clear Hp.
  match type of H with
  | agree_opt ?a ?b => destruct a as [s1|], b as [s2|]
  end; simpl in H; try contradiction; [|reflexivity].
  destruct H as (_ & _ & _ & _ & Hr & Hu). simpl. rewrite Hr, Hu.
  now destruct (shouldUpdateCalibration s2).
Qed.

(** C10: the calibration factor given to the estimator does not influence
    the series of estimates (nor whether the run throws): for every state and
    every two calibration factors the estimates are the same. *)
Theorem estimates_independent_of_calibration (st : AppState)
    (cf1 cf2 : CalibrationFactor) :
  option_map estimates
    (calculateBodyComposition parseFloat (set_calibrationFactor st cf1))
  = option_map estimates
      (calculateBodyComposition parseFloat (set_calibrationFactor st cf2)).
Proof.
  pose proof (outcome_independent_of_calibration st cf1) as H1.
  pose proof (outcome_independent_of_calibration st cf2) as H2.
  unfold outcome in H1, H2.
  destruct (calculateBodyComposition parseFloat (set_calibrationFactor st cf1)),
           (calculateBodyComposition parseFloat (set_calibrationFactor st cf2)),
           (calculateBodyComposition parseFloat st);
    simpl in *; congruence.
Qed.

(** The value of the memo depends on the five inputs of its dependency
    list only: entries, measurements, starting body fat, calibration factor
    and confidence level. *)
Lemma calculateBodyComposition_reads_five (st1 st2 : AppState) :
  same_inputs st1 st2 ->
  calculateBodyComposition parseFloat st1 = calculateBodyComposition parseFloat st2.
Proof.
  intros (He & Hm & Hb & Hc & Hz). unfold calculateBodyComposition.
  now rewrite He, Hm, Hb, Hc, Hz.
Qed.

(** X17: A run after the commit of a proposed factor proposes a factor again. *)
Lemma commit_proposes_again (st st' : AppState) (r : BodyCompositionResult)
    (cf : CalibrationFactor) :
  calculateBodyComposition parseFloat st = Some r ->
  newCalibrationFactor r = Some cf ->
  commitEffect parseFloat st = Some st' ->
  exists r' cf',
    calculateBodyComposition parseFloat st' = Some r'
    /\ newCalibrationFactor r' = Some cf'.
Proof.
  intros Hr Hcf Hc. unfold commitEffect in Hc. rewrite Hr, Hcf in Hc.
  injection Hc as <-.
  pose proof (outcome_independent_of_calibration st cf) as H.
  rewrite Hr in H. unfold outcome in H. simpl in H. rewrite Hcf in H.
  assert (E : calculateBodyComposition parseFloat
                (set_calibrationFactor
                   (if 0 <? List.length (estimates r)
                    then set_bodyCompositionHistory st (estimates r) else st) cf)
              = calculateBodyComposition parseFloat (set_calibrationFactor st cf)).
  { destruct (0 <? List.length (estimates r)); reflexivity. }
  rewrite E.
  destruct (calculateBodyComposition parseFloat (set_calibrationFactor st cf))
    as [r'|]; [|discriminate].
  simpl in H. injection H as _ H.
  destruct (newCalibrationFactor r') as [cf'|] eqn:E'; [|discriminate].
  now exists r', cf'.
Qed.

End AppFacts.

(** C1: the cycle of recomputation and commit does not reach a fixed point
    after one feedback step.  On a log with a measured gain, the first run
    proposes muscleGainFactor 0.5; after its commit the second run proposes
    0.6, and after that commit the third proposes 0.65: every run averages
    the committed factor with the derived 0.7 again. *)
Theorem calibration_commit_cascades :
  option_map muscleGainFactor (committed 1 Examples.measured_gain) = Some 0.5%float
  /\ option_map muscleGainFactor (committed 2 Examples.measured_gain) = Some 0.6%float
  /\ option_map muscleGainFactor (committed 3 Examples.measured_gain)
     = Some 0.64999999999999991%float.
Proof. vm_compute. repeat split. Qed.

(** ** Period aggregator *)

Lemma group_push_nonempty (info : GroupInfo) (entry : WeightEntry)
    (grouped : GroupMap) :
  Forall (fun kg => data (snd kg) <> []) grouped ->
  Forall (fun kg => data (snd kg) <> []) (group_push info entry grouped).
Proof.
  induction 1 as [|[k g] grouped Hg Hrest IH]; simpl.
  - constructor; [discriminate|constructor].
  - destruct (key_eqb (key info) k); constructor; simpl; auto.
    now destruct (data g).
Qed.

Lemma group_entries_nonempty (grouping : StatsGroupingOption)
    (entries : list WeightEntry) (grouped grouped' : GroupMap) :
  Forall (fun kg => data (snd kg) <> []) grouped ->
  group_entries grouping entries grouped = Some grouped' ->
  Forall (fun kg => data (snd kg) <> []) grouped'.
Proof.
  revert grouped. induction entries as [|e entries IH]; simpl; intros grouped H E.
  - now injection E as <-.
  - destruct (getGroupInfo (date e) grouping) as [info|]; [|discriminate].
    eapply IH; [|exact E]. now apply group_push_nonempty.
Qed.

(** No bucket is empty, and the buckets are in the order of their start. *)
Lemma weeklyGroups_nonempty_sorted (entries : list WeightEntry)
    (grouping : StatsGroupingOption) (groups : list WeeklyGroup) :
  weeklyGroups entries grouping = Some groups ->
  Forall (fun g => data g <> []) groups
  /\ Sorted (fun a b => (startDateMs a <= startDateMs b)%Z) groups.
Proof.
  unfold weeklyGroups.
  destruct (group_entries grouping entries []) as [grouped|] eqn:E; [|discriminate].
  intros [= <-]. split.
  - apply Forall_forall. intros g Hg. apply js_sort_In in Hg.
    apply in_map_iff in Hg as ([k g0] & <- & Hin). simpl.
    pose proof (group_entries_nonempty _ _ _ _ (Forall_nil _) E) as Hne.
    rewrite Forall_forall in Hne. specialize (Hne _ Hin). simpl in Hne.
    intros Hnil. apply Hne.
    apply length_zero_iff_nil. apply length_zero_iff_nil in Hnil.
    unfold sort_entries in Hnil. now rewrite js_sort_length in Hnil.
  - eapply Sorted_ind with (P := Sorted _);
      [constructor| |apply (js_sort_sorted by_startDateMs)].
    + intros a l _ IH Hhd. constructor; [exact IH|].
      destruct Hhd as [|b l Hab]; constructor.
      unfold cmp_le, by_startDateMs in Hab. now apply Z.compare_le_iff.
    + intros a b. unfold by_startDateMs. intros H.
      rewrite Z.compare_antisym, H. discriminate.
Qed.

(** C7: in the 2-week mode a bucket does not hold the entries of its
    [start, end] range.  The entry of Thursday 2024-01-04 lies in the pair
    of weeks from Monday 2023-12-25, but the bucket starts on day 19712
    (Thursday 2023-12-21) and ends on day 19725 (Wednesday 2024-01-03): the
    bucket counts 1 entry, and no entry of the log lies in its range. *)
Theorem two_week_bucket_outside_its_range :
  weeklyGroups Examples.one_thursday G2w
  = Some [mkGroup (LabelDays 19712 19725) Examples.one_thursday 1703116800000]
  /\ option_map (fun i => (startDate i, endDate i)) (getGroupInfo "2024-01-04" G2w)
     = Some (1703116800000, 1704240000000)%Z
  /\ option_map (map dataLength) (results_of Examples.one_thursday G2w C95)
     = Some [1]
  /\ entries_within Examples.one_thursday 1703116800000 1704240000000 = 0
  /\ JsDate.time_ms "2024-01-04" = Some 1704326400000%Z.
Proof. vm_compute. repeat split. Qed.

(** ** The richer empirical estimator *)

Lemma few_pairs_no_estimate (entries : list WeightEntry) :
  List.length (pairs_of (sort_entries entries)) < 3 ->
  empirical (calculateEmpiricalKcalPerKg entries) = None.
Proof.
  intros H. unfold calculateEmpiricalKcalPerKg.
  destruct (Nat.ltb_spec (List.length (pairs_of (sort_entries entries))) 3);
    [reflexivity|lia].
Qed.

(** C6: a log with fewer than 3 valid calorie pairs, or whose slope interval
    straddles zero, is classified insufficient by the richer estimator, with
    empiricalCI null, whatever fraction counts as a wide interval. *)
Theorem helper_insufficient (WIDE_CI_FRACTION : float)
    (entries : list WeightEntry) (conf : ConfidenceLevel) :
  let pairs := all_pairs (sort_entries entries) in
  List.length pairs < 3 \/ straddles_zero (helper_slopeCI pairs conf) = true ->
  stability (calculateEmpiricalKcalPerKgHelper WIDE_CI_FRACTION entries conf)
  = insufficient
  /\ empiricalCI (calculateEmpiricalKcalPerKgHelper WIDE_CI_FRACTION entries conf)
     = None.
Proof.
  intros pairs. subst pairs. rewrite <- pairs_of_all_pairs. intros H.
  unfold calculateEmpiricalKcalPerKgHelper.
  destruct (empirical (calculateEmpiricalKcalPerKg entries)) as [e|] eqn:E;
    [|now split].
  destruct H as [H|H].
  - rewrite (few_pairs_no_estimate entries H) in E. discriminate.
  - rewrite H. now split.
Qed.

Lemma helper_insufficient_witness :
  (stability (calculateEmpiricalKcalPerKgHelper 0.5 Examples.two_with_calories C95)
   = insufficient
   /\ empiricalCI (calculateEmpiricalKcalPerKgHelper 0.5 Examples.two_with_calories C95)
      = None)
  /\ (stability (calculateEmpiricalKcalPerKgHelper 0.5 Examples.zigzag C95)
      = insufficient
      /\ empiricalCI (calculateEmpiricalKcalPerKgHelper 0.5 Examples.zigzag C95)
         = None).
Proof.
  split.
  - apply (helper_insufficient 0.5 Examples.two_with_calories C95).
    left. vm_compute. lia.
  - apply (helper_insufficient 0.5 Examples.zigzag C95).
    right. vm_compute. reflexivity.
Defined.

(** ** Intake notice detector *)

Module IntakeNoticeFacts.

Import Stdlib.QArith.QArith.
Import IntakeNotice.
Open Scope Q_scope.

Lemma Qltb_lt (a b : Q) : Qltb a b = true <-> a < b.
Proof.
  unfold Qltb. rewrite negb_true_iff. split.
  - intros H. apply Qnot_le_lt. intros Hle.
    apply Qle_bool_iff in Hle. congruence.
  - intros H. destruct (Qle_bool b a) eqn:E; [|reflexivity].
    apply Qle_bool_iff in E. exfalso. eapply Qlt_not_le; eassumption.
Qed.

Lemma bestKcalPerKg_pos (o : Observation) :
  (forall k, stableEmpirical o = Some k -> 0 < k) -> 0 < bestKcalPerKg o.
Proof.
  intros H. unfold bestKcalPerKg.
  destruct (stableEmpirical o) as [k|]; [now apply H|reflexivity].
Qed.

(** A deficit predicts a loss. *)
Lemma expectedRate_deficit (o : Observation) (intake : Q) :
  0 < bestKcalPerKg o -> intake < obs_maintenance o ->
  expectedRate o intake < 0.
Proof.
  intros Hk Hd. unfold expectedRate.
  apply Qlt_shift_div_r; [exact Hk|].
  rewrite Qmult_0_l. unfold Qminus.
  apply (Qplus_lt_l _ _ (obs_maintenance o)).
  rewrite <- Qplus_assoc, (Qplus_comm (- obs_maintenance o)), Qplus_opp_r.
  now rewrite Qplus_0_r, Qplus_0_l.
Qed.

Section DetectorFacts.

Variable outsideNoiseBand : Observation -> bool.

(** C5: with at least 14 days of data and an observed trend outside the
    noise band, an average logged intake below the inferred maintenance
    together with a positive observed slope gives the notice
    gain_despite_deficit with a positive suggested adjustment (the kcal/kg
    of the estimator being a positive magnitude). *)
Theorem gain_despite_deficit_notice (o : Observation) (intake : Q) :
  (MIN_DAYS_FOR_INFERENCE <= obs_daysOfData o)%nat ->
  outsideNoiseBand o = true ->
  avgIntake o = Some intake ->
  intake < obs_maintenance o ->
  0 < observedSlope o ->
  (forall k, stableEmpirical o = Some k -> 0 < k) ->
  exists n,
    computeIntakeNotice outsideNoiseBand o = Some n
    /\ direction n = gain_despite_deficit
    /\ 0 < suggestedAdjustment n.
Proof.
  intros Hdays Hout Hint Hdef Hgain Hk.
  unfold computeIntakeNotice.
  destruct (Nat.ltb_spec (obs_daysOfData o) MIN_DAYS_FOR_INFERENCE) as [Hlt|_];
    [lia|].
  rewrite Hint, Hout. simpl negb. cbv iota.
  rewrite (proj2 (Qltb_lt _ _) Hdef), (proj2 (Qltb_lt _ _) Hgain).
  eexists. split; [reflexivity|]. split; [reflexivity|]. simpl.
  pose proof (bestKcalPerKg_pos o Hk) as Hpos.
  apply Qmult_lt_0_compat; [|exact Hpos].
  pose proof (expectedRate_deficit o intake Hpos Hdef) as He.
  unfold Qminus. apply (Qlt_trans _ (observedSlope o)); [exact Hgain|].
  rewrite <- (Qplus_0_r (observedSlope o)) at 1.
  apply Qplus_lt_r. apply (Qplus_lt_l _ _ (expectedRate o intake)).
  rewrite Qplus_0_l, (Qplus_comm (- _)), Qplus_opp_r. exact He.
Qed.

End DetectorFacts.

Lemma gain_despite_deficit_notice_witness :
  exists n,
    computeIntakeNotice (fun _ => true) gaining_on_deficit = Some n
    /\ direction n = gain_despite_deficit
    /\ 0 < suggestedAdjustment n.
Proof.
  apply (gain_despite_deficit_notice (fun _ => true) gaining_on_deficit 2000).
  - unfold MIN_DAYS_FOR_INFERENCE, gaining_on_deficit. simpl. lia.
  - reflexivity.
  - reflexivity.
  - reflexivity.
  - reflexivity.
  - intros k H. discriminate H.
Defined.

(** The notice of the example: 0.02 kg/day observed at a deficit of 500,
    654 kcal/day. *)
Example computeIntakeNotice_gaining_on_deficit :
  computeIntakeNotice (fun _ => true) gaining_on_deficit
  = Some (mkNotice gain_despite_deficit
            (((1 # 50) - (2000 - 2500) / 7700) * 7700)).
Proof. reflexivity. Qed.

End IntakeNoticeFacts.

(** * Further properties of the component *)

(** ** The order of JavaScript numbers *)

Module FloatOrder.

Lemma SFcompare_antisym (f1 f2 : spec_float) :
  SFcompare f2 f1 = option_map CompOpp (SFcompare f1 f2).
Proof.
  destruct f1 as [s1|s1| |s1 m1 e1], f2 as [s2|s2| |s2 m2 e2]; simpl;
    try reflexivity;
    try (destruct s1; reflexivity); try (destruct s2; reflexivity);
    try (destruct s1, s2; reflexivity).
  destruct s1, s2; simpl; try reflexivity;
    rewrite (Z.compare_antisym e1 e2);
    destruct (Z.compare e1 e2); simpl; try reflexivity;
    rewrite (Pos.compare_cont_antisym m1 m2 Eq); simpl;
    now destruct (Pos.compare_cont Eq m1 m2).
Qed.

Lemma SFcompare_refl (f : spec_float) :
  f <> S754_nan -> SFcompare f f = Some Eq.
Proof.
  destruct f as [s|s| |s m e]; simpl; intros H; try reflexivity;
    try (now destruct s); [congruence|].
  destruct s; rewrite Z.compare_refl, Pos.compare_cont_refl; reflexivity.
Qed.

Lemma is_nan_spec (x : float) :
  PrimFloat.is_nan x = false <-> Prim2SF x <> S754_nan.
Proof.
  unfold PrimFloat.is_nan. rewrite eqb_spec. unfold SFeqb. split.
  - intros H E. rewrite E in H. discriminate.
  - intros H. now rewrite (SFcompare_refl _ H).
Qed.

Lemma compare_defined (x y : float) :
  PrimFloat.is_nan x = false -> PrimFloat.is_nan y = false ->
  exists c, SFcompare (Prim2SF x) (Prim2SF y) = Some c.
Proof.
  intros Hx Hy. apply is_nan_spec in Hx, Hy.
  destruct (Prim2SF x) as [s1|s1| |s1 m1 e1], (Prim2SF y) as [s2|s2| |s2 m2 e2];
    simpl; try congruence; eauto.
Qed.

(** Of two numbers that are not NaN, one is at most the other. *)
Lemma not_ltb_leb (x y : float) :
  PrimFloat.is_nan x = false -> PrimFloat.is_nan y = false ->
  PrimFloat.ltb x y = false -> PrimFloat.leb y x = true.
Proof.
  intros Hx Hy. rewrite ltb_spec, leb_spec. unfold SFltb, SFleb.
  rewrite (SFcompare_antisym (Prim2SF x) (Prim2SF y)).
  destruct (compare_defined x y Hx Hy) as [c ->]. now destruct c.
Qed.

Lemma not_leb_ltb (x y : float) :
  PrimFloat.is_nan x = false -> PrimFloat.is_nan y = false ->
  PrimFloat.leb x y = false -> PrimFloat.ltb y x = true.
Proof.
  intros Hx Hy. rewrite ltb_spec, leb_spec. unfold SFltb, SFleb.
  rewrite (SFcompare_antisym (Prim2SF x) (Prim2SF y)).
  destruct (compare_defined x y Hx Hy) as [c ->]. now destruct c.
Qed.

Lemma ltb_leb (x y : float) :
  PrimFloat.ltb x y = true -> PrimFloat.leb x y = true.
Proof.
  rewrite ltb_spec, leb_spec. unfold SFltb, SFleb.
  now destruct (SFcompare (Prim2SF x) (Prim2SF y)) as [[]|].
Qed.

Lemma leb_refl (x : float) :
  PrimFloat.is_nan x = false -> PrimFloat.leb x x = true.
Proof.
  intros H. apply is_nan_spec in H. rewrite leb_spec. unfold SFleb.
  now rewrite (SFcompare_refl _ H).
Qed.

Lemma ltb_not_nan (x y : float) :
  PrimFloat.ltb x y = true ->
  PrimFloat.is_nan x = false /\ PrimFloat.is_nan y = false.
Proof.
  rewrite ltb_spec, !is_nan_spec. unfold SFltb.
  destruct (Prim2SF x), (Prim2SF y); simpl; try discriminate; split; congruence.
Qed.

Lemma finite_not_nan (x : float) :
  JsNum.isFinite x = true -> PrimFloat.is_nan x = false.
Proof.
  unfold JsNum.isFinite, PrimFloat.is_finite.
  now destruct (PrimFloat.is_nan x).
Qed.

(** [Math.max] and [Math.min] return one of their arguments or NaN, and
    bound both arguments when they are not NaN. *)
Lemma max_bounds (a b : float) :
  PrimFloat.is_nan a = false -> PrimFloat.is_nan b = false ->
  (JsNum.max a b = a \/ JsNum.max a b = b)
  /\ PrimFloat.leb a (JsNum.max a b) = true
  /\ PrimFloat.leb b (JsNum.max a b) = true.
Proof.
  intros Ha Hb. unfold JsNum.max. rewrite Ha, Hb. simpl.
  destruct (PrimFloat.ltb a b) eqn:E1.
  - split; [now right|]. split; [now apply ltb_leb|now apply leb_refl].
  - destruct (PrimFloat.ltb b a) eqn:E2.
    + split; [now left|]. split; [now apply leb_refl|now apply ltb_leb].
    + destruct (JsNum.is_neg_zero a).
      * split; [now right|]. split; [now apply not_ltb_leb|now apply leb_refl].
      * split; [now left|]. split; [now apply leb_refl|now apply not_ltb_leb].
Qed.

Lemma min_bounds (a b : float) :
  PrimFloat.is_nan a = false -> PrimFloat.is_nan b = false ->
  (JsNum.min a b = a \/ JsNum.min a b = b)
  /\ PrimFloat.leb (JsNum.min a b) a = true
  /\ PrimFloat.leb (JsNum.min a b) b = true.
Proof.
  intros Ha Hb. unfold JsNum.min. rewrite Ha, Hb. simpl.
  destruct (PrimFloat.ltb a b) eqn:E1.
  - split; [now left|]. split; [now apply leb_refl|now apply ltb_leb].
  - destruct (PrimFloat.ltb b a) eqn:E2.
    + split; [now right|]. split; [now apply ltb_leb|now apply leb_refl].
    + destruct (JsNum.is_neg_zero a).
      * split; [now left|]. split; [now apply leb_refl|now apply not_ltb_leb].
      * split; [now right|]. split; [now apply not_ltb_leb|now apply leb_refl].
Qed.

Lemma max_nan (a b : float) :
  PrimFloat.is_nan (JsNum.max a b) = true <->
  PrimFloat.is_nan a = true \/ PrimFloat.is_nan b = true.
Proof.
  destruct (PrimFloat.is_nan a) eqn:Ha, (PrimFloat.is_nan b) eqn:Hb;
    try (unfold JsNum.max; rewrite Ha, Hb; simpl; split; auto; fail).
  destruct (max_bounds a b Ha Hb) as [[E|E] _]; rewrite E; split;
    intros; intuition congruence.
Qed.

Lemma min_nan (a b : float) :
  PrimFloat.is_nan (JsNum.min a b) = true <->
  PrimFloat.is_nan a = true \/ PrimFloat.is_nan b = true.
Proof.
  destruct (PrimFloat.is_nan a) eqn:Ha, (PrimFloat.is_nan b) eqn:Hb;
    try (unfold JsNum.min; rewrite Ha, Hb; simpl; split; auto; fail).
  destruct (min_bounds a b Ha Hb) as [[E|E] _]; rewrite E; split;
    intros; intuition congruence.
Qed.

End FloatOrder.

(** ** The log: order and removal *)

Lemma localeCompare_trans (a b c : string) :
  localeCompare a b <> Gt -> localeCompare b c <> Gt -> localeCompare a c <> Gt.
Proof.
  unfold localeCompare. intros Hab Hbc.
  destruct (String.compare a b) eqn:E1; [| |congruence].
  - apply String.compare_eq_iff in E1. now subst.
  - destruct (String.compare b c) eqn:E2; [| |congruence].
    + apply String.compare_eq_iff in E2. subst. congruence.
    + apply OrderedTypeEx.String_as_OT.cmp_lt in E1, E2.
      pose proof (OrderedTypeEx.String_as_OT.lt_trans _ _ _ E1 E2) as H.
      apply OrderedTypeEx.String_as_OT.cmp_lt in H.
      unfold OrderedTypeEx.String_as_OT.cmp in H. congruence.
Qed.

Lemma date_le_trans (a b c : WeightEntry) :
  date_le a b -> date_le b c -> date_le a c.
Proof. apply localeCompare_trans. Qed.

Lemma date_le_antisym (a b : WeightEntry) :
  date_le a b -> date_le b a -> date a = date b.
Proof.
  unfold date_le, cmp_le, by_date, localeCompare. intros H1 H2.
  rewrite String.compare_antisym in H2.
  destruct (String.compare (date a) (date b)) eqn:E; simpl in *; try congruence.
  now apply String.compare_eq_iff.
Qed.

Lemma Sorted_date_strong (l : list WeightEntry) :
  Sorted date_le l -> StronglySorted date_le l.
Proof.
  apply Sorted_StronglySorted. intros a b c. apply date_le_trans.
Qed.

Lemma remove_at_app {A : Type} (l1 : list A) (x : A) (l2 : list A) :
  remove_at (List.length l1) (l1 ++ x :: l2) = l1 ++ l2.
Proof. induction l1 as [|a l1 IH]; simpl; [reflexivity|now rewrite IH]. Qed.

Lemma remove_at_beyond {A : Type} (i : nat) (l : list A) :
  List.length l <= i -> remove_at i l = l.
Proof.
  revert i. induction l as [|a l IH]; intros i H; [now destruct i|].
  destruct i as [|i]; simpl in *; [lia|]. f_equal. apply IH. lia.
Qed.

Lemma split_at {A : Type} (i : nat) (l : list A) :
  i < List.length l ->
  exists l1 x l2, l = l1 ++ x :: l2 /\ List.length l1 = i.
Proof.
  revert i. induction l as [|a l IH]; intros i H; simpl in H; [lia|].
  destruct i as [|i].
  - now exists [], a, l.
  - destruct (IH i) as (l1 & x & l2 & -> & Hl); [lia|].
    exists (a :: l1), x, l2. simpl. now rewrite Hl.
Qed.

Lemma StronglySorted_app_remove {A : Type} (R : A -> A -> Prop)
    (l1 : list A) (x : A) (l2 : list A) :
  StronglySorted R (l1 ++ x :: l2) -> StronglySorted R (l1 ++ l2).
Proof.
  induction l1 as [|a l1 IH]; simpl; intros H.
  - now inversion H.
  - inversion H as [|? ? Hs Hall]; subst. constructor; [now apply IH|].
    rewrite Forall_app in *. destruct Hall as [H1 H2]. split; [exact H1|].
    now inversion H2.
Qed.

(** X1: [removeEntry] takes out the row at [index] and nothing else; an index
    past the end changes nothing; the log invariant is kept. *)
Theorem removeEntry_spec (index : nat) (st : AppState) :
  log_invariant (st_entries st) ->
  log_invariant (st_entries (removeEntry index st))
  /\ (index < List.length (st_entries st) ->
      exists l1 x l2,
        st_entries st = l1 ++ x :: l2 /\ List.length l1 = index
        /\ st_entries (removeEntry index st) = l1 ++ l2)
  /\ (List.length (st_entries st) <= index -> removeEntry index st = st).
Proof.
  intros [Hnd Hs]. unfold removeEntry.
  destruct (Nat.lt_ge_cases index (List.length (st_entries st))) as [Hi|Hi].
  - destruct (split_at index _ Hi) as (l1 & x & l2 & E & Hl).
    assert (Er : remove_at index (st_entries st) = l1 ++ l2)
      by (rewrite E, <- Hl; apply remove_at_app).
    split; [|split; [|lia]].
    + simpl. rewrite Er. split.
      * unfold one_entry_per_date in *. rewrite E in Hnd.
        rewrite map_app in *. simpl in Hnd. now apply NoDup_remove_1 in Hnd.
      * apply StronglySorted_Sorted. apply Sorted_date_strong in Hs.
        rewrite E in Hs. now apply StronglySorted_app_remove in Hs.
    + intros _. exists l1, x, l2. simpl. auto.
  - rewrite (remove_at_beyond _ _ Hi). split; [|split; [lia|]].
    + now split.
    + intros _. now destruct st.
Qed.

Lemma removeEntry_spec_witness :
  log_invariant (st_entries Examples.rewrite_second_day)
  /\ st_entries (removeEntry 0 Examples.rewrite_second_day)
     = [mkEntry "2024-01-02" 72 (Some 2300%float)]
  /\ removeEntry 2 Examples.rewrite_second_day = Examples.rewrite_second_day.
Proof.
  pose proof (removeEntry_spec 0 Examples.rewrite_second_day two_days_invariant)
    as (_ & H0 & _).
  pose proof (removeEntry_spec 2 Examples.rewrite_second_day two_days_invariant)
    as (_ & _ & H2).
  split; [exact two_days_invariant|]. split.
  - reflexivity.
  - apply H2. simpl. lia.
Defined.

(** ** The log: what [addEntry] lets in *)

Lemma validated_positive (e : WeightEntry) :
  validated e = true ->
  JsNum.isFinite (weight e) = true /\ PrimFloat.ltb 0 (weight e) = true
  /\ (forall c, calories e = Some c ->
        JsNum.isFinite c = true /\ PrimFloat.ltb 0 c = true).
Proof.
  unfold validated. rewrite !andb_true_iff, negb_true_iff.
  intros [[Hf Hw] Hc]. split; [exact Hf|]. split.
  - apply FloatOrder.not_leb_ltb; [now apply FloatOrder.finite_not_nan|reflexivity|exact Hw].
  - intros c E. rewrite E in Hc. apply andb_true_iff in Hc as [Hcf Hcp].
    split; [exact Hcf|]. apply negb_true_iff in Hcp.
    apply FloatOrder.not_leb_ltb;
      [now apply FloatOrder.finite_not_nan|reflexivity|exact Hcp].
Qed.

Section AddEntryMore.

Variable parseFloat : string -> float.

Lemma addEntry_accepted_validated (st : AppState) :
  snd (addEntry parseFloat st) = None -> validated (newEntry parseFloat st) = true.
Proof.
  unfold addEntry, validated, newEntry. simpl.
  destruct (is_empty (st_date st) || is_empty (st_weight st)); [discriminate|].
  destruct (JsNum.isFinite (parseFloat (st_weight st))); simpl; [|discriminate].
  destruct (PrimFloat.leb (parseFloat (st_weight st)) 0); simpl; [discriminate|].
  destruct (parsedCalories parseFloat st) as [c|]; [|reflexivity].
  destruct (JsNum.isFinite c); simpl; [|discriminate].
  now destruct (PrimFloat.leb c 0).
Qed.

(** X2: Every weight [addEntry] stores is finite and positive, and so are the
    calories it stores: a log of such entries stays one, whatever the form
    holds. *)
Theorem addEntry_keeps_entries_positive (st : AppState) :
  Forall (fun e => validated e = true) (st_entries st) ->
  forall e, In e (st_entries (fst (addEntry parseFloat st))) ->
    JsNum.isFinite (weight e) = true /\ PrimFloat.ltb 0 (weight e) = true
    /\ (forall c, calories e = Some c ->
          JsNum.isFinite c = true /\ PrimFloat.ltb 0 c = true).
Proof.
  intros Hall e He. apply validated_positive.
  rewrite Forall_forall in Hall.
  destruct (snd (addEntry parseFloat st)) eqn:E.
  - rewrite addEntry_rejected in He by congruence. now apply Hall.
  - rewrite addEntry_accepted in He by exact E.
    unfold sort_entries in He. apply js_sort_In, in_app_iff in He.
    destruct He as [He|[<-|[]]].
    + apply filter_In in He as [He _]. now apply Hall.
    + now apply addEntry_accepted_validated.
Qed.

(** X3: An accepted [addEntry] clears the form, so the next [addEntry] without
    new input is refused with the alert and changes nothing: a double click
    cannot add twice. *)
Theorem addEntry_twice (st : AppState) :
  snd (addEntry parseFloat st) = None ->
  addEntry parseFloat (fst (addEntry parseFloat st))
  = (fst (addEntry parseFloat st), Some "Please enter a date and weight"%string).
Proof.
  unfold addEntry.
  destruct (is_empty (st_date st) || is_empty (st_weight st)); [discriminate|].
  destruct (negb _ || _); [discriminate|].
  destruct (match parsedCalories parseFloat st with Some _ => _ | None => _ end);
    [discriminate|].
  reflexivity.
Qed.

End AddEntryMore.

Lemma addEntry_keeps_entries_positive_witness :
  Forall (fun e => validated e = true) (st_entries Examples.rewrite_second_day)
  /\ forall e,
       In e (st_entries (fst (addEntry parseDecimal Examples.rewrite_second_day))) ->
       PrimFloat.ltb 0 (weight e) = true.
Proof.
  assert (H : Forall (fun e => validated e = true)
                (st_entries Examples.rewrite_second_day))
    by (repeat constructor).
  split; [exact H|]. intros e He.
  exact (proj1 (proj2 (addEntry_keeps_entries_positive parseDecimal _ H e He))).
Defined.

Lemma addEntry_twice_witness :
  snd (addEntry parseDecimal Examples.rewrite_second_day) = None
  /\ snd (addEntry parseDecimal (fst (addEntry parseDecimal Examples.rewrite_second_day)))
     = Some "Please enter a date and weight"%string.
Proof.
  assert (H : snd (addEntry parseDecimal Examples.rewrite_second_day) = None)
    by (vm_compute; reflexivity).
  split; [exact H|].
  now rewrite (addEntry_twice parseDecimal Examples.rewrite_second_day H).
Defined.

(** ** The log: storage order *)

Lemma insert_sorted_head (x : WeightEntry) (l : list WeightEntry) :
  HdRel date_le x l -> insert_sorted by_date x l = x :: l.
Proof.
  intros H. destruct l as [|y l]; [reflexivity|]. simpl.
  inversion H as [|? ? Hxy]; subst. unfold date_le, cmp_le in Hxy.
  now destruct (by_date x y).
Qed.

(** Sorting a log that is in date order returns it as it is: on a log kept
    by [addEntry] the estimators read the entries in the stored order. *)
Lemma sort_entries_sorted_id (l : list WeightEntry) :
  Sorted date_le l -> sort_entries l = l.
Proof.
  induction 1 as [|x l Hs IH Hhd]; [reflexivity|].
  unfold sort_entries in *. simpl. rewrite IH. now apply insert_sorted_head.
Qed.

Lemma same_date_same_entry (l : list WeightEntry) (a b : WeightEntry) :
  NoDup (map date l) -> In a l -> In b l -> date a = date b -> a = b.
Proof.
  induction l as [|x l IH]; simpl; intros Hnd Ha Hb E; [contradiction|].
  inversion Hnd as [|? ? Hn Hd]; subst.
  destruct Ha as [<-|Ha], Hb as [<-|Hb]; auto.
  - exfalso. apply Hn. rewrite E. now apply in_map.
  - exfalso. apply Hn. rewrite <- E. now apply in_map.
Qed.

Lemma sorted_permutation_unique (l1 l2 : list WeightEntry) :
  StronglySorted date_le l1 -> StronglySorted date_le l2 ->
  NoDup (map date l1) -> Permutation l1 l2 -> l1 = l2.
Proof.
  revert l2. induction l1 as [|a l1 IH]; intros l2 H1 H2 Hnd Hp.
  - now apply Permutation_nil in Hp.
  - destruct l2 as [|b l2]; [now apply Permutation_sym, Permutation_nil in Hp|].
    inversion H1 as [|? ? Hs1 Ha]; inversion H2 as [|? ? Hs2 Hb]; subst.
    assert (E : a = b).
    { assert (Hb_in : In b (a :: l1))
        by (eapply Permutation_in; [symmetry; exact Hp|now left]).
      assert (Ha_in : In a (b :: l2))
        by (eapply Permutation_in; [exact Hp|now left]).
      destruct Hb_in as [E|Hb_in]; [exact E|].
      destruct Ha_in as [E|Ha_in]; [now symmetry|].
      rewrite Forall_forall in Ha, Hb.
      apply (same_date_same_entry (a :: l1)); [exact Hnd|now left|now right|].
      apply date_le_antisym; auto. }
    subst b. f_equal. apply IH; auto.
    + now inversion Hnd.
    + now apply Permutation_cons_inv in Hp.
Qed.

(** With at most one entry per date, the sorted log does not depend on the
    order in which the entries are stored. *)
Lemma sort_entries_permutation (l1 l2 : list WeightEntry) :
  NoDup (map date l1) -> Permutation l1 l2 -> sort_entries l1 = sort_entries l2.
Proof.
  intros Hnd Hp. apply sorted_permutation_unique.
  - apply Sorted_date_strong, sort_entries_sorted.
  - apply Sorted_date_strong, sort_entries_sorted.
  - eapply Permutation_NoDup; [apply Permutation_map, sort_entries_perm|exact Hnd].
  - etransitivity; [symmetry; apply sort_entries_perm|].
    etransitivity; [exact Hp|apply sort_entries_perm].
Qed.

(** X4: The empirical estimate does not depend on the order in which the
    entries are stored, when no two entries share a date. *)
Theorem calculateEmpiricalKcalPerKg_storage_order (l1 l2 : list WeightEntry) :
  NoDup (map date l1) -> Permutation l1 l2 ->
  calculateEmpiricalKcalPerKg l1 = calculateEmpiricalKcalPerKg l2.
Proof.
  intros Hnd Hp. unfold calculateEmpiricalKcalPerKg.
  now rewrite (sort_entries_permutation l1 l2 Hnd Hp).
Qed.

Lemma calculateEmpiricalKcalPerKg_storage_order_witness :
  NoDup (map date Examples.steady_gain)
  /\ calculateEmpiricalKcalPerKg Examples.steady_gain
     = calculateEmpiricalKcalPerKg (rev Examples.steady_gain).
Proof.
  assert (H : NoDup (map date Examples.steady_gain)).
  { simpl. repeat (constructor; [simpl; intuition discriminate|]). constructor. }
  split; [exact H|].
  apply (calculateEmpiricalKcalPerKg_storage_order _ _ H), Permutation_rev.
Defined.

(** ** Body composition: the shape of a run *)

Lemma find_date_some (d : string) (l : list WeightEntry) :
  In d (map date l) ->
  exists e, find (fun e => String.eqb (date e) d) l = Some e.
Proof.
  induction l as [|x l IH]; simpl; [contradiction|]. intros [E|H].
  - exists x. now rewrite E, String.eqb_refl.
  - destruct (String.eqb (date x) d); [now exists x|now apply IH].
Qed.

Section RunFacts.

Variable entries : list WeightEntry.
Variable confidence : ConfidenceLevel.
Variable bfm : list BodyMeasurement.
Variables startBodyFat startFatMass startLeanMass : float.

(** What recalibration leaves alone. *)
Lemma calibrate_inv (entry : WeightEntry) (s s' : LoopState) :
  calibrate entries confidence startFatMass entry s = Some s' ->
  results s' = results s
  /\ currentFatMass s' = currentFatMass s
  /\ currentLeanMass s' = currentLeanMass s
  /\ lastKnownFatPercentage s' = lastKnownFatPercentage s
  /\ lastCalibrationDate s' = date entry.
Proof.
  unfold calibrate.
  repeat match goal with
         | |- context [match ?x with _ => _ end] => destruct x
         end;
    intros [= <-]; simpl; auto 10.
Qed.

(** The non-null assertion of recalibration holds when the date of the last
    calibration is a date of the log. *)
Lemma calibrate_total (entry : WeightEntry) (s : LoopState) :
  In (lastCalibrationDate s) (map date (sort_entries entries)) ->
  calibrate entries confidence startFatMass entry s <> None.
Proof.
  intros Hin. destruct (find_date_some _ _ Hin) as [anchor Ha].
  unfold calibrate. rewrite Ha.
  repeat match goal with
         | |- context [match ?x with _ => _ end] => destruct x
         end; discriminate.
Qed.

Lemma step_inv (prevEntry : option WeightEntry) (entry : WeightEntry)
    (s s' : LoopState) :
  step entries confidence bfm startBodyFat startFatMass startLeanMass
    prevEntry entry s = Some s' ->
  (exists est, results s' = results s ++ [est] /\ pushed bfm prevEntry entry est)
  /\ (lastCalibrationDate s' = lastCalibrationDate s
      \/ lastCalibrationDate s' = date entry).
Proof.
  unfold step, pushed.
  destruct (actualMeasurement bfm (date entry)) as [bf|] eqn:Em.
  - assert (Hp : forall est,
               est = mkEstimate (date entry) (weight entry) bf
                       (weight entry * (bf / 100))%float
                       (weight entry - weight entry * (bf / 100))%float
                       ((bf - 1)%float, (bf + 1)%float) false ->
               bc_date est = date entry /\ bc_weight est = weight entry
               /\ (forall bf0, Some bf = Some bf0 ->
                     bodyFatPercentage est = bf0
                     /\ fatMass est = (weight entry * (bf0 / 100))%float
                     /\ leanMass est
                        = (weight entry - weight entry * (bf0 / 100))%float
                     /\ bodyFatPercentageCI est = ((bf0 - 1)%float, (bf0 + 1)%float)
                     /\ isEstimated est = false)
               /\ (Some bf = None ->
                   isEstimated est
                   = match prevEntry with Some _ => true | None => false end)).
    { intros est ->. simpl. split; [reflexivity|]. split; [reflexivity|].
      split; [|discriminate]. intros bf0 [= <-]. auto. }
    destruct prevEntry as [p|].
    + intros H. apply calibrate_inv in H as (Hr & _ & _ & _ & Hd).
      simpl in Hr. split; [|now right].
      eexists. split; [exact Hr|]. now apply Hp.
    + intros [= <-]. simpl. split; [|now left].
      eexists. split; [reflexivity|]. now apply Hp.
  - destruct prevEntry as [p|]; [destruct (_ && _)|];
      intros [= <-]; simpl; (split; [|now left]);
      eexists; (split; [reflexivity|]); simpl;
      (split; [reflexivity|]); (split; [reflexivity|]);
      (split; [discriminate|reflexivity]).
Qed.

Lemma step_total (prevEntry : option WeightEntry) (entry : WeightEntry)
    (s : LoopState) :
  In (lastCalibrationDate s) (map date (sort_entries entries)) ->
  step entries confidence bfm startBodyFat startFatMass startLeanMass
    prevEntry entry s <> None.
Proof.
  intros Hin. unfold step.
  destruct (actualMeasurement bfm (date entry)) as [bf|].
  - destruct prevEntry as [p|]; [|discriminate]. now apply calibrate_total.
  - destruct prevEntry as [p|]; [destruct (_ && _)|]; discriminate.
Qed.

(** The loop never throws, and pushes one estimate per entry, in order. *)
Lemma loop_inv (rest : list WeightEntry) (prevEntry : option WeightEntry)
    (s : LoopState) :
  incl rest (sort_entries entries) ->
  In (lastCalibrationDate s) (map date (sort_entries entries)) ->
  exists s' ests,
    loop entries confidence bfm startBodyFat startFatMass startLeanMass
      prevEntry rest s = Some s'
    /\ results s' = results s ++ ests
    /\ pushed_all bfm prevEntry rest ests.
Proof.
  revert prevEntry s. induction rest as [|entry rest IH]; intros prevEntry s Hincl Hin.
  - exists s, []. simpl. rewrite app_nil_r. auto.
  - simpl.
    destruct (step entries confidence bfm startBodyFat startFatMass startLeanMass
                prevEntry entry s) as [s1|] eqn:Es;
      [|now apply step_total in Es].
    destruct (step_inv _ _ _ _ Es) as ((est & Hr & Hp) & Hd).
    destruct (IH (Some entry) s1) as (s' & ests & Hl & Hr' & Hf).
    + intros x Hx. apply Hincl. now right.
    + destruct Hd as [->| ->]; [exact Hin|].
      apply in_map, Hincl. now left.
    + exists s', (est :: ests). split; [exact Hl|]. split.
      * rewrite Hr', Hr, <- app_assoc. reflexivity.
      * simpl. now split.
Qed.

(** Without a measured entry after [prevEntry] the loop proposes nothing
    new. *)
Lemma loop_unmeasured (rest : list WeightEntry) (p : WeightEntry)
    (s s' : LoopState) :
  (forall e, In e rest -> actualMeasurement bfm (date e) = None) ->
  loop entries confidence bfm startBodyFat startFatMass startLeanMass
    (Some p) rest s = Some s' ->
  shouldUpdateCalibration s' = shouldUpdateCalibration s
  /\ l_newCalibrationFactor s' = l_newCalibrationFactor s.
Proof.
  revert p s. induction rest as [|entry rest IH]; intros p s Hun; simpl.
  - now intros [= <-].
  - unfold step at 1. rewrite (Hun entry) by now left.
    destruct (_ && _); simpl; intros H; apply IH in H; auto;
      intros e He; apply Hun; now right.
Qed.

End RunFacts.

Lemma pushed_all_dates (bfm : list BodyMeasurement) (rest : list WeightEntry)
    (prevEntry : option WeightEntry) (ests : list BodyCompositionEstimate) :
  pushed_all bfm prevEntry rest ests ->
  map (fun est => (bc_date est, bc_weight est)) ests
  = map (fun e => (date e, weight e)) rest.
Proof.
  revert prevEntry ests. induction rest as [|e rest IH]; intros p [|est ests];
    simpl; try contradiction; [reflexivity|].
  intros [(Hd & Hw & _) H]. rewrite Hd, Hw. f_equal. now apply (IH (Some e)).
Qed.

Lemma pushed_all_measured (bfm : list BodyMeasurement) (rest : list WeightEntry)
    (prevEntry : option WeightEntry) (ests : list BodyCompositionEstimate) :
  pushed_all bfm prevEntry rest ests ->
  forall est bf, In est ests ->
    actualMeasurement bfm (bc_date est) = Some bf ->
    bodyFatPercentage est = bf
    /\ fatMass est = (bc_weight est * (bf / 100))%float
    /\ leanMass est = (bc_weight est - bc_weight est * (bf / 100))%float
    /\ bodyFatPercentageCI est = ((bf - 1)%float, (bf + 1)%float)
    /\ isEstimated est = false.
Proof.
  revert prevEntry ests. induction rest as [|e rest IH]; intros p [|est0 ests];
    simpl; try contradiction.
  intros [(Hd & Hw & Hm & _) H] est bf [<-|Hin] Ha.
  - rewrite Hd in Ha. rewrite Hw. now apply Hm.
  - now apply (IH (Some e) ests H).
Qed.

Lemma pushed_all_later (bfm : list BodyMeasurement) (rest : list WeightEntry)
    (p : WeightEntry) (ests : list BodyCompositionEstimate) :
  pushed_all bfm (Some p) rest ests ->
  forall est, In est ests ->
    (isEstimated est = true <-> actualMeasurement bfm (bc_date est) = None).
Proof.
  revert p ests. induction rest as [|e rest IH]; intros p [|est0 ests];
    simpl; try contradiction.
  intros [(Hd & _ & Hm & Hu) H] est [<-|Hin].
  - rewrite Hd. destruct (actualMeasurement bfm (date e)) as [bf|].
    + destruct (Hm bf eq_refl) as (_ & _ & _ & _ & ->). split; discriminate.
    + rewrite (Hu eq_refl). now split.
  - now apply (IH e ests H).
Qed.

Section RunTheorems.

Variable parseFloat : string -> float.

(** X10: A run on a log with a starting body fat never throws; it returns one
    estimate per entry, in date order, with the date and the weight of the
    entry. *)
Theorem calculateBodyComposition_series (st : AppState) :
  st_entries st <> [] -> is_empty (st_startingBodyFat st) = false ->
  exists r,
    calculateBodyComposition parseFloat st = Some r
    /\ map (fun est => (bc_date est, bc_weight est)) (estimates r)
       = map (fun e => (date e, weight e)) (sort_entries (st_entries st)).
Proof.
  intros Hne Hsbf. unfold calculateBodyComposition. rewrite Hsbf.
  destruct (st_entries st) as [|e0 l0] eqn:E; [congruence|]. simpl orb.
  destruct (sort_entries (e0 :: l0)) as [|first rest] eqn:Es.
  - exfalso. pose proof (js_sort_length by_date (e0 :: l0)) as Hl.
    unfold sort_entries in Es. rewrite Es in Hl. discriminate.
  - match goal with
    | |- context [loop ?en ?c ?b ?x ?y ?z None ?l ?s] =>
        destruct (loop_inv en c b x y z l None s) as (s' & ests & Hl & Hr & Hp)
    end.
    + rewrite Es. apply incl_refl.
    + rewrite Es. simpl. now left.
    + rewrite Hl. eexists. split; [reflexivity|]. simpl. simpl in Hr.
      rewrite Hr. now apply pushed_all_dates in Hp.
Qed.

(** X11: On every date with a body-fat measurement the estimate is the
    measurement: its percentage, the masses it implies for the weight of
    the day, a margin of one point, and not flagged as estimated. *)
Theorem calculateBodyComposition_snaps (st : AppState)
    (r : BodyCompositionResult) (est : BodyCompositionEstimate) (bf : float) :
  calculateBodyComposition parseFloat st = Some r ->
  In est (estimates r) ->
  actualMeasurement (bodyFatMeasurements (st_measurements st)) (bc_date est)
  = Some bf ->
  bodyFatPercentage est = bf
  /\ fatMass est = (bc_weight est * (bf / 100))%float
  /\ leanMass est = (bc_weight est - bc_weight est * (bf / 100))%float
  /\ bodyFatPercentageCI est = ((bf - 1)%float, (bf + 1)%float)
  /\ isEstimated est = false.
Proof.
  unfold calculateBodyComposition.
  destruct ((List.length (st_entries st) =? 0) || is_empty (st_startingBodyFat st)).
  { intros [= <-]. contradiction. }
  destruct (sort_entries (st_entries st)) as [|first rest] eqn:Es; [discriminate|].
  match goal with
  | |- context [loop ?en ?c ?b ?x ?y ?z None ?l ?s] =>
      destruct (loop_inv en c b x y z l None s) as (s' & ests & Hl & Hr & Hp)
  end.
  - rewrite Es. apply incl_refl.
  - rewrite Es. simpl. now left.
  - rewrite Hl. intros [= <-]. simpl. simpl in Hr. rewrite Hr.
    intros Hin Ha. exact (pushed_all_measured _ _ _ _ Hp est bf Hin Ha).
Qed.

(** X12: The first estimate is never flagged as estimated; a later one is
    flagged exactly when its date has no body-fat measurement. *)
Theorem calculateBodyComposition_flags (st : AppState)
    (r : BodyCompositionResult) :
  calculateBodyComposition parseFloat st = Some r ->
  match estimates r with
  | [] => True
  | est0 :: ests =>
      isEstimated est0 = false
      /\ forall est, In est ests ->
           (isEstimated est = true <->
            actualMeasurement (bodyFatMeasurements (st_measurements st))
              (bc_date est) = None)
  end.
Proof.
  unfold calculateBodyComposition.
  destruct ((List.length (st_entries st) =? 0) || is_empty (st_startingBodyFat st)).
  { now intros [= <-]. }
  destruct (sort_entries (st_entries st)) as [|first rest] eqn:Es; [discriminate|].
  match goal with
  | |- context [loop ?en ?c ?b ?x ?y ?z None ?l ?s] =>
      destruct (loop_inv en c b x y z l None s) as (s' & ests & Hl & Hr & Hp)
  end.
  - rewrite Es. apply incl_refl.
  - rewrite Es. simpl. now left.
  - rewrite Hl. intros [= <-]. simpl. simpl in Hr. rewrite Hr.
    destruct ests as [|est0 ests]; [exact I|].
    simpl in Hp. destruct Hp as [(Hd & _ & Hm & Hu) Hp]. split.
    + destruct (actualMeasurement (bodyFatMeasurements (st_measurements st))
                  (date first)) as [bf|].
      * now destruct (Hm bf eq_refl) as (_ & _ & _ & _ & ->).
      * now rewrite (Hu eq_refl).
    + now apply (pushed_all_later _ _ _ _ Hp).
Qed.

End RunTheorems.

Section CommitFacts.

Variable parseFloat : string -> float.

(** When no entry after the first has a body-fat measurement on its date, a
    run proposes no calibration factor. *)
Lemma unmeasured_no_proposal (st : AppState) (r : BodyCompositionResult) :
  unmeasured_after_first (bodyFatMeasurements (st_measurements st))
    (sort_entries (st_entries st)) ->
  calculateBodyComposition parseFloat st = Some r ->
  newCalibrationFactor r = None.
Proof.
  unfold calculateBodyComposition, unmeasured_after_first.
  destruct ((List.length (st_entries st) =? 0) || is_empty (st_startingBodyFat st)).
  { now intros _ [= <-]. }
  destruct (sort_entries (st_entries st)) as [|first rest] eqn:Es; [discriminate|].
  simpl tl. intros Hun. cbn [loop].
  match goal with
  | |- context [step ?en ?c ?b ?x ?y ?z None first ?s] =>
      destruct (step en c b x y z None first s) as [s1|] eqn:E1; [|discriminate];
      assert (Hs1 : shouldUpdateCalibration s1 = false)
  end.
  { unfold step in E1.
    destruct (actualMeasurement _ (date first)); injection E1 as <-; reflexivity. }
  match goal with
  | |- context [loop ?en ?c ?b ?x ?y ?z (Some first) rest s1] =>
      destruct (loop en c b x y z (Some first) rest s1) as [s'|] eqn:E2;
        [|discriminate]
  end.
  apply loop_unmeasured in E2 as [Hu _]; [|exact Hun].
  intros [= <-]. simpl. now rewrite Hu, Hs1.
Qed.

(** X16: Without such measurements the cycle of render and commit settles at
    once: the effect keeps the calibration factor, and running it again
    changes nothing. *)
Theorem commitEffect_settles (st : AppState) :
  unmeasured_after_first (bodyFatMeasurements (st_measurements st))
    (sort_entries (st_entries st)) ->
  forall st', commitEffect parseFloat st = Some st' ->
    st_calibrationFactor st' = st_calibrationFactor st
    /\ commitEffect parseFloat st' = Some st'.
Proof.
  intros Hun st'. unfold commitEffect.
  destruct (calculateBodyComposition parseFloat st) as [r|] eqn:Er; [|discriminate].
  rewrite (unmeasured_no_proposal st r Hun Er).
  destruct (0 <? List.length (estimates r)) eqn:El; intros [= <-].
  - split; [reflexivity|].
    change (calculateBodyComposition parseFloat
              (set_bodyCompositionHistory st (estimates r)))
      with (calculateBodyComposition parseFloat st).
    rewrite Er, (unmeasured_no_proposal st r Hun Er), El. reflexivity.
  - split; [reflexivity|].
    rewrite Er, (unmeasured_no_proposal st r Hun Er), El. reflexivity.
Qed.

(** X14: The estimator does not depend on the order in which the entries are
    stored, when no two entries share a date. *)
Theorem calculateBodyComposition_storage_order (st : AppState)
    (l : list WeightEntry) :
  NoDup (map date (st_entries st)) -> Permutation (st_entries st) l ->
  calculateBodyComposition parseFloat (set_entries st l)
  = calculateBodyComposition parseFloat st.
Proof.
  intros Hnd Hp.
  assert (Hsort : sort_entries l = sort_entries (st_entries st))
    by (symmetry; now apply sort_entries_permutation).
  assert (Hlen : List.length l = List.length (st_entries st))
    by (symmetry; now apply Permutation_length).
  assert (Havg : match getAverageIntake l with Some _ => true | None => false end
                 = match getAverageIntake (st_entries st) with
                   | Some _ => true | None => false end).
  { unfold getAverageIntake.
    assert (Hf : List.length (filter has_calories l)
                 = List.length (filter has_calories (st_entries st))).
    { symmetry. apply Permutation_length.
      clear - Hp. induction Hp; simpl;
        repeat match goal with |- context [has_calories ?x] =>
                 destruct (has_calories x) end;
        eauto using Permutation. }
    rewrite Hf. now destruct (_ <? 2). }
  assert (Hemp : forall x y,
             getEmpiricalKcalPerKg l x = getEmpiricalKcalPerKg (st_entries st) y).
  { intros x y. unfold getEmpiricalKcalPerKg, calculateEmpiricalKcalPerKg.
    now rewrite Hsort. }
  assert (Hest : calculateEmpiricalKcalPerKg l
                 = calculateEmpiricalKcalPerKg (st_entries st)).
  { unfold calculateEmpiricalKcalPerKg. now rewrite Hsort. }
  assert (Hcal : forall sfm entry s,
             calibrate l (st_confidence st) sfm entry s
             = calibrate (st_entries st) (st_confidence st) sfm entry s).
  { intros sfm entry s. unfold calibrate.
    rewrite Hsort, Hlen, Havg.
    rewrite (Hemp _ (JsNum.or_default
                       (option_map weightChangeRate
                          (calculateCaloricInference (st_entries st)
                             (st_confidence st))) 0%float)).
    reflexivity. }
  assert (Hstep : forall bfm a b c p e s,
             step l (st_confidence st) bfm a b c p e s
             = step (st_entries st) (st_confidence st) bfm a b c p e s).
  { intros. unfold step. rewrite Hest.
    destruct (actualMeasurement bfm (date e)); [|reflexivity].
    destruct p; [apply Hcal|reflexivity]. }
  assert (Hloop : forall bfm a b c rest p s,
             loop l (st_confidence st) bfm a b c p rest s
             = loop (st_entries st) (st_confidence st) bfm a b c p rest s).
  { intros bfm a b c rest. induction rest as [|e rest IH]; intros p s; simpl;
      [reflexivity|].
    rewrite Hstep. destruct (step _ _ _ _ _ _ p e s); [apply IH|reflexivity]. }
  unfold calculateBodyComposition. simpl. rewrite Hsort, Hlen.
  destruct ((List.length (st_entries st) =? 0) || is_empty (st_startingBodyFat st));
    [reflexivity|].
  destruct (sort_entries (st_entries st)); [reflexivity|].
  now rewrite Hloop.
Qed.

End CommitFacts.

Lemma calculateBodyComposition_series_witness :
  st_entries Examples.measured_gain <> []
  /\ exists r,
       calculateBodyComposition parseDecimal Examples.measured_gain = Some r
       /\ map (fun est => (bc_date est, bc_weight est)) (estimates r)
          = [("2024-01-01"%string, 70%float); ("2024-01-02"%string, 71%float)].
Proof.
  assert (H : st_entries Examples.measured_gain <> []) by discriminate.
  split; [exact H|].
  destruct (calculateBodyComposition_series parseDecimal Examples.measured_gain H
              eq_refl) as (r & Hr & Hm).
  exists r. split; [exact Hr|]. rewrite Hm. reflexivity.
Defined.

Lemma calculateBodyComposition_snaps_witness :
  exists r est,
    calculateBodyComposition parseDecimal Examples.measured_gain = Some r
    /\ In est (estimates r)
    /\ bc_date est = "2024-01-02"%string
    /\ bodyFatPercentage est = 20%float
    /\ isEstimated est = false.
Proof.
  eexists. eexists.
  split; [vm_compute; reflexivity|].
  split; [right; left; reflexivity|].
  split; [reflexivity|].
  refine ((fun H => conj (proj1 H) (proj2 (proj2 (proj2 (proj2 H)))))
            (calculateBodyComposition_snaps parseDecimal Examples.measured_gain
               _ _ 20%float _ _ _)).
  - vm_compute. reflexivity.
  - right. left. reflexivity.
  - vm_compute. reflexivity.
Defined.

Lemma calculateBodyComposition_flags_witness :
  exists r,
    calculateBodyComposition parseDecimal MoreExamples.prior_data = Some r
    /\ match estimates r with
       | est0 :: _ => isEstimated est0 = false
       | [] => False
       end.
Proof.
  eexists.
  assert (Hr : calculateBodyComposition parseDecimal MoreExamples.prior_data
               = Some _) by (vm_compute; reflexivity).
  split; [exact Hr|].
  exact (proj1 (calculateBodyComposition_flags parseDecimal
                  MoreExamples.prior_data _ Hr)).
Defined.

Lemma commitEffect_settles_witness :
  exists st',
    commitEffect parseDecimal MoreExamples.prior_data = Some st'
    /\ st_calibrationFactor st' = Examples.default_calibration
    /\ commitEffect parseDecimal st' = Some st'.
Proof.
  eexists. split; [vm_compute; reflexivity|].
  apply (commitEffect_settles parseDecimal MoreExamples.prior_data).
  - intros e _. reflexivity.
  - vm_compute. reflexivity.
Defined.

Lemma calculateBodyComposition_storage_order_witness :
  NoDup (map date (st_entries Examples.measured_gain))
  /\ calculateBodyComposition parseDecimal
       (set_entries Examples.measured_gain (rev (st_entries Examples.measured_gain)))
     = calculateBodyComposition parseDecimal Examples.measured_gain.
Proof.
  assert (H : NoDup (map date (st_entries Examples.measured_gain))).
  { simpl. repeat (constructor; [simpl; intuition discriminate|]). constructor. }
  split; [exact H|].
  apply (calculateBodyComposition_storage_order parseDecimal _ _ H), Permutation_rev.
Defined.

Lemma commit_proposes_again_witness :
  exists st' r' cf',
    commitEffect parseDecimal Examples.measured_gain = Some st'
    /\ calculateBodyComposition parseDecimal st' = Some r'
    /\ newCalibrationFactor r' = Some cf'.
Proof.
  eexists.
  assert (Hr : calculateBodyComposition parseDecimal Examples.measured_gain
               = Some _) by (vm_compute; reflexivity).
  assert (Hc : commitEffect parseDecimal Examples.measured_gain = Some _)
    by (vm_compute; reflexivity).
  destruct (commit_proposes_again parseDecimal Examples.measured_gain _ _ _
              Hr eq_refl Hc) as (r' & cf' & H1 & H2).
  exists r', cf'. split; [exact Hc|]. now split.
Defined.

(** ** Period aggregator: the buckets partition the log *)

Lemma group_push_perm (info : GroupInfo) (entry : WeightEntry) (grouped : GroupMap) :
  Permutation (all_data (group_push info entry grouped)) (entry :: all_data grouped).
Proof.
  unfold all_data. induction grouped as [|[k g] grouped IH]; simpl.
  - reflexivity.
  - destruct (key_eqb (key info) k); simpl.
    + rewrite <- app_assoc. simpl.
      etransitivity; [symmetry; apply Permutation_middle|]. reflexivity.
    + etransitivity; [apply Permutation_app_head, IH|].
      symmetry. apply Permutation_middle.
Qed.

Lemma group_entries_perm (grouping : StatsGroupingOption)
    (entries : list WeightEntry) (grouped grouped' : GroupMap) :
  group_entries grouping entries grouped = Some grouped' ->
  Permutation (all_data grouped') (entries ++ all_data grouped).
Proof.
  revert grouped. induction entries as [|e entries IH]; simpl; intros grouped E.
  - now injection E as <-.
  - destruct (getGroupInfo (date e) grouping) as [info|]; [|discriminate].
    etransitivity; [apply (IH _ E)|].
    etransitivity; [apply Permutation_app_head, group_push_perm|].
    symmetry. apply Permutation_middle.
Qed.

Lemma list_concat_perm {A : Type} (l l' : list (list A)) :
  Permutation l l' -> Permutation (List.concat l) (List.concat l').
Proof.
  induction 1; simpl.
  - reflexivity.
  - now apply Permutation_app_head.
  - rewrite !app_assoc. apply Permutation_app_tail, Permutation_app_comm.
  - etransitivity; eassumption.
Qed.

Lemma concat_sorted_perm (grouped : GroupMap) :
  Permutation
    (List.concat (map data
               (map (fun '(_, group) =>
                       mkGroup (weekStart group) (sort_entries (data group))
                         (startDateMs group)) grouped)))
    (all_data grouped).
Proof.
  unfold all_data. induction grouped as [|[k g] grouped IH]; simpl; [reflexivity|].
  apply Permutation_app; [symmetry; apply sort_entries_perm|exact IH].
Qed.

(** X19: Grouping loses no entry and repeats none: the buckets together hold the
    entries of the log, each bucket at least one, in date order within the
    bucket, and the buckets in the order of their start. *)
Theorem weeklyGroups_partition (entries : list WeightEntry)
    (grouping : StatsGroupingOption) (groups : list WeeklyGroup) :
  weeklyGroups entries grouping = Some groups ->
  Permutation (List.concat (map data groups)) entries
  /\ Forall (fun g => data g <> [] /\ Sorted date_le (data g)) groups
  /\ Sorted (fun a b => (startDateMs a <= startDateMs b)%Z) groups.
Proof.
  intros H.
  destruct (weeklyGroups_nonempty_sorted _ _ _ H) as [Hne Hs].
  split; [|split; [|exact Hs]].
  - unfold weeklyGroups in H.
    destruct (group_entries grouping entries []) as [grouped|] eqn:E; [|discriminate].
    injection H as <-.
    etransitivity; [apply list_concat_perm, Permutation_map; symmetry; apply js_sort_perm|].
    etransitivity; [apply concat_sorted_perm|].
    etransitivity; [apply (group_entries_perm _ _ _ _ E)|].
    unfold all_data. simpl. now rewrite app_nil_r.
  - rewrite Forall_forall in *. intros g Hg. split; [now apply Hne|].
    unfold weeklyGroups in H.
    destruct (group_entries grouping entries []) as [grouped|]; [|discriminate].
    injection H as <-. apply js_sort_In in Hg.
    apply in_map_iff in Hg as ([k g0] & <- & _). simpl.
    apply sort_entries_sorted.
Qed.

Lemma weeklyGroups_partition_witness :
  exists groups,
    weeklyGroups MoreExamples.around_new_year G1w = Some groups
    /\ Permutation (List.concat (map data groups)) MoreExamples.around_new_year
    /\ map (fun g => List.length (data g)) groups = [1; 2; 1].
Proof.
  eexists.
  assert (H : weeklyGroups MoreExamples.around_new_year G1w = Some _)
    by (vm_compute; reflexivity).
  split; [exact H|]. split.
  - exact (proj1 (weeklyGroups_partition _ _ _ H)).
  - reflexivity.
Defined.

(** ** Period aggregator: the range of a bucket *)

Open Scope Z_scope.

Lemma parse_valid (s : string) (y m d : Z) :
  JsDate.parse s = Some (y, m, d) ->
  1 <= m <= 12 /\ 1 <= d <= JsDate.days_in_month y m.
Proof.
  unfold JsDate.parse.
  destruct (list_ascii_of_string s) as [|c0 [|c1 [|c2 [|c3 [|c4 [|c5 [|c6 [|c7
    [|c8 [|c9 [|c10 l]]]]]]]]]]]; try discriminate.
  destruct (_ && _); [|discriminate].
  destruct (JsDate.number 0 [c0; c1; c2; c3]) as [y'|]; [|discriminate].
  destruct (JsDate.number 0 [c5; c6]) as [m'|]; [|discriminate].
  destruct (JsDate.number 0 [c8; c9]) as [d'|]; [|discriminate].
  destruct ((1 <=? m') && (m' <=? 12) && (1 <=? d')
            && (d' <=? JsDate.days_in_month y' m')) eqn:E; [|discriminate].
  intros [= <- <- <-].
  rewrite !andb_true_iff, !Z.leb_le in E. lia.
Qed.

Lemma days_in_month_pos (y m : Z) : 28 <= JsDate.days_in_month y m.
Proof.
  unfold JsDate.days_in_month.
  destruct (m =? 2); [now destruct (JsDate.is_leap y)|].
  now destruct ((m =? 4) || (m =? 6) || (m =? 9) || (m =? 11)).
Qed.

Lemma days_from_civil_day (y m d : Z) :
  JsDate.days_from_civil y m d = JsDate.days_from_civil y m 1 + (d - 1).
Proof. unfold JsDate.days_from_civil. lia. Qed.

(** The first of the next month follows the last day of the month. *)
Lemma month_start_next (y m : Z) :
  1 <= m <= 12 ->
  JsDate.days_from_civil y m 1 + JsDate.days_in_month y m
  = JsDate.make_day y m 1.
Proof.
  intros Hm.
  assert (Hc : m = 1 \/ m = 2 \/ m = 3 \/ m = 4 \/ m = 5 \/ m = 6 \/ m = 7
               \/ m = 8 \/ m = 9 \/ m = 10 \/ m = 11 \/ m = 12) by lia.
  unfold JsDate.make_day, JsDate.days_in_month, JsDate.is_leap,
    JsDate.days_from_civil.
  destruct (Z.eqb_spec (y mod 4) 0), (Z.eqb_spec (y mod 100) 0),
    (Z.eqb_spec (y mod 400) 0); simpl andb; simpl orb; simpl negb.
  all: repeat (destruct Hc as [->|Hc]); [..|subst m];
    match goal with
    | |- context [?k / 12] =>
        let q := eval vm_compute in (k / 12) in
        let r := eval vm_compute in (k mod 12 + 1) in
        change (k / 12) with q; change (k mod 12 + 1) with r
    end;
    repeat match goal with
    | |- context [Z.leb ?a ?b] =>
        let v := eval vm_compute in (Z.leb a b) in change (Z.leb a b) with v
    | |- context [Z.eqb ?a ?b] =>
        let v := eval vm_compute in (Z.eqb a b) in change (Z.eqb a b) with v
    end; cbv iota; simpl orb; cbv iota;
    Z.div_mod_to_equations; lia.
Qed.

Lemma make_day_first (y k : Z) :
  0 <= k <= 11 -> JsDate.make_day y k 1 = JsDate.days_from_civil y (k + 1) 1.
Proof.
  intros Hk. unfold JsDate.make_day.
  rewrite (Z.div_small k 12), (Z.mod_small k 12) by lia.
  now rewrite !Z.add_0_r.
Qed.

Lemma make_day_zero (y k : Z) :
  JsDate.make_day y k 0 = JsDate.make_day y k 1 - 1.
Proof. unfold JsDate.make_day. lia. Qed.

(** [startOfWeek] is the Monday of the week of the day. *)
Lemma startOfWeek_monday (d : Z) :
  JsDate.getDay (startOfWeek d) = 1
  /\ startOfWeek d <= d <= startOfWeek d + 6.
Proof.
  unfold startOfWeek, JsDate.getDay. Z.div_mod_to_equations. lia.
Qed.

(** In the 1-week, 1-month and 2-month groupings the range of a bucket
    holds the date that was put into it. *)
Lemma range_holds_date (dateStr : string)
    (grouping : StatsGroupingOption) (info : GroupInfo) :
  grouping <> G2w ->
  getGroupInfo dateStr grouping = Some info ->
  exists t,
    JsDate.time_ms dateStr = Some t
    /\ startDate info <= t <= endDate info.
Proof.
  intros Hg. unfold getGroupInfo, JsDate.time_ms, JsDate.day_number.
  destruct (JsDate.parse dateStr) as [[[y m] d]|] eqn:Ep; [|discriminate].
  destruct (parse_valid _ _ _ _ Ep) as [Hm Hd].
  intros [= <-]. eexists. split; [reflexivity|].
  rewrite (days_from_civil_day y m d).
  pose proof (days_in_month_pos y m) as Hpos.
  unfold JsDate.DAY_MS.
  destruct grouping; [| congruence | |]; simpl.
  - pose proof (startOfWeek_monday
                  (JsDate.days_from_civil y m 1 + (d - 1))) as [_ Hw].
    lia.
  - rewrite make_day_zero, <- (month_start_next y m Hm).
    rewrite (make_day_first y (m - 1)) by lia.
    replace (m - 1 + 1) with m by lia. lia.
  - assert (Hodd : (m - 1) / 2 * 2 = m - 1 \/ (m - 1) / 2 * 2 = m - 2)
      by (Z.div_mod_to_equations; lia).
    rewrite make_day_zero.
    destruct Hodd as [E|E]; rewrite E.
    + assert (m <= 11) by (Z.div_mod_to_equations; lia).
      rewrite (make_day_first y (m - 1)) by lia.
      replace (m - 1 + 1) with m by lia.
      replace (m - 1 + 2) with (m + 1) by lia.
      rewrite <- (month_start_next y (m + 1)) by lia.
      rewrite <- (make_day_first y m) by lia.
      rewrite <- (month_start_next y m Hm).
      pose proof (days_in_month_pos y (m + 1)). lia.
    + assert (2 <= m) by (Z.div_mod_to_equations; lia).
      rewrite (make_day_first y (m - 2)) by lia.
      replace (m - 2 + 1) with (m - 1) by lia.
      replace (m - 2 + 2) with m by lia.
      rewrite <- (month_start_next y m Hm).
      pose proof (month_start_next y (m - 1)) as Hprev.
      rewrite (make_day_first y (m - 1)) in Hprev by lia.
      replace (m - 1 + 1) with m in Hprev by lia.
      pose proof (days_in_month_pos y (m - 1)). lia.
Qed.

(** At a host on UTC: in the 2-week grouping the bucket starts on a
    Thursday (a multiple of 14 days from the epoch) and spans 14 days; the
    date put into it lies in
    that range exactly when its day number is at least 4 modulo 14, so the
    Thursdays to Sundays of every second week lie after the end of their
    own bucket. *)
Lemma two_week_range_utc (dateStr : string) (info : GroupInfo) :
  getGroupInfo dateStr G2w = Some info ->
  exists d,
    JsDate.day_number dateStr = Some d
    /\ JsDate.getDay (startDate info / JsDate.DAY_MS) = 4
    /\ (startDate info / JsDate.DAY_MS) mod 14 = 0
    /\ endDate info = startDate info + 13 * JsDate.DAY_MS
    /\ startDate info <= d * JsDate.DAY_MS
    /\ (d * JsDate.DAY_MS <= endDate info <-> 4 <= d mod 14).
Proof.
  unfold getGroupInfo, JsDate.day_number.
  destruct (JsDate.parse dateStr) as [[[y m] d]|]; [|discriminate].
  intros [= <-]. exists (JsDate.days_from_civil y m d).
  split; [reflexivity|]. simpl.
  generalize (JsDate.days_from_civil y m d). clear. intros d.
  unfold startOfWeek, JsDate.getDay, JsDate.DAY_MS.
  Z.div_mod_to_equations. lia.
Qed.

Close Scope Z_scope.

(** ** Period aggregator: buckets and keys *)

Lemma key_eqb_eq (a b : GroupKey) : key_eqb a b = true <-> a = b.
Proof.
  destruct a as [x|y1 m1], b as [y|y2 m2]; simpl;
    rewrite ?andb_true_iff, ?Z.eqb_eq; split; intros H;
    try discriminate; try (now f_equal); try (injection H; auto);
    try (destruct H; now f_equal).
Qed.

Lemma key_eqb_refl (k : GroupKey) : key_eqb k k = true.
Proof. now apply key_eqb_eq. Qed.

Lemma getGroupInfo_start (s : string) (grouping : StatsGroupingOption)
    (info : GroupInfo) :
  getGroupInfo s grouping = Some info ->
  startDate info = start_of_key grouping (key info).
Proof.
  unfold getGroupInfo.
  destruct (JsDate.parse s) as [[[y m] d]|]; [|discriminate].
  intros [= <-]. destruct grouping; simpl; try reflexivity.
  - rewrite Z.div_mul; [reflexivity|discriminate].
  - rewrite Z.div_mul; [reflexivity|discriminate].
Qed.

Lemma group_push_keys (info : GroupInfo) (entry : WeightEntry) (grouped : GroupMap) :
  map fst (group_push info entry grouped)
  = if existsb (key_eqb (key info)) (map fst grouped)
    then map fst grouped else map fst grouped ++ [key info].
Proof.
  induction grouped as [|[k g] grouped IH]; simpl; [reflexivity|].
  destruct (key_eqb (key info) k); simpl; [reflexivity|].
  rewrite IH. now destruct (existsb _ _).
Qed.

Lemma group_push_in (info : GroupInfo) (entry : WeightEntry) (grouped : GroupMap)
    (k : GroupKey) (g : WeeklyGroup) :
  NoDup (map fst grouped) ->
  In (k, g) (group_push info entry grouped) ->
  (k <> key info /\ In (k, g) grouped)
  \/ (k = key info
      /\ ((exists g0, In (k, g0) grouped
                      /\ g = mkGroup (weekStart g0) (data g0 ++ [entry])
                             (startDateMs g0))
          \/ (~ In k (map fst grouped)
              /\ g = mkGroup (label info) [entry] (startDate info)))).
Proof.
  induction grouped as [|[k0 g0] grouped IH]; simpl; intros Hnd Hin.
  - destruct Hin as [[= <- <-]|[]]. right. split; [reflexivity|]. right. auto.
  - inversion Hnd as [|? ? Hn Hd]; subst.
    destruct (key_eqb (key info) k0) eqn:E.
    + apply key_eqb_eq in E. subst k0.
      destruct Hin as [[= <- <-]|Hin].
      * right. split; [reflexivity|]. left. exists g0. auto.
      * left. split; [|now right].
        intros ->. apply Hn. apply in_map_iff. now exists (key info, g).
    + assert (Ek : k0 <> key info)
        by (intros ->; now rewrite key_eqb_refl in E).
      destruct Hin as [[= <- <-]|Hin]; [left; auto|].
      destruct (IH Hd Hin) as [[Hk H]|[Hk [(g1 & H1 & H2)|[H1 H2]]]].
      * left. auto.
      * right. split; [exact Hk|]. left. exists g1. auto.
      * right. split; [exact Hk|]. right. split; [|exact H2].
        intros [E'|H]; [congruence|contradiction].
Qed.

Lemma has_key_iff (grouping : StatsGroupingOption) (k : GroupKey) (e : WeightEntry) :
  has_key grouping k e = true <-> key_of grouping e = Some k.
Proof.
  unfold has_key. destruct (key_of grouping e) as [k'|].
  - rewrite key_eqb_eq. split; congruence.
  - split; discriminate.
Qed.

Lemma group_push_buckets (grouping : StatsGroupingOption) (info : GroupInfo)
    (entry : WeightEntry) (processed : list WeightEntry) (grouped : GroupMap) :
  getGroupInfo (date entry) grouping = Some info ->
  buckets_of grouping processed grouped ->
  buckets_of grouping (processed ++ [entry]) (group_push info entry grouped).
Proof.
  intros Hinfo (Hnd & Hmet & Hb).
  assert (Hkey : key_of grouping entry = Some (key info))
    by (unfold key_of; now rewrite Hinfo).
  split; [|split].
  - rewrite group_push_keys.
    destruct (existsb (key_eqb (key info)) (map fst grouped)) eqn:E; [exact Hnd|].
    apply NoDup_app; [exact Hnd|repeat constructor; auto|].
    intros k Hk [<-|[]].
    assert (existsb (key_eqb (key info)) (map fst grouped) = true); [|congruence].
    apply existsb_exists. exists (key info). split; [exact Hk|apply key_eqb_refl].
  - intros e k He Hk. rewrite group_push_keys.
    assert (Hor : In k (map fst grouped) \/ k = key info).
    { apply in_app_iff in He as [He|[<-|[]]]; [left; eauto|right; congruence]. }
    destruct (existsb (key_eqb (key info)) (map fst grouped)) eqn:E.
    + destruct Hor as [H| ->]; [exact H|].
      apply existsb_exists in E as (k' & Hk' & Ek'). apply key_eqb_eq in Ek'.
      now subst k'.
    + apply in_app_iff. destruct Hor as [H| ->]; [now left|right; now left].
  - intros k g Hin. rewrite filter_app. simpl.
    destruct (group_push_in _ _ _ _ _ Hnd Hin)
      as [[Hk H]|[-> [(g0 & H0 & ->)|[Hn ->]]]].
    + destruct (Hb k g H) as (Hd & Hne & Hst & e & He & Hek).
      assert (Hf : has_key grouping k entry = false).
      { destruct (has_key grouping k entry) eqn:E; [|reflexivity].
        apply has_key_iff in E. congruence. }
      rewrite Hf, app_nil_r. repeat split; auto.
      exists e. split; [apply in_app_iff; now left|exact Hek].
    + destruct (Hb _ _ H0) as (Hd & Hne & Hst & _).
      rewrite (proj2 (has_key_iff _ _ _) Hkey). simpl.
      rewrite Hd. repeat split; auto.
      * now destruct (filter _ processed).
      * exists entry. split; [apply in_app_iff; right; now left|exact Hkey].
    + rewrite (proj2 (has_key_iff _ _ _) Hkey). simpl.
      assert (Hnone : filter (has_key grouping (key info)) processed = []).
      { destruct (filter (has_key grouping (key info)) processed) as [|x l] eqn:E;
          [reflexivity|].
        assert (Hx : In x (filter (has_key grouping (key info)) processed))
          by (rewrite E; now left).
        apply filter_In in Hx as [Hx1 Hx2]. apply has_key_iff in Hx2.
        elim Hn. eauto. }
      rewrite Hnone. repeat split; try discriminate.
      * simpl. exact (getGroupInfo_start _ _ _ Hinfo).
      * exists entry. split; [apply in_app_iff; right; now left|exact Hkey].
Qed.

Lemma group_entries_buckets (grouping : StatsGroupingOption)
    (entries processed : list WeightEntry) (grouped grouped' : GroupMap) :
  buckets_of grouping processed grouped ->
  group_entries grouping entries grouped = Some grouped' ->
  buckets_of grouping (processed ++ entries) grouped'.
Proof.
  revert processed grouped.
  induction entries as [|e entries IH]; simpl; intros processed grouped Hb E.
  - injection E as <-. now rewrite app_nil_r.
  - destruct (getGroupInfo (date e) grouping) as [info|] eqn:Ei; [|discriminate].
    replace (processed ++ e :: entries) with ((processed ++ [e]) ++ entries)
      by (now rewrite <- app_assoc).
    eapply IH; [|exact E]. now apply group_push_buckets.
Qed.

Lemma buckets_of_empty (grouping : StatsGroupingOption) :
  buckets_of grouping [] [].
Proof. split; [constructor|]. split; intros; contradiction. Qed.

Open Scope Z_scope.

Lemma make_day_index (y k : Z) :
  0 <= k <= 11 -> JsDate.make_day y k 1 = JsDate.make_day 0 (12 * y + k) 1.
Proof.
  intros Hk. unfold JsDate.make_day.
  replace ((12 * y + k) / 12) with y by (Z.div_mod_to_equations; lia).
  replace ((12 * y + k) mod 12) with k by (Z.div_mod_to_equations; lia).
  rewrite (Z.div_small k 12), (Z.mod_small k 12) by lia.
  rewrite (Z.add_0_r y). reflexivity.
Qed.

Lemma month_index_step (n : Z) :
  JsDate.make_day 0 n 1 < JsDate.make_day 0 (n + 1) 1.
Proof.
  pose proof (month_start_next (n / 12) (n mod 12 + 1)) as H.
  pose proof (days_in_month_pos (n / 12) (n mod 12 + 1)) as Hp.
  assert (Hm : 1 <= n mod 12 + 1 <= 12) by (Z.div_mod_to_equations; lia).
  specialize (H Hm). unfold JsDate.make_day in *.
  replace (n / 12 + (n mod 12 + 1) / 12) with ((n + 1) / 12) in H
    by (Z.div_mod_to_equations; lia).
  replace ((n mod 12 + 1) mod 12) with ((n + 1) mod 12) in H
    by (Z.div_mod_to_equations; lia).
  rewrite !Z.add_0_l. lia.
Qed.

Lemma month_index_mono (n n' : Z) :
  n < n' -> JsDate.make_day 0 n 1 < JsDate.make_day 0 n' 1.
Proof.
  intros H. replace n' with (n + 1 + (n' - n - 1)) by lia.
  assert (Hk : 0 <= n' - n - 1) by lia.
  generalize dependent (n' - n - 1). intros k Hk. clear H.
  pattern k. apply natlike_ind; [| |exact Hk].
  - rewrite Z.add_0_r. apply month_index_step.
  - intros x Hx IH. replace (n + 1 + Z.succ x) with (n + 1 + x + 1) by lia.
    pose proof (month_index_step (n + 1 + x)). lia.
Qed.

Lemma month_index_inj (n n' : Z) :
  JsDate.make_day 0 n 1 = JsDate.make_day 0 n' 1 -> n = n'.
Proof.
  intros H. destruct (Z.lt_trichotomy n n') as [L|[E|L]]; [|exact E|];
    apply month_index_mono in L; lia.
Qed.

(** The keys [getGroupInfo] makes. *)
Lemma key_shape (s : string) (grouping : StatsGroupingOption) (info : GroupInfo) :
  getGroupInfo s grouping = Some info ->
  match key info with
  | KeyDay _ => grouping = G1w \/ grouping = G2w
  | KeyMonth y m =>
      (grouping = G1m /\ 1 <= m <= 12) \/ (grouping = G2m /\ 0 <= m <= 11)
  end.
Proof.
  unfold getGroupInfo.
  destruct (JsDate.parse s) as [[[y m] d]|] eqn:Ep; [|discriminate].
  destruct (parse_valid _ _ _ _ Ep) as [Hm _].
  intros [= <-]. destruct grouping; simpl; auto.
  right. split; [reflexivity|]. Z.div_mod_to_equations. lia.
Qed.

(** Two buckets of a grouping that start at the same time have the same
    key. *)
Lemma start_of_key_inj (grouping : StatsGroupingOption) (e1 e2 : WeightEntry)
    (k1 k2 : GroupKey) :
  key_of grouping e1 = Some k1 -> key_of grouping e2 = Some k2 ->
  start_of_key grouping k1 = start_of_key grouping k2 -> k1 = k2.
Proof.
  unfold key_of.
  destruct (getGroupInfo (date e1) grouping) as [i1|] eqn:E1; [|discriminate].
  destruct (getGroupInfo (date e2) grouping) as [i2|] eqn:E2; [|discriminate].
  intros [= <-] [= <-].
  pose proof (key_shape _ _ _ E1) as S1. pose proof (key_shape _ _ _ E2) as S2.
  destruct (key i1) as [d1|y1 m1], (key i2) as [d2|y2 m2]; simpl.
  - unfold JsDate.DAY_MS. intros Hst. f_equal. lia.
  - destruct S1 as [-> | ->], S2 as [[? _]|[? _]]; discriminate.
  - destruct S2 as [-> | ->], S1 as [[? _]|[? _]]; discriminate.
  - unfold JsDate.DAY_MS.
    destruct S1 as [[-> H1]|[-> H1]], S2 as [[? H2]|[? H2]]; try discriminate;
      intros Hst.
    + rewrite (make_day_index y1 (m1 - 1)), (make_day_index y2 (m2 - 1)) in Hst
        by lia.
      assert (E : 12 * y1 + (m1 - 1) = 12 * y2 + (m2 - 1))
        by (apply month_index_inj; lia).
      f_equal; lia.
    + rewrite (make_day_index y1 m1), (make_day_index y2 m2) in Hst by lia.
      assert (E : 12 * y1 + m1 = 12 * y2 + m2) by (apply month_index_inj; lia).
      f_equal; lia.
Qed.

Lemma NoDup_map_inj {A B : Type} (f : A -> B) (l : list A) :
  NoDup l -> (forall x y, In x l -> In y l -> f x = f y -> x = y) ->
  NoDup (map f l).
Proof.
  induction 1 as [|a l Hn Hd IH]; simpl; intros Hinj; [constructor|].
  constructor.
  - intros Hin. apply in_map_iff in Hin as (x & Hx & Hin).
    apply Hn. rewrite <- (Hinj x a); auto.
  - apply IH. intros x y Hx Hy. apply Hinj; now right.
Qed.

Lemma NoDup_fst_unique {A B : Type} (l : list (A * B)) (k : A) (x y : B) :
  NoDup (map fst l) -> In (k, x) l -> In (k, y) l -> x = y.
Proof.
  induction l as [|[k0 z] l IH]; simpl; intros Hnd Hx Hy; [contradiction|].
  inversion Hnd as [|? ? Hn Hd]; subst.
  destruct Hx as [Ex|Hx], Hy as [Ey|Hy].
  - congruence.
  - exfalso. apply Hn. apply in_map_iff. exists (k, y).
    split; [simpl; congruence|exact Hy].
  - exfalso. apply Hn. apply in_map_iff. exists (k, x).
    split; [simpl; congruence|exact Hx].
  - now apply IH.
Qed.

Lemma Sorted_le_strict (l : list WeeklyGroup) :
  Sorted (fun a b => startDateMs a <= startDateMs b) l ->
  NoDup (map startDateMs l) ->
  Sorted (fun a b => startDateMs a < startDateMs b) l.
Proof.
  induction 1 as [|a l Hs IH Hhd]; intros Hnd; [constructor|].
  inversion Hnd as [|? ? Hn Hd]; subst. constructor; [now apply IH|].
  destruct Hhd as [|b l Hab]; constructor.
  assert (startDateMs a <> startDateMs b) by (intros E; apply Hn; left; auto).
  lia.
Qed.

Close Scope Z_scope.



(** ** Body measurements *)

Lemma find_insert_sorted_stable (d : string) (x : BodyMeasurement)
    (l : list BodyMeasurement) :
  find (fun m => String.eqb (m_date m) d) (insert_sorted by_m_date x l)
  = if String.eqb (m_date x) d then Some x
    else find (fun m => String.eqb (m_date m) d) l.
Proof.
  induction l as [|y l IH]; simpl; [reflexivity|].
  destruct (by_m_date x y) eqn:E; simpl; try reflexivity.
  rewrite IH.
  destruct (String.eqb_spec (m_date x) d) as [Ex|Ex];
    destruct (String.eqb_spec (m_date y) d) as [Ey|Ey]; try reflexivity.
  exfalso. unfold by_m_date, localeCompare in E.
  rewrite Ex, Ey in E.
  pose proof (String.compare_antisym d d) as Ha.
  rewrite E in Ha. discriminate.
Qed.

Lemma find_js_sort_stable (d : string) (l : list BodyMeasurement) :
  find (fun m => String.eqb (m_date m) d) (js_sort by_m_date l)
  = find (fun m => String.eqb (m_date m) d) l.
Proof.
  induction l as [|x l IH]; simpl; [reflexivity|].
  now rewrite find_insert_sorted_stable, IH.
Qed.

Lemma find_filter {A : Type} (p q : A -> bool) (l : list A) :
  find p (filter q l) = find (fun x => q x && p x) l.
Proof.
  induction l as [|x l IH]; simpl; [reflexivity|].
  destruct (q x); simpl; [|exact IH]. now destruct (p x).
Qed.

(** X15: The body fat the estimator takes for a date is that of the first
    measurement in the log that has a body fat and that date: of several
    measurements of one day, the one listed first wins. *)
Theorem actualMeasurement_first_listed (measurements : list BodyMeasurement)
    (d : string) :
  actualMeasurement (bodyFatMeasurements measurements) d
  = match find (fun m => has_bodyFat m && String.eqb (m_date m) d) measurements with
    | Some m => bodyFat m
    | None => None
    end.
Proof.
  unfold actualMeasurement, bodyFatMeasurements.
  now rewrite find_js_sort_stable, find_filter.
Qed.

(** The first of two body fats of one day is the one used. *)
Example actualMeasurement_repeated :
  actualMeasurement (bodyFatMeasurements MoreExamples.repeated_measurements)
    "2024-01-02" = Some 20%float
  /\ actualMeasurement (bodyFatMeasurements MoreExamples.repeated_measurements)
       "2024-01-03" = None.
Proof. split; reflexivity. Qed.

Section MeasurementFacts.

Variable parseFloat : string -> float.

(** X18: A measurement is accepted exactly when it has a date and at least one
    metric.  An accepted measurement is added as a new row even when its
    date is already in the log (measurements are not deduplicated), the log
    comes out in date order, and the form is cleared; a refused one changes
    nothing. *)
Theorem addBodyMeasurement_spec (form : MeasurementForm)
    (measurements : list BodyMeasurement) :
  let '(measurements', form', alert) :=
    addBodyMeasurement parseFloat form measurements in
  (alert = None <->
   is_empty (measurementDate form) = false
   /\ (is_empty (form_bodyFat form) = false
       \/ entered_parts parseFloat form <> []))
  /\ (alert = None ->
      Permutation measurements' (newMeasurement parseFloat form :: measurements)
      /\ List.length measurements' = S (List.length measurements)
      /\ Sorted (cmp_le by_m_date) measurements'
      /\ form' = empty_form)
  /\ (alert <> None -> measurements' = measurements /\ form' = form).
Proof.
  unfold addBodyMeasurement.
  destruct (is_empty (measurementDate form)) eqn:Ed.
  { repeat split; try discriminate; intros H; try congruence.
    destruct H; discriminate. }
  assert (Hk : (keys_length (newMeasurement parseFloat form) <=? 1) = false
               <-> (is_empty (form_bodyFat form) = false
                    \/ entered_parts parseFloat form <> [])).
  { unfold keys_length, newMeasurement, has_bodyFat. simpl.
    destruct (is_empty (form_bodyFat form)); simpl;
      destruct (entered_parts parseFloat form); simpl;
      split; intros H; auto; try discriminate.
    - destruct H; [discriminate|congruence].
    - right. discriminate. }
  destruct (keys_length (newMeasurement parseFloat form) <=? 1) eqn:Ek.
  - repeat split; try discriminate; intros H; try congruence.
    destruct H as [_ H]. apply Hk in H. discriminate.
  - split; [|split].
    + split; [intros _; split; [reflexivity|now apply Hk]|reflexivity].
    + intros _. split; [|split; [|split]].
      * etransitivity; [symmetry; apply js_sort_perm|].
        symmetry. apply Permutation_cons_append.
      * rewrite js_sort_length, length_app. simpl. lia.
      * apply js_sort_sorted. intros a b. apply localeCompare_total.
      * reflexivity.
    + congruence.
Qed.

End MeasurementFacts.

(** ** Calorie pairs: the scatter plot and the estimator *)

Lemma pair_of_length (curr next : WeightEntry) :
  List.length (pair_of curr next)
  <= if has_calories curr && has_calories next then 1 else 0.
Proof.
  unfold pair_of, has_calories.
  destruct (calories curr), (calories next); simpl; try lia.
  destruct (PrimFloat.leb _ 0); simpl; lia.
Qed.

Lemma adjacent_pairs_cons (curr next : WeightEntry) (rest : list WeightEntry) :
  map point_pair (adjacent_pairs (curr :: next :: rest))
  = pair_of curr next ++ map point_pair (adjacent_pairs (next :: rest)).
Proof.
  cbn [adjacent_pairs]. unfold pair_of.
  destruct (calories curr), (calories next); try reflexivity.
  destruct (PrimFloat.leb _ 0); reflexivity.
Qed.

Lemma adjacent_pairs_incl (l : list WeightEntry) :
  incl (map point_pair (adjacent_pairs l)) (pairs_of l).
Proof.
  induction l as [|curr [|next rest] IH]; [intros x []|intros x []|].
  rewrite adjacent_pairs_cons, pairs_of_cons. intros p Hp.
  apply in_app_iff in Hp as [Hp|Hp]; apply in_app_iff.
  - left. simpl. apply in_app_iff. now left.
  - right. now apply IH.
Qed.

Lemma adjacent_pairs_length (l : list WeightEntry) :
  List.length (adjacent_pairs l) <= calorieIntervals l
  /\ calorieIntervals l <= List.length l - 1
  /\ List.length (adjacent_pairs l) <= List.length (pairs_of l).
Proof.
  induction l as [|curr [|next rest] IH]; [simpl; lia|simpl; lia|].
  destruct IH as (IH1 & IH2 & IH3).
  assert (E : List.length (adjacent_pairs (curr :: next :: rest))
              = List.length (pair_of curr next)
                + List.length (adjacent_pairs (next :: rest))).
  { rewrite <- (length_map point_pair (adjacent_pairs (curr :: next :: rest))),
      adjacent_pairs_cons, length_app, length_map. reflexivity. }
  rewrite E, pairs_of_cons, length_app.
  pose proof (pair_of_length curr next) as Hp.
  change (flat_map (pair_of curr) (next :: rest))
    with (pair_of curr next ++ flat_map (pair_of curr) rest).
  rewrite length_app.
  change (calorieIntervals (curr :: next :: rest))
    with ((if has_calories curr && has_calories next then 1 else 0)
          + calorieIntervals (next :: rest)).
  change (List.length (curr :: next :: rest))
    with (S (List.length (next :: rest))).
  assert (1 <= List.length (next :: rest)) by (simpl; lia).
  destruct (has_calories curr && has_calories next); lia.
Qed.

Lemma calculateEmpiricalKcalPerKg_intervals (entries : list WeightEntry) :
  intervals (calculateEmpiricalKcalPerKg entries)
  = List.length (pairs_of (sort_entries entries)).
Proof.
  unfold calculateEmpiricalKcalPerKg.
  destruct (_ <? 3); [reflexivity|].
  destruct (PrimFloat.eqb (emp_denominator _) 0); [reflexivity|].
  now destruct (PrimFloat.eqb (emp_slope _) 0).
Qed.

(** X6: Every point of the scatter plot is one of the pairs the estimator
    regresses on; the plot has at most as many points as the coverage card
    counts calorie intervals, which are fewer than the entries, and at most
    as many as the estimator's [intervals]. *)
Theorem intervalPairs_among_estimator_pairs (entries : list WeightEntry) :
  incl (map point_pair (intervalPairs entries)) (pairs_of (sort_entries entries))
  /\ List.length (intervalPairs entries) <= calorieIntervals (sort_entries entries)
  /\ calorieIntervals (sort_entries entries) <= List.length entries - 1
  /\ List.length (intervalPairs entries)
     <= intervals (calculateEmpiricalKcalPerKg entries).
Proof.
  unfold intervalPairs.
  destruct (adjacent_pairs_length (sort_entries entries)) as (H1 & H2 & H3).
  split; [apply adjacent_pairs_incl|]. split; [exact H1|]. split.
  - unfold sort_entries in H2 at 2. now rewrite js_sort_length in H2.
  - now rewrite calculateEmpiricalKcalPerKg_intervals.
Qed.


Lemma flat_pair_of_length (curr : WeightEntry) (rest : list WeightEntry) :
  List.length (flat_map (pair_of curr) rest)
  <= if has_calories curr then with_calories rest else 0.
Proof.
  unfold with_calories. induction rest as [|next rest IH]; simpl.
  - destruct (has_calories curr); lia.
  - rewrite length_app. pose proof (pair_of_length curr next) as Hp.
    destruct (has_calories curr), (has_calories next); simpl in *; lia.
Qed.

Lemma pairs_of_bound (l : list WeightEntry) :
  2 * List.length (pairs_of l) <= with_calories l * (with_calories l - 1).
Proof.
  induction l as [|curr rest IH]; [simpl; lia|].
  rewrite pairs_of_cons, length_app.
  pose proof (flat_pair_of_length curr rest) as Hf.
  unfold with_calories in *. simpl.
  destruct (has_calories curr); simpl; nia.
Qed.

Lemma with_calories_perm (l1 l2 : list WeightEntry) :
  Permutation l1 l2 -> with_calories l1 = with_calories l2.
Proof.
  intros Hp. unfold with_calories. apply Permutation_length.
  induction Hp; simpl;
    repeat match goal with |- context [has_calories ?x] =>
             destruct (has_calories x) end;
    eauto using Permutation.
Qed.

(** X5: With k entries that have calories the estimator has at most k(k-1)/2
    pairs; with fewer than three such entries it has at most one pair and
    gives no estimate. *)
Theorem estimator_needs_three_calorie_entries (entries : list WeightEntry) :
  2 * intervals (calculateEmpiricalKcalPerKg entries)
  <= with_calories entries * (with_calories entries - 1)
  /\ (with_calories entries < 3 ->
      calculateEmpiricalKcalPerKg entries
      = no_estimate (intervals (calculateEmpiricalKcalPerKg entries))
      /\ intervals (calculateEmpiricalKcalPerKg entries) <= 1).
Proof.
  pose proof (pairs_of_bound (sort_entries entries)) as Hb.
  rewrite <- (with_calories_perm _ _ (sort_entries_perm entries)) in Hb.
  rewrite calculateEmpiricalKcalPerKg_intervals.
  split; [exact Hb|]. intros Hk.
  assert (Hl : List.length (pairs_of (sort_entries entries)) <= 1) by nia.
  split; [|exact Hl].
  unfold calculateEmpiricalKcalPerKg.
  destruct (Nat.ltb_spec (List.length (pairs_of (sort_entries entries))) 3);
    [reflexivity|lia].
Qed.

(** ** Clamped quantities *)

Lemma clamp01_bounds (x : float) :
  PrimFloat.is_nan (clamp01 x) = true
  \/ (PrimFloat.leb 0 (clamp01 x) = true /\ PrimFloat.leb (clamp01 x) 1 = true).
Proof.
  unfold clamp01.
  destruct (PrimFloat.is_nan x) eqn:Hx.
  - left. apply FloatOrder.max_nan. right. apply FloatOrder.min_nan. now right.
  - right. destruct (FloatOrder.min_bounds 1 x eq_refl Hx) as (Hm & Hm1 & _).
    assert (Hn : PrimFloat.is_nan (JsNum.min 1 x) = false)
      by (destruct Hm as [-> | ->]; auto).
    destruct (FloatOrder.max_bounds 0 (JsNum.min 1 x) eq_refl Hn)
      as ([E|E] & H0 & _).
    + rewrite E. split; reflexivity.
    + rewrite E in *. split; [exact H0|exact Hm1].
Qed.

(** X7: The fat and lean fractions derived from a kcal/kg value are clamped:
    each fat fraction is between 0 and 1 unless it is NaN. *)
Theorem getFatLeanPercent_clamped (empKcal : float) (empKcalCI : float * float) :
  let r := getFatLeanPercent empKcal empKcalCI in
  (PrimFloat.is_nan (fatPct r) = true
   \/ (PrimFloat.leb 0 (fatPct r) = true /\ PrimFloat.leb (fatPct r) 1 = true))
  /\ (PrimFloat.is_nan (fatPctLow r) = true
      \/ (PrimFloat.leb 0 (fatPctLow r) = true
          /\ PrimFloat.leb (fatPctLow r) 1 = true))
  /\ (PrimFloat.is_nan (fatPctHigh r) = true
      \/ (PrimFloat.leb 0 (fatPctHigh r) = true
          /\ PrimFloat.leb (fatPctHigh r) 1 = true))
  /\ leanPct r = (1 - fatPct r)%float
  /\ leanPctLow r = (1 - fatPctHigh r)%float
  /\ leanPctHigh r = (1 - fatPctLow r)%float.
Proof.
  simpl. repeat split; try apply clamp01_bounds.
Qed.

Section ProgressFacts.

Variable parseFloat : string -> float.

(** X8: The progress shown is a percentage between 0 and 100, or NaN. *)
Theorem getProgressPercentage_bounds (goalWeight startingWeight : string)
    (entries : list WeightEntry) :
  let p := getProgressPercentage parseFloat goalWeight startingWeight entries in
  PrimFloat.is_nan p = true
  \/ (PrimFloat.leb 0 p = true /\ PrimFloat.leb p 100 = true).
Proof.
  unfold getProgressPercentage.
  destruct (rev entries) as [|lastEntry l]; [right; split; reflexivity|].
  destruct (is_empty goalWeight || is_empty startingWeight);
    [right; split; reflexivity|].
  set (progress := ((weight lastEntry - parseFloat startingWeight)
                    / (parseFloat goalWeight - parseFloat startingWeight)
                    * 100)%float).
  cbv zeta.
  destruct (PrimFloat.is_nan progress) eqn:Hp.
  - left. apply FloatOrder.min_nan. left. apply FloatOrder.max_nan. now left.
  - right. destruct (FloatOrder.max_bounds progress 0 Hp eq_refl) as (Hm & _ & H0).
    assert (Hn : PrimFloat.is_nan (JsNum.max progress 0) = false)
      by (destruct Hm as [-> | ->]; auto).
    destruct (FloatOrder.min_bounds (JsNum.max progress 0) 100 Hn eq_refl)
      as ([E|E] & _ & H100).
    + rewrite E in *. split; [exact H0|exact H100].
    + rewrite E. split; reflexivity.
Qed.

End ProgressFacts.

(** With the goal equal to the start the progress is NaN. *)
Example getProgressPercentage_nan :
  PrimFloat.is_nan
    (getProgressPercentage parseDecimal "70" "70" [mkEntry "2024-01-01" 70 None])
  = true.
Proof. vm_compute. reflexivity. Qed.

(** ** Period statistics *)

Lemma zero_margin (confidence : ConfidenceLevel) :
  (zScores confidence * PrimFloat.sqrt (0 + 0))%float = 0%float.
Proof. destruct confidence; vm_compute; reflexivity. Qed.

Lemma stats_of_spec (confidence : ConfidenceLevel) (res : list WeeklyStats)
    (g : WeeklyGroup) :
  let s := stats_of confidence res g in
  dataLength s = List.length (data g)
  /\ ws_startDateMs s = startDateMs g
  /\ ws_weekStart s = weekStart g
  /\ ws_mean s = computeMean (map weight (data g))
  /\ (dataLength s <= 1 -> ws_sd s = 0%float /\ ws_ci s = (ws_mean s, ws_mean s))
  /\ link (last_pushed res) s.
Proof.
  unfold stats_of, last_pushed, link. rewrite length_map.
  destruct (rev res) as [|prev l]; cbn [dataLength ws_startDateMs ws_weekStart
    ws_mean ws_sd ws_ci change changeCI];
    (split; [reflexivity|]); (split; [reflexivity|]); (split; [reflexivity|]);
    (split; [reflexivity|]); split.
  - intros H. destruct (Nat.ltb_spec 1 (List.length (data g))); [lia|].
    split; reflexivity.
  - split; reflexivity.
  - intros H. destruct (Nat.ltb_spec 1 (List.length (data g))); [lia|].
    split; reflexivity.
  - split; [reflexivity|]. split; [discriminate|]. intros H H'.
    destruct (Nat.ltb_spec 1 (List.length (data g))); [lia|].
    destruct (Nat.ltb_spec 1 (dataLength prev)); [lia|].
    now rewrite zero_margin.
Qed.

Lemma last_pushed_app (res : list WeeklyStats) (s : WeeklyStats) :
  last_pushed (res ++ [s]) = Some s.
Proof. unfold last_pushed. now rewrite rev_app_distr. Qed.

Lemma weeklyStats_fold (confidence : ConfidenceLevel) (groups : list WeeklyGroup)
    (acc : list WeeklyStats) :
  exists new,
    fold_left (fun res g => res ++ [stats_of confidence res g]) groups acc
    = acc ++ new
    /\ Forall2 (fun g s =>
                  dataLength s = List.length (data g)
                  /\ ws_startDateMs s = startDateMs g
                  /\ ws_weekStart s = weekStart g
                  /\ ws_mean s = computeMean (map weight (data g))
                  /\ (dataLength s <= 1 ->
                      ws_sd s = 0%float /\ ws_ci s = (ws_mean s, ws_mean s)))
               groups new
    /\ linked (last_pushed acc) new.
Proof.
  revert acc. induction groups as [|g groups IH]; intros acc; simpl.
  - exists []. rewrite app_nil_r. repeat split. constructor.
  - destruct (IH (acc ++ [stats_of confidence acc g])) as (new & E & Hf & Hl).
    exists (stats_of confidence acc g :: new).
    rewrite E, <- app_assoc. split; [reflexivity|].
    destruct (stats_of_spec confidence acc g) as (H1 & H2 & H3 & H4 & H5 & H6).
    split; [constructor; auto|].
    simpl. split; [exact H6|]. now rewrite last_pushed_app in Hl.
Qed.

(** X23: The statistics follow the buckets one to one, with their entry counts
    and starts; a bucket of one entry has standard deviation 0 and the
    interval [mean, mean]; the first bucket has no change, every later one
    has the difference of its mean and the mean before it, and between two
    buckets of one entry each the change interval has margin zero. *)
Theorem weeklyStats_shape (confidence : ConfidenceLevel)
    (groups : list WeeklyGroup) :
  Forall2 (fun g s =>
             dataLength s = List.length (data g)
             /\ ws_startDateMs s = startDateMs g
             /\ ws_weekStart s = weekStart g
             /\ ws_mean s = computeMean (map weight (data g))
             /\ (dataLength s <= 1 ->
                 ws_sd s = 0%float /\ ws_ci s = (ws_mean s, ws_mean s)))
          groups (weeklyStats confidence groups)
  /\ linked None (weeklyStats confidence groups).
Proof.
  unfold weeklyStats.
  destruct (weeklyStats_fold confidence groups []) as (new & E & Hf & Hl).
  rewrite E. simpl. now split.
Qed.

(** Two single entries in consecutive weeks: the change interval is the
    change itself. *)
Example weeklyStats_single_samples :
  option_map (map (fun s => (change s, changeCI s)))
    (results_of [mkEntry "2024-01-01" 70 None; mkEntry "2024-01-09" 71 None]
       G1w C95)
  = Some [(None, None); (Some 1%float, Some (1%float, 1%float))].
Proof. vm_compute. reflexivity. Qed.

(** ** Body composition: safety floors *)

Lemma max_floor (a b : float) :
  PrimFloat.is_nan (JsNum.max a b) = true
  \/ PrimFloat.leb a (JsNum.max a b) = true.
Proof.
  destruct (PrimFloat.is_nan a) eqn:Ha.
  - left. apply FloatOrder.max_nan. now left.
  - destruct (PrimFloat.is_nan b) eqn:Hb.
    + left. apply FloatOrder.max_nan. now right.
    + right. now destruct (FloatOrder.max_bounds a b Ha Hb) as (_ & H & _).
Qed.

Lemma min_cap (a b : float) :
  PrimFloat.is_nan (JsNum.min a b) = true
  \/ PrimFloat.leb (JsNum.min a b) b = true.
Proof.
  destruct (PrimFloat.is_nan a) eqn:Ha.
  - left. apply FloatOrder.min_nan. now left.
  - destruct (PrimFloat.is_nan b) eqn:Hb.
    + left. apply FloatOrder.min_nan. now right.
    + right. now destruct (FloatOrder.min_bounds a b Ha Hb) as (_ & _ & H).
Qed.

Section FloorFacts.

Variable entries : list WeightEntry.
Variable confidence : ConfidenceLevel.
Variable bfm : list BodyMeasurement.
Variables startBodyFat startFatMass startLeanMass : float.

Lemma step_floored (prevEntry : option WeightEntry) (entry : WeightEntry)
    (s s' : LoopState) :
  step entries confidence bfm startBodyFat startFatMass startLeanMass
    prevEntry entry s = Some s' ->
  exists est, results s' = results s ++ [est] /\ floored bfm prevEntry entry est.
Proof.
  unfold step, floored.
  destruct (actualMeasurement bfm (date entry)) as [bf|] eqn:Em.
  - destruct prevEntry as [p|].
    + intros H. apply calibrate_inv in H as (Hr & _). simpl in Hr.
      eexists. split; [exact Hr|]. discriminate.
    + intros [= <-]. eexists. split; [reflexivity|]. discriminate.
  - destruct prevEntry as [p|].
    + destruct (JsNum.truthy_opt (calories entry)
                && JsNum.truthy_opt (calories p)) eqn:Et;
        intros [= <-]; eexists; (split; [reflexivity|]);
        intros _ p0 [= <-] Ht; [|congruence].
      simpl. split; [apply max_floor|]. split; [apply max_floor|].
      split; [apply max_floor|]. split; [apply min_cap|reflexivity].
    + intros [= <-]. eexists. split; [reflexivity|]. intros _ p0. discriminate.
Qed.

Lemma loop_floored (rest : list WeightEntry) (prevEntry : option WeightEntry)
    (s s' : LoopState) :
  loop entries confidence bfm startBodyFat startFatMass startLeanMass
    prevEntry rest s = Some s' ->
  exists ests, results s' = results s ++ ests
               /\ floored_all bfm prevEntry rest ests.
Proof.
  revert prevEntry s. induction rest as [|entry rest IH]; intros prevEntry s; simpl.
  - intros [= <-]. exists []. now rewrite app_nil_r.
  - destruct (step entries confidence bfm startBodyFat startFatMass startLeanMass
                prevEntry entry s) as [s1|] eqn:Es; [|discriminate].
    intros Hl. destruct (step_floored _ _ _ _ Es) as (est & Hr & Hf).
    destruct (IH _ _ Hl) as (ests & Hr' & Hfa).
    exists (est :: ests). split; [|now split].
    now rewrite Hr', Hr, <- app_assoc.
Qed.

End FloorFacts.

Section FloorTheorem.

Variable parseFloat : string -> float.

(** X13: The estimates follow the sorted entries, and an estimate interpolated
    from calories (no measurement on its date; calories logged on it and on
    the entry before) keeps the safety floors: fat mass at least 3 % and
    lean mass at least 50 % of the weight, interval within [3, 60], each
    unless the value is NaN. *)
Theorem calculateBodyComposition_floors (st : AppState)
    (r : BodyCompositionResult) :
  st_entries st <> [] -> is_empty (st_startingBodyFat st) = false ->
  calculateBodyComposition parseFloat st = Some r ->
  floored_all (bodyFatMeasurements (st_measurements st)) None
    (sort_entries (st_entries st)) (estimates r).
Proof.
  intros Hne Hsbf. unfold calculateBodyComposition. rewrite Hsbf.
  destruct (st_entries st) as [|e0 l0] eqn:E; [congruence|]. simpl orb.
  destruct (sort_entries (e0 :: l0)) as [|first rest] eqn:Es; [discriminate|].
  match goal with
  | |- context [loop ?en ?c ?b ?x ?y ?z None ?l ?s] =>
      destruct (loop en c b x y z None l s) as [s'|] eqn:El; [|discriminate];
      destruct (loop_floored en c b x y z l None s s' El) as (ests & Hr & Hf)
  end.
  intros [= <-]. simpl. simpl in Hr. now rewrite Hr.
Qed.

End FloorTheorem.

Lemma calculateBodyComposition_floors_witness :
  exists r,
    calculateBodyComposition parseDecimal MoreExamples.prior_data = Some r
    /\ floored_all (bodyFatMeasurements []) None
         (sort_entries (st_entries MoreExamples.prior_data)) (estimates r).
Proof.
  eexists.
  assert (Hr : calculateBodyComposition parseDecimal MoreExamples.prior_data
               = Some _) by (vm_compute; reflexivity).
  split; [exact Hr|].
  apply (calculateBodyComposition_floors parseDecimal MoreExamples.prior_data _);
    [discriminate|reflexivity|exact Hr].
Defined.

(** ** Period aggregator: a bucket is its range *)

Section RangeFacts.

Local Open Scope Z_scope.

Lemma make_day_index_any (y k : Z) :
  JsDate.make_day y k 1 = JsDate.make_day 0 (12 * y + k) 1.
Proof.
  unfold JsDate.make_day.
  replace ((12 * y + k) / 12) with (y + k / 12) by (Z.div_mod_to_equations; lia).
  replace ((12 * y + k) mod 12) with (k mod 12) by (Z.div_mod_to_equations; lia).
  rewrite Z.add_0_l. reflexivity.
Qed.

Lemma month_index_le (n n' : Z) :
  n <= n' -> JsDate.make_day 0 n 1 <= JsDate.make_day 0 n' 1.
Proof.
  intros H. destruct (Z.eq_dec n n') as [->|Hne]; [lia|].
  assert (L : n < n') by lia. apply month_index_mono in L. lia.
Qed.

(** The range and the key of a month bucket, by the index of its first
    month counted from year 0, and the number of months it spans. *)
Lemma month_bucket_range (s : string) (grouping : StatsGroupingOption)
    (info : GroupInfo) :
  grouping = G1m \/ grouping = G2m ->
  getGroupInfo s grouping = Some info ->
  exists n w c,
    ((grouping = G1m /\ w = 1 /\ c = 1)
     \/ (grouping = G2m /\ w = 2 /\ c = 0 /\ n mod 2 = 0))
    /\ startDate info = JsDate.make_day 0 n 1 * JsDate.DAY_MS
    /\ endDate info = (JsDate.make_day 0 (n + w) 1 - 1) * JsDate.DAY_MS
    /\ key info = KeyMonth (n / 12) (n mod 12 + c).
Proof.
  intros Hg. unfold getGroupInfo.
  destruct (JsDate.parse s) as [[[y m] d]|] eqn:Ep; [|discriminate].
  destruct (parse_valid _ _ _ _ Ep) as [Hm _].
  intros [= <-]. destruct Hg as [-> | ->]; simpl.
  - exists (12 * y + (m - 1)), 1, 1. split; [left; auto|].
    rewrite make_day_zero, (make_day_index_any y (m - 1)), (make_day_index_any y m).
    replace (12 * y + (m - 1) + 1) with (12 * y + m) by lia.
    split; [reflexivity|]. split; [reflexivity|].
    f_equal; Z.div_mod_to_equations; lia.
  - exists (12 * y + (m - 1) / 2 * 2), 2, 0.
    split; [right; repeat split; Z.div_mod_to_equations; lia|].
    rewrite make_day_zero, (make_day_index_any y ((m - 1) / 2 * 2)),
      (make_day_index_any y ((m - 1) / 2 * 2 + 2)).
    replace (12 * y + (m - 1) / 2 * 2 + 2) with (12 * y + ((m - 1) / 2 * 2 + 2))
      by lia.
    split; [reflexivity|]. split; [reflexivity|].
    f_equal; Z.div_mod_to_equations; lia.
Qed.

(** At a host on UTC: in the 1-week, 1-month and 2-month groupings a
    bucket is its range: a date goes to the bucket of another date exactly
    when it lies between
    the start and the end of that bucket; a 1-week bucket runs from a
    Monday to the Sunday after it. *)
Lemma bucket_range_utc (s1 s2 : string)
    (grouping : StatsGroupingOption) (info1 info2 : GroupInfo) :
  grouping <> G2w ->
  getGroupInfo s1 grouping = Some info1 ->
  getGroupInfo s2 grouping = Some info2 ->
  exists t1 t2,
    JsDate.time_ms s1 = Some t1 /\ JsDate.time_ms s2 = Some t2
    /\ startDate info1 <= t1 <= endDate info1
    /\ (key info2 = key info1 <-> startDate info1 <= t2 <= endDate info1)
    /\ (grouping = G1w ->
        JsDate.getDay (startDate info1 / JsDate.DAY_MS) = 1
        /\ endDate info1 = startDate info1 + 6 * JsDate.DAY_MS).
Proof.
  intros Hg H1 H2.
  destruct (range_holds_date s1 grouping info1 Hg H1) as (t1 & Ht1 & Hr1).
  destruct (range_holds_date s2 grouping info2 Hg H2) as (t2 & Ht2 & Hr2).
  exists t1, t2. split; [exact Ht1|]. split; [exact Ht2|].
  split; [exact Hr1|].
  destruct grouping; [| congruence | |].
  - (* 1w *)
    clear Hr1 Hr2 Ht1. revert H1 H2 Ht2.
    unfold getGroupInfo, JsDate.time_ms, JsDate.day_number.
    destruct (JsDate.parse s1) as [[[y1 m1] d1]|]; [|discriminate].
    destruct (JsDate.parse s2) as [[[y2 m2] d2]|]; [|discriminate].
    intros [= <-] [= <-] [= <-]. simpl.
    generalize (JsDate.days_from_civil y1 m1 d1).
    generalize (JsDate.days_from_civil y2 m2 d2). clear. intros a b.
    assert (Hk : KeyDay (startOfWeek a * JsDate.DAY_MS / JsDate.DAY_MS)
                 = KeyDay (startOfWeek b * JsDate.DAY_MS / JsDate.DAY_MS)
                 <-> startOfWeek a = startOfWeek b).
    { rewrite !Z.div_mul by discriminate. split; [now intros [= ->]|congruence]. }
    rewrite Hk. rewrite !Z.div_mul by discriminate.
    pose proof (startOfWeek_monday b) as [Hb _].
    split; [|intros _; split; [exact Hb|unfold JsDate.DAY_MS; lia]].
    clear Hk Hb. unfold startOfWeek, JsDate.getDay, JsDate.DAY_MS.
    Z.div_mod_to_equations. lia.
  - (* 1m *)
    split; [|discriminate].
    destruct (month_bucket_range s1 G1m info1 (or_introl eq_refl) H1)
      as (n1 & w1 & c1 & [(_ & -> & ->)|(? & _)] & S1 & E1 & K1);
      [|discriminate].
    destruct (month_bucket_range s2 G1m info2 (or_introl eq_refl) H2)
      as (n2 & w2 & c2 & [(_ & -> & ->)|(? & _)] & S2 & E2 & K2);
      [|discriminate].
    rewrite S2, E2 in Hr2. rewrite S1, E1, K1, K2.
    unfold JsDate.DAY_MS in *.
    split.
    + intros [= Hd Hmod].
      assert (n2 = n1) by (Z.div_mod_to_equations; lia). subst n2. exact Hr2.
    + intros Hr.
      assert (n2 = n1); [|now subst].
      destruct (Z.lt_trichotomy n1 n2) as [L|[E|L]]; [|auto|].
      * pose proof (month_index_le (n1 + 1) n2 ltac:(lia)). lia.
      * pose proof (month_index_le (n2 + 1) n1 ltac:(lia)). lia.
  - (* 2m *)
    split; [|discriminate].
    destruct (month_bucket_range s1 G2m info1 (or_intror eq_refl) H1)
      as (n1 & w1 & c1 & [(? & _)|(_ & -> & -> & P1)] & S1 & E1 & K1);
      [discriminate|].
    destruct (month_bucket_range s2 G2m info2 (or_intror eq_refl) H2)
      as (n2 & w2 & c2 & [(? & _)|(_ & -> & -> & P2)] & S2 & E2 & K2);
      [discriminate|].
    rewrite S2, E2 in Hr2. rewrite S1, E1, K1, K2.
    unfold JsDate.DAY_MS in *.
    split.
    + intros [= Hd Hmod].
      assert (n2 = n1) by (Z.div_mod_to_equations; lia). subst n2. exact Hr2.
    + intros Hr.
      assert (n2 = n1); [|now subst].
      destruct (Z.lt_trichotomy n1 n2) as [L|[E|L]]; [|auto|].
      * pose proof (month_index_le (n1 + 2) n2
                      ltac:(Z.div_mod_to_equations; lia)). lia.
      * pose proof (month_index_le (n2 + 2) n1
                      ltac:(Z.div_mod_to_equations; lia)). lia.
Qed.

End RangeFacts.

(** ** The trailing window *)

Lemma filter_StronglySorted {A : Type} (R : A -> A -> Prop) (f : A -> bool)
    (l : list A) :
  StronglySorted R l -> StronglySorted R (filter f l).
Proof.
  induction 1 as [|a l Hs IH Hall]; simpl; [constructor|].
  destruct (f a); [|exact IH]. constructor; [exact IH|].
  rewrite Forall_forall in *. intros x Hx. apply Hall.
  now apply filter_In in Hx.
Qed.

(** X9: The trailing window holds entries of the log only, no more of them than
    the log has, in date order; the window [all] is the whole log sorted;
    and with one entry per date the window does not depend on the order in
    which the entries are stored. *)
Theorem filterEntriesByWindow_spec (entries : list WeightEntry)
    (window : TrendWindowOption) :
  Sorted date_le (filterEntriesByWindow entries window)
  /\ incl (filterEntriesByWindow entries window) entries
  /\ List.length (filterEntriesByWindow entries window) <= List.length entries
  /\ filterEntriesByWindow entries WAll = sort_entries entries
  /\ (forall stored,
        NoDup (map date entries) -> Permutation entries stored ->
        filterEntriesByWindow stored window
        = filterEntriesByWindow entries window).
Proof.
  pose proof (sort_entries_sorted entries) as Hs.
  pose proof (sort_entries_perm entries) as Hp.
  assert (Hincl : incl (sort_entries entries) entries).
  { intros e He. eapply Permutation_in; [symmetry; exact Hp|exact He]. }
  assert (Hlen : List.length (sort_entries entries) = List.length entries)
    by (symmetry; now apply Permutation_length).
  split; [|split; [|split; [|split]]].
  - unfold filterEntriesByWindow.
    destruct (window_days window) as [w|]; [|exact Hs].
    destruct (sort_entries entries) as [|a l] eqn:E; [constructor|].
    apply StronglySorted_Sorted, filter_StronglySorted, Sorted_date_strong.
    exact Hs.
  - unfold filterEntriesByWindow.
    destruct (window_days window) as [w|]; [|exact Hincl].
    destruct (sort_entries entries) as [|a l] eqn:E; [exact Hincl|].
    intros e He. apply filter_In in He as [He _]. now apply Hincl.
  - unfold filterEntriesByWindow.
    destruct (window_days window) as [w|]; [|lia].
    destruct (sort_entries entries) as [|a l] eqn:E; [lia|].
    rewrite <- Hlen. apply filter_length_le.
  - reflexivity.
  - intros stored Hnd Hperm. unfold filterEntriesByWindow.
    now rewrite (sort_entries_permutation entries stored Hnd Hperm).
Qed.

(** ** Dates in the time zone of the host *)

Open Scope Z_scope.

Lemma yoe_of_doe (yoe doy : Z) :
  0 <= yoe <= 399 -> 0 <= doy <= 365 ->
  (doy = 365 -> (yoe + 1) mod 4 = 0 /\ ((yoe + 1) mod 100 <> 0 \/ yoe = 399)) ->
  let doe := 365 * yoe + yoe / 4 - yoe / 100 + doy in
  0 <= doe < 146097
  /\ (doe - doe / 1460 + doe / 36524 - doe / 146096) / 365 = yoe.
Proof.
  intros Hy Hd Hl doe. subst doe.
  Z.div_mod_to_equations. lia.
Qed.

Lemma civil_round_trip (y m d : Z) :
  1 <= m <= 12 -> 1 <= d <= JsDate.days_in_month y m ->
  Host.civil_from_days (JsDate.days_from_civil y m d) = (y, m, d).
Proof.
  intros Hm Hd.
  unfold JsDate.days_from_civil, Host.civil_from_days.
  set (y' := if m <=? 2 then y - 1 else y).
  set (era := y' / 400).
  set (yoe := y' - era * 400).
  set (mp := if m <=? 2 then m + 9 else m - 3).
  set (doy := (153 * mp + 2) / 5 + d - 1).
  assert (Hyoe : 0 <= yoe <= 399) by (subst yoe era; Z.div_mod_to_equations; lia).
  assert (Hmp : 0 <= mp <= 11) by (subst mp; destruct (Z.leb_spec m 2); lia).
  assert (Hdoy : 0 <= doy <= 365
                 /\ (doy = 365 ->
                     (yoe + 1) mod 4 = 0 /\ ((yoe + 1) mod 100 <> 0 \/ yoe = 399))
                 /\ (5 * doy + 2) / 153 = mp
                 /\ doy - (153 * mp + 2) / 5 + 1 = d).
  { subst doy mp yoe era y'. revert Hd. unfold JsDate.days_in_month.
    assert (Hc : m = 2 \/ m = 1 \/ m = 3 \/ m = 4 \/ m = 5 \/ m = 6 \/ m = 7
                 \/ m = 8 \/ m = 9 \/ m = 10 \/ m = 11 \/ m = 12) by lia.
    destruct Hc as [->|Hc].
    - unfold JsDate.is_leap.
      change (2 =? 2) with true. change (2 <=? 2) with true. cbv iota.
      destruct (Z.eqb_spec (y mod 4) 0), (Z.eqb_spec (y mod 100) 0),
        (Z.eqb_spec (y mod 400) 0); simpl andb; simpl orb; simpl negb;
        cbv iota; intros Hd; Z.div_mod_to_equations; lia.
    - repeat (destruct Hc as [->|Hc]); [..|subst m];
        repeat match goal with
        | |- context [Z.leb ?a ?b] =>
            let v := eval vm_compute in (Z.leb a b) in change (Z.leb a b) with v
        | |- context [Z.eqb ?a ?b] =>
            let v := eval vm_compute in (Z.eqb a b) in change (Z.eqb a b) with v
        end; simpl orb; cbv iota; intros Hd; Z.div_mod_to_equations; lia. }
  destruct Hdoy as (Hdoy & Hleap & Hmp' & Hd').
  destruct (yoe_of_doe yoe doy Hyoe Hdoy Hleap) as [Hdoe Hyoe'].
  replace (era * 146097 + (yoe * 365 + yoe / 4 - yoe / 100 + doy) - 719468 + 719468)
    with ((365 * yoe + yoe / 4 - yoe / 100 + doy) + era * 146097) by lia.
  set (doe := 365 * yoe + yoe / 4 - yoe / 100 + doy) in *.
  rewrite Z.div_add by discriminate.
  rewrite (Z.div_small doe 146097) by lia.
  replace (doe + era * 146097 - (0 + era) * 146097) with doe by lia.
  cbv zeta. rewrite Hyoe'. fold doe.
  replace (doe - (365 * yoe + yoe / 4 - yoe / 100)) with doy by (subst doe; lia).
  rewrite Hmp', Hd'.
  subst mp yoe y'. destruct (Z.leb_spec m 2).
  - destruct (Z.ltb_spec (m + 9) 10); [lia|].
    replace (m + 9 - 9) with m by lia.
    destruct (Z.leb_spec m 2); [|lia]. f_equal. f_equal. lia.
  - destruct (Z.ltb_spec (m - 3) 10); [|lia].
    replace (m - 3 + 3) with m by lia.
    destruct (Z.leb_spec m 2); [lia|]. f_equal. f_equal. lia.
Qed.

Lemma DAY_MS_pos : 0 < JsDate.DAY_MS.
Proof. reflexivity. Qed.

Section FixedOffset.

Variable tza : Host.LocalTZA.
Variable off : Z.
Hypothesis Htza : forall t b, tza t b = off.
Hypothesis Hoff : 0 <= off < JsDate.DAY_MS.

Lemma Day_local (z : Z) : Host.Day (z * JsDate.DAY_MS + off) = z.
Proof.
  unfold Host.Day. pose proof DAY_MS_pos.
  rewrite Z.div_add_l by lia. rewrite (Z.div_small off) by exact Hoff. lia.
Qed.

Lemma TimeWithinDay_local (z : Z) :
  Host.TimeWithinDay (z * JsDate.DAY_MS + off) = off.
Proof.
  unfold Host.TimeWithinDay. pose proof DAY_MS_pos.
  rewrite Z.add_comm, Z.mod_add by lia. now apply Z.mod_small.
Qed.

(** The fields of the local time of a date string are those it names. *)
Lemma local_fields (y m d : Z) :
  1 <= m <= 12 -> 1 <= d <= JsDate.days_in_month y m ->
  let t := JsDate.days_from_civil y m d * JsDate.DAY_MS in
  Host.getFullYear tza t = y /\ Host.getMonth tza t = m - 1
  /\ Host.getDate tza t = d
  /\ Host.getDay tza t = JsDate.getDay (JsDate.days_from_civil y m d).
Proof.
  intros Hm Hd t. subst t.
  unfold Host.getFullYear, Host.getMonth, Host.getDate, Host.getDay,
    Host.YearFromTime, Host.MonthFromTime, Host.DateFromTime, Host.WeekDay,
    Host.LocalTime.
  rewrite Htza, Day_local, (civil_round_trip y m d Hm Hd). simpl.
  repeat split; lia.
Qed.

Lemma setDate_fixed (y m d dt : Z) :
  1 <= m <= 12 -> 1 <= d <= JsDate.days_in_month y m ->
  Host.setDate tza (JsDate.days_from_civil y m d * JsDate.DAY_MS) dt
  = (JsDate.days_from_civil y m d + (dt - d)) * JsDate.DAY_MS.
Proof.
  intros Hm Hd. unfold Host.setDate, Host.UTC, Host.LocalTime.
  rewrite !Htza, TimeWithinDay_local.
  unfold Host.YearFromTime, Host.MonthFromTime.
  rewrite Day_local, (civil_round_trip y m d Hm Hd). cbn [fst snd].
  unfold Host.MakeDay, Host.MakeDate, JsDate.make_day.
  rewrite (Z.div_small (m - 1) 12), (Z.mod_small (m - 1) 12) by lia.
  rewrite (Z.add_0_r y). replace (m - 1 + 1) with m by lia.
  rewrite (days_from_civil_day y m d). ring.
Qed.

Lemma setHours0_fixed (z : Z) :
  Host.setHours0 tza (z * JsDate.DAY_MS) = z * JsDate.DAY_MS - off.
Proof.
  unfold Host.setHours0, Host.UTC, Host.LocalTime, Host.MakeDate.
  rewrite !Htza, Day_local. ring.
Qed.

Lemma startOfWeek_fixed (y m d : Z) :
  1 <= m <= 12 -> 1 <= d <= JsDate.days_in_month y m ->
  Host.startOfWeek tza (JsDate.days_from_civil y m d * JsDate.DAY_MS)
  = startOfWeek (JsDate.days_from_civil y m d) * JsDate.DAY_MS - off.
Proof.
  intros Hm Hd.
  destruct (local_fields y m d Hm Hd) as (_ & _ & Hdt & Hwd).
  unfold Host.startOfWeek. rewrite Hwd, Hdt, (setDate_fixed y m d _ Hm Hd).
  rewrite setHours0_fixed. unfold startOfWeek. f_equal. f_equal. ring.
Qed.

End FixedOffset.

(** The week that holds a Monday at local midnight, at a host east of UTC
    or on it. *)
Lemma week_of_monday (ws off : Z) :
  (ws + 4) mod 7 = 1 -> 0 <= off < 86400000 ->
  (ws * 86400000 - off) / (7 * 86400000) = ws * 86400000 / (7 * 86400000).
Proof. intros Hw Ho. Z.div_mod_to_equations. lia. Qed.

Lemma getGroupInfo_2w_fixed (tza : Host.LocalTZA) (off : Z) (s : string) :
  (forall t b, tza t b = off) -> 0 <= off < JsDate.DAY_MS ->
  Host.getGroupInfo tza s G2w = getGroupInfo s G2w.
Proof.
  intros Htza Hoff. unfold Host.getGroupInfo, getGroupInfo, JsDate.time_ms,
    JsDate.day_number.
  destruct (JsDate.parse s) as [[[y m] d]|] eqn:Ep; [|reflexivity].
  destruct (parse_valid _ _ _ _ Ep) as [Hm Hd]. cbn [option_map].
  rewrite (startOfWeek_fixed tza off Htza Hoff y m d Hm Hd).
  pose proof (startOfWeek_monday (JsDate.days_from_civil y m d)) as [Hmon _].
  unfold JsDate.getDay in Hmon.
  change JsDate.DAY_MS with 86400000 in *.
  rewrite (week_of_monday _ off Hmon Hoff). reflexivity.
Qed.

Lemma MakeFullYear_id (y : Z) : 100 <= y -> Host.MakeFullYear y = y.
Proof.
  intros H. unfold Host.MakeFullYear.
  destruct (Z.leb_spec 0 y), (Z.leb_spec y 99); simpl; lia.
Qed.

Section AtUTC.

Variable tza : Host.LocalTZA.
Hypothesis Htza : forall t b, tza t b = 0.

Lemma newDate_utc (y k dt : Z) :
  100 <= y -> Host.newDate tza y k dt = JsDate.make_day y k dt * JsDate.DAY_MS.
Proof.
  intros Hy. unfold Host.newDate, Host.UTC, Host.MakeDate, Host.MakeDay.
  rewrite Htza, (MakeFullYear_id y Hy). ring.
Qed.

Lemma fields_utc (y m d : Z) :
  1 <= m <= 12 -> 1 <= d <= JsDate.days_in_month y m ->
  let t := JsDate.days_from_civil y m d * JsDate.DAY_MS in
  Host.getFullYear tza t = y /\ Host.getMonth tza t = m - 1.
Proof.
  intros Hm Hd t.
  assert (H0 : 0 <= 0 < JsDate.DAY_MS) by (split; [lia|reflexivity]).
  destruct (local_fields tza 0 Htza H0 y m d Hm Hd) as (Hy & Hmo & _).
  now split.
Qed.

Lemma getGroupInfo_at_utc (s : string) (grouping : StatsGroupingOption)
    (y m d : Z) :
  JsDate.parse s = Some (y, m, d) ->
  grouping = G1w \/ grouping = G2w \/ 100 <= y ->
  Host.getGroupInfo tza s grouping = getGroupInfo s grouping.
Proof.
  intros Ep Hg.
  assert (H0 : 0 <= 0 < JsDate.DAY_MS) by (split; [lia|reflexivity]).
  destruct grouping.
  - unfold Host.getGroupInfo, getGroupInfo, JsDate.time_ms, JsDate.day_number.
    rewrite Ep. destruct (parse_valid _ _ _ _ Ep) as [Hm Hd]. cbn [option_map].
    rewrite (startOfWeek_fixed tza 0 Htza H0 y m d Hm Hd), Z.sub_0_r.
    unfold Host.iso, Host.Day. reflexivity.
  - now apply (getGroupInfo_2w_fixed tza 0).
  - assert (Hy : 100 <= y) by (destruct Hg as [?|[?|?]]; [discriminate..|assumption]).
    unfold Host.getGroupInfo, getGroupInfo, JsDate.time_ms, JsDate.day_number.
    rewrite Ep. destruct (parse_valid _ _ _ _ Ep) as [Hm Hd]. cbn [option_map].
    destruct (fields_utc y m d Hm Hd) as [Ey Em]. cbv zeta in Ey, Em.
    rewrite Ey, Em, !(newDate_utc y _ _ Hy).
    replace (m - 1 + 1) with m by lia.
    rewrite (make_day_first y (m - 1)) by lia.
    replace (m - 1 + 1) with m by lia.
    pose proof (days_in_month_pos y m) as Hp.
    destruct (fields_utc y m 1 Hm ltac:(lia)) as [Ey1 Em1]. cbv zeta in Ey1, Em1.
    rewrite Ey1, Em1. replace (m - 1 + 1) with m by lia. reflexivity.
  - assert (Hy : 100 <= y) by (destruct Hg as [?|[?|?]]; [discriminate..|assumption]).
    unfold Host.getGroupInfo, getGroupInfo, JsDate.time_ms, JsDate.day_number.
    rewrite Ep. destruct (parse_valid _ _ _ _ Ep) as [Hm Hd]. cbn [option_map].
    destruct (fields_utc y m d Hm Hd) as [Ey Em]. cbv zeta in Ey, Em.
    rewrite Ey, Em, !(newDate_utc y _ _ Hy).
    set (bm := (m - 1) / 2 * 2).
    assert (Hbm : 0 <= bm <= 10 /\ bm mod 2 = 0)
      by (subst bm; Z.div_mod_to_equations; lia).
    rewrite (make_day_first y bm) by lia.
    destruct (fields_utc y (bm + 1) 1 ltac:(lia)
                ltac:(pose proof (days_in_month_pos y (bm + 1)); lia))
      as [Ey1 _]. cbv zeta in Ey1. rewrite Ey1.
    pose proof (days_in_month_pos y (bm + 2)) as Hp.
    assert (Eend : JsDate.make_day y (bm + 2) 0
                   = JsDate.days_from_civil y (bm + 2)
                       (JsDate.days_in_month y (bm + 2))).
    { rewrite make_day_zero, <- (month_start_next y (bm + 2)) by lia.
      rewrite (days_from_civil_day y (bm + 2) (JsDate.days_in_month y (bm + 2))).
      lia. }
    rewrite Eend.
    destruct (fields_utc y (bm + 2) (JsDate.days_in_month y (bm + 2))
                ltac:(lia) ltac:(lia)) as [Ey2 Em2]. cbv zeta in Ey2, Em2.
    rewrite Ey2, Em2. replace (bm + 2 - 1 + 1) with (bm + 2) by lia.
    reflexivity.
Qed.

End AtUTC.

(** X22: at a host on UTC or at a fixed offset east of it (less than a
    day), the bucket of the 2-week grouping starts on a Thursday, a multiple
    of 14 days from the epoch, and spans 14 days; the start is not after the
    date, and the date lies in the range exactly when its day number is at
    least 4 modulo 14: the Thursdays to Sundays of every second week lie
    after the end of their own bucket. *)
Theorem two_week_bucket_range (tza : Host.LocalTZA) (off : Z)
    (dateStr : string) (info : GroupInfo) :
  (forall t b, tza t b = off) -> 0 <= off < JsDate.DAY_MS ->
  Host.getGroupInfo tza dateStr G2w = Some info ->
  exists d,
    JsDate.day_number dateStr = Some d
    /\ JsDate.getDay (startDate info / JsDate.DAY_MS) = 4
    /\ (startDate info / JsDate.DAY_MS) mod 14 = 0
    /\ endDate info = startDate info + 13 * JsDate.DAY_MS
    /\ startDate info <= d * JsDate.DAY_MS
    /\ (d * JsDate.DAY_MS <= endDate info <-> 4 <= d mod 14).
Proof.
  intros Htza Hoff Hinfo.
  rewrite (getGroupInfo_2w_fixed tza off dateStr Htza Hoff) in Hinfo.
  exact (two_week_range_utc dateStr info Hinfo).
Qed.

Lemma two_week_bucket_range_witness :
  exists info d,
    Host.getGroupInfo (Host.fixed 19800000) "2024-01-04" G2w = Some info
    /\ JsDate.day_number "2024-01-04" = Some d
    /\ startDate info <= d * JsDate.DAY_MS
    /\ ~ d * JsDate.DAY_MS <= endDate info.
Proof.
  eexists.
  assert (H : Host.getGroupInfo (Host.fixed 19800000) "2024-01-04" G2w = Some _)
    by (vm_compute; reflexivity).
  destruct (two_week_bucket_range (Host.fixed 19800000) 19800000 "2024-01-04" _
              (fun _ _ => eq_refl) ltac:(split; [lia|reflexivity]) H)
    as (d & Hd & _ & _ & _ & Hstart & Hiff).
  exists d. split; [exact H|]. split; [exact Hd|]. split; [exact Hstart|].
  intros Hle. apply Hiff in Hle.
  assert (E : d = 19726) by (vm_compute in Hd; congruence).
  subst d. vm_compute in Hle. now apply Hle.
Defined.

(** X21: at a host on UTC, in the 1-week grouping and, for the years from
    100 on, in the 1-month and 2-month groupings, a bucket is its range: the
    range holds the date, and another date goes to the same bucket exactly
    when it lies between the start and the end of the range; a 1-week bucket
    runs from a Monday to the Sunday after it. *)
Theorem bucket_holds_its_range (tza : Host.LocalTZA) (s1 s2 : string)
    (grouping : StatsGroupingOption) (y1 m1 d1 y2 m2 d2 : Z) :
  (forall t b, tza t b = 0) ->
  grouping <> G2w ->
  JsDate.parse s1 = Some (y1, m1, d1) ->
  JsDate.parse s2 = Some (y2, m2, d2) ->
  grouping = G1w \/ (100 <= y1 /\ 100 <= y2) ->
  exists info1 info2 t1 t2,
    Host.getGroupInfo tza s1 grouping = Some info1
    /\ Host.getGroupInfo tza s2 grouping = Some info2
    /\ JsDate.time_ms s1 = Some t1 /\ JsDate.time_ms s2 = Some t2
    /\ startDate info1 <= t1 <= endDate info1
    /\ (key info2 = key info1 <-> startDate info1 <= t2 <= endDate info1)
    /\ (grouping = G1w ->
        JsDate.getDay (startDate info1 / JsDate.DAY_MS) = 1
        /\ endDate info1 = startDate info1 + 6 * JsDate.DAY_MS).
Proof.
  intros Htza Hg E1 E2 Hy.
  assert (H1 : Host.getGroupInfo tza s1 grouping = getGroupInfo s1 grouping).
  { apply (getGroupInfo_at_utc tza Htza s1 grouping y1 m1 d1 E1).
    destruct Hy as [->|[Hy _]]; auto. }
  assert (H2 : Host.getGroupInfo tza s2 grouping = getGroupInfo s2 grouping).
  { apply (getGroupInfo_at_utc tza Htza s2 grouping y2 m2 d2 E2).
    destruct Hy as [->|[_ Hy]]; auto. }
  destruct (getGroupInfo s1 grouping) as [info1|] eqn:G1;
    [|unfold getGroupInfo in G1; rewrite E1 in G1; discriminate].
  destruct (getGroupInfo s2 grouping) as [info2|] eqn:G2;
    [|unfold getGroupInfo in G2; rewrite E2 in G2; discriminate].
  destruct (bucket_range_utc s1 s2 grouping info1 info2 Hg G1 G2)
    as (t1 & t2 & Ht1 & Ht2 & Hr & Hk & Hw).
  exists info1, info2, t1, t2. auto 10.
Qed.

Lemma bucket_holds_its_range_witness :
  exists info1 info2 t2,
    Host.getGroupInfo Host.utc "2024-11-30" G2m = Some info1
    /\ Host.getGroupInfo Host.utc "2024-12-04" G2m = Some info2
    /\ JsDate.time_ms "2024-12-04" = Some t2
    /\ (key info2 = key info1 <-> startDate info1 <= t2 <= endDate info1).
Proof.
  destruct (bucket_holds_its_range Host.utc "2024-11-30" "2024-12-04" G2m
              2024 11 30 2024 12 4 (fun _ _ => eq_refl)
              ltac:(discriminate) eq_refl eq_refl ltac:(right; lia))
    as (info1 & info2 & t1 & t2 & H1 & H2 & _ & Ht2 & _ & Hk & _).
  exists info1, info2, t2. auto.
Defined.

(** The conditions are needed.  West of UTC the date is the day before in
    local time: at UTC-5, 2024-01-08 goes to the 2-week bucket from
    2023-12-21 to 2024-01-03 although its day number is 4 modulo 14, and
    2024-01-01 lies after the end of its own week.  East of UTC a week ends
    before its Sunday begins in UTC.  And [new Date(50, 5, 1)] is in 1950:
    the month bucket of 0050-06-15 starts nineteen centuries after it. *)
Example buckets_at_other_hosts :
  option_map (fun i => (startDate i / JsDate.DAY_MS, endDate i / JsDate.DAY_MS))
    (Host.getGroupInfo (Host.fixed (-18000000)) "2024-01-08" G2w)
  = Some (19712, 19725)
  /\ JsDate.day_number "2024-01-08" = Some 19730
  /\ option_map endDate (Host.getGroupInfo (Host.fixed (-18000000)) "2024-01-01" G1w)
     = Some (19722 * JsDate.DAY_MS + 18000000)
  /\ JsDate.time_ms "2024-01-01" = Some (19723 * JsDate.DAY_MS)
  /\ option_map endDate (Host.getGroupInfo (Host.fixed 3600000) "2024-01-07" G1w)
     = Some (19729 * JsDate.DAY_MS - 3600000)
  /\ JsDate.time_ms "2024-01-07" = Some (19729 * JsDate.DAY_MS)
  /\ option_map (fun i => Host.civil_from_days (startDate i / JsDate.DAY_MS))
       (Host.getGroupInfo Host.utc "0050-06-15" G1m)
     = Some (1950, 6, 1).
Proof. vm_compute. repeat split. Qed.

Close Scope Z_scope.

(** * The run of the estimator in the store *)

Open Scope nat_scope.

(** ** The store *)

Lemma extends_refl (h : Heap.store) : extends h h.
Proof. repeat split; exists []; now rewrite app_nil_r. Qed.

Lemma extends_trans (h1 h2 h3 : Heap.store) :
  extends h1 h2 -> extends h2 h3 -> extends h1 h3.
Proof.
  intros ((e1 & E1) & (m1 & M1) & C1) ((e2 & E2) & (m2 & M2) & C2).
  repeat split.
  - exists (e1 ++ e2). now rewrite E2, E1, app_assoc.
  - exists (m1 ++ m2). now rewrite M2, M1, app_assoc.
  - congruence.
Qed.

Lemma entriesAt_extends (h h' : Heap.store) (a : nat) :
  extends h h' -> a < List.length (Heap.entryArrays h) ->
  Heap.entriesAt a h' = Heap.entriesAt a h.
Proof.
  intros ((e & E) & _) Ha. unfold Heap.entriesAt. rewrite E. now apply app_nth1.
Qed.

Lemma measurementsAt_extends (h h' : Heap.store) (a : nat) :
  extends h h' -> a < List.length (Heap.measurementArrays h) ->
  Heap.measurementsAt a h' = Heap.measurementsAt a h.
Proof.
  intros (_ & (m & M) & _) Ha. unfold Heap.measurementsAt. rewrite M.
  now apply app_nth1.
Qed.

Lemma extends_entries_length (h h' : Heap.store) (a : nat) :
  extends h h' -> a < List.length (Heap.entryArrays h) ->
  a < List.length (Heap.entryArrays h').
Proof. intros ((e & E) & _) Ha. rewrite E, length_app. lia. Qed.

Lemma extends_measurements_length (h h' : Heap.store) (a : nat) :
  extends h h' -> a < List.length (Heap.measurementArrays h) ->
  a < List.length (Heap.measurementArrays h').
Proof. intros (_ & (m & M) & _) Ha. rewrite M, length_app. lia. Qed.

Lemma nth_last {A : Type} (l : list A) (x d : A) :
  nth (List.length l) (l ++ [x]) d = x.
Proof. rewrite app_nth2 by lia. now rewrite Nat.sub_diag. Qed.

Lemma assign_last {A : Type} (l : list A) (x v : A) :
  Heap.assign (List.length l) v (l ++ [x]) = l ++ [v].
Proof. induction l as [|y l IH]; simpl; [reflexivity|now rewrite IH]. Qed.

(** A new array: the store is extended by it. *)
Lemma filterEntries_spec (p : WeightEntry -> bool) (a : nat) (h : Heap.store) :
  exists h' c,
    Heap.filterEntries p a h = (h', c)
    /\ extends h h' /\ c < List.length (Heap.entryArrays h')
    /\ Heap.entriesAt c h' = filter p (Heap.entriesAt a h).
Proof.
  eexists. eexists. split; [reflexivity|]. split; [|split].
  - repeat split; simpl; [eexists; reflexivity|exists []; now rewrite app_nil_r].
  - simpl. rewrite length_app. simpl. lia.
  - unfold Heap.entriesAt at 1. simpl. apply nth_last.
Qed.

(** A sorted copy: the store is extended by it, although it is sorted in
    place. *)
Lemma sorted_copy_spec (a : nat) (h : Heap.store) :
  exists h' c,
    (let '(h1, c1) := Heap.spread a h in Heap.sortEntries c1 h1) = (h', c)
    /\ extends h h' /\ c < List.length (Heap.entryArrays h')
    /\ Heap.entriesAt c h' = sort_entries (Heap.entriesAt a h).
Proof.
  eexists. eexists. split; [reflexivity|]. split; [|split].
  - repeat split; simpl.
    + rewrite assign_last. eexists. reflexivity.
    + exists []. now rewrite app_nil_r.
  - simpl. rewrite assign_last, length_app. simpl. lia.
  - unfold Heap.entriesAt at 1. simpl. rewrite assign_last, nth_last.
    unfold Heap.entriesAt at 1. simpl. now rewrite nth_last.
Qed.

Lemma sorted_filter_spec (a : nat) (h : Heap.store) :
  exists h' c,
    (let '(h1, c1) := Heap.filterMeasurements has_bodyFat a h in
     Heap.sortMeasurements c1 h1) = (h', c)
    /\ extends h h' /\ c < List.length (Heap.measurementArrays h')
    /\ Heap.measurementsAt c h' = bodyFatMeasurements (Heap.measurementsAt a h).
Proof.
  eexists. eexists. split; [reflexivity|]. split; [|split].
  - repeat split; simpl.
    + exists []. now rewrite app_nil_r.
    + rewrite assign_last. eexists. reflexivity.
  - simpl. rewrite assign_last, length_app. simpl. lia.
  - unfold Heap.measurementsAt at 1. simpl. rewrite assign_last, nth_last.
    unfold Heap.measurementsAt at 1. simpl. now rewrite nth_last.
Qed.

(** ** The functions of a run: what they return and what they leave *)

Lemma getAverageIntake_sim (a : nat) (h : Heap.store) :
  exists h',
    Heap.getAverageIntake a h = (h', getAverageIntake (Heap.entriesAt a h))
    /\ extends h h'.
Proof.
  unfold Heap.getAverageIntake.
  destruct (filterEntries_spec has_calories a h) as (h' & c & E & Hx & _ & Hc).
  rewrite E, Hc. exists h'. split; [|exact Hx].
  unfold getAverageIntake. now destruct (_ <? 2).
Qed.

Lemma calculateEmpiricalKcalPerKg_sim (a : nat) (h : Heap.store) :
  exists h',
    Heap.calculateEmpiricalKcalPerKg a h
    = (h', calculateEmpiricalKcalPerKg (Heap.entriesAt a h))
    /\ extends h h'.
Proof.
  unfold Heap.calculateEmpiricalKcalPerKg.
  destruct (sorted_copy_spec a h) as (h' & c & E & Hx & _ & Hc).
  destruct (Heap.spread a h) as [h1 c1]. rewrite E, Hc.
  exists h'. split; [|exact Hx]. unfold calculateEmpiricalKcalPerKg.
  destruct (_ <? 3); [reflexivity|].
  destruct (PrimFloat.eqb (emp_denominator _) 0); [reflexivity|].
  now destruct (PrimFloat.eqb (emp_slope _) 0).
Qed.

Lemma getEmpiricalKcalPerKg_sim (a : nat) (rate : float) (h : Heap.store) :
  exists h',
    Heap.getEmpiricalKcalPerKg a rate h
    = (h', getEmpiricalKcalPerKg (Heap.entriesAt a h) rate)
    /\ extends h h'.
Proof.
  unfold Heap.getEmpiricalKcalPerKg.
  destruct (calculateEmpiricalKcalPerKg_sim a h) as (h' & E & Hx).
  rewrite E. exists h'. now split.
Qed.

Lemma calculateCaloricInference_sim (a : nat) (conf : ConfidenceLevel)
    (h : Heap.store) :
  exists h',
    Heap.calculateCaloricInference a conf h
    = (h', calculateCaloricInference (Heap.entriesAt a h) conf)
    /\ extends h h'.
Proof.
  unfold Heap.calculateCaloricInference.
  destruct (getAverageIntake_sim a h) as (h' & E & Hx).
  destruct (Heap.entriesAt a h) as [|e1 [|e2 l]] eqn:Ees.
  - exists h. split; [reflexivity|apply extends_refl].
  - exists h. split; [reflexivity|apply extends_refl].
  - rewrite E. exists h'. split; [reflexivity|exact Hx].
Qed.

Section StoreFacts.

Variable eR sR bR : nat.
Variable confidence : ConfidenceLevel.
Variables startBodyFat startFatMass startLeanMass : float.

Lemma arrays_ok_extends (h h' : Heap.store) (es : list WeightEntry)
    (bfm : list BodyMeasurement) :
  arrays_ok eR sR bR h es bfm -> extends h h' -> arrays_ok eR sR bR h' es bfm.
Proof.
  intros (He & Hs & Hb & E1 & E2 & E3) Hx. repeat split.
  - now apply (extends_entries_length h).
  - now apply (extends_entries_length h).
  - now apply (extends_measurements_length h).
  - now rewrite (entriesAt_extends h h').
  - now rewrite (entriesAt_extends h h').
  - now rewrite (measurementsAt_extends h h').
Qed.

Lemma calibrate_sim (h : Heap.store) (es : list WeightEntry)
    (bfm : list BodyMeasurement) (entry : WeightEntry) (s : LoopState) :
  arrays_ok eR sR bR h es bfm ->
  exists h',
    Heap.calibrate eR sR confidence startFatMass entry s h
    = (h', calibrate es confidence startFatMass entry s)
    /\ extends h h'.
Proof.
  intros Hok. pose proof Hok as (He & Hs & Hb & E1 & E2 & E3).
  unfold Heap.calibrate, calibrate. rewrite E2.
  destruct (fold_left _ (sort_entries es) (0%float, 0)) as [totalCalories countDays].
  destruct (0 <? countDays); [|exists h; split; [reflexivity|apply extends_refl]].
  rewrite E1.
  (* the empirical kcal/kg *)
  assert (Hest : exists h0,
             (if MIN_DAYS_FOR_INFERENCE <=? List.length es
              then
                match Heap.getAverageIntake eR h with
                | (h0, Some _) =>
                    let '(h1, inference) :=
                      Heap.calculateCaloricInference eR confidence h0 in
                    Heap.getEmpiricalKcalPerKg eR
                      (JsNum.or_default (option_map weightChangeRate inference) 0) h1
                | (h0, None) => (h0, None)
                end
              else (h, None))
             = (h0,
                if (MIN_DAYS_FOR_INFERENCE <=? List.length es)
                   && match getAverageIntake es with
                      | Some _ => true | None => false end
                then getEmpiricalKcalPerKg es
                       (JsNum.or_default
                          (option_map weightChangeRate
                             (calculateCaloricInference es confidence)) 0)
                else None)
             /\ extends h h0).
  { destruct (MIN_DAYS_FOR_INFERENCE <=? List.length es); simpl;
      [|exists h; split; [reflexivity|apply extends_refl]].
    destruct (getAverageIntake_sim eR h) as (h0 & E & Hx0). rewrite E, E1.
    destruct (getAverageIntake es);
      [|exists h0; split; [reflexivity|exact Hx0]].
    destruct (calculateCaloricInference_sim eR confidence h0) as (h1 & E' & Hx1).
    rewrite E', (entriesAt_extends h h0 eR Hx0 He), E1.
    pose proof (extends_trans _ _ _ Hx0 Hx1) as Hx01.
    destruct (getEmpiricalKcalPerKg_sim eR
                (JsNum.or_default
                   (option_map weightChangeRate
                      (calculateCaloricInference es confidence)) 0) h1)
      as (h2 & E'' & Hx2).
    rewrite E'', (entriesAt_extends h h1 eR Hx01 He), E1.
    exists h2. split; [reflexivity|]. now apply (extends_trans _ _ _ Hx01). }
  destruct Hest as (h0 & Eest & Hx0). rewrite Eest. clear Eest.
  set (estimatedKcalPerKg := if _ && _ then _ else None).
  (* the window *)
  destruct (filterEntries_spec (in_range (lastCalibrationDate s) (date entry)) sR h0)
    as (h1 & w1 & Ew1 & Hx1 & Hw1 & Ec1).
  rewrite Ew1. rewrite (entriesAt_extends h h0 sR Hx0 Hs), E2 in Ec1.
  pose proof (extends_trans _ _ _ Hx0 Hx1) as Hx01.
  destruct (calculateCaloricInference_sim w1 confidence h1) as (h2 & Ei & Hx2).
  rewrite Ei, Ec1. clear Ei.
  pose proof (extends_trans _ _ _ Hx01 Hx2) as Hx02.
  destruct (calculateCaloricInference
              (filter (in_range (lastCalibrationDate s) (date entry))
                 (sort_entries es)) confidence) as [inference|];
    [|exists h2; split; [reflexivity|exact Hx02]].
  destruct (filterEntries_spec (in_range (lastCalibrationDate s) (date entry)) sR h2)
    as (h3 & w2 & Ew2 & Hx3 & Hw2 & Ec2).
  rewrite Ew2. rewrite (entriesAt_extends h h2 sR Hx02 Hs), E2 in Ec2.
  pose proof (extends_trans _ _ _ Hx02 Hx3) as Hx03.
  destruct (getAverageIntake_sim w2 h3) as (h4 & Ea & Hx4).
  rewrite Ea, Ec2. clear Ea.
  pose proof (extends_trans _ _ _ Hx03 Hx4) as Hx04.
  rewrite (entriesAt_extends h h4 sR Hx04 Hs), E2.
  exists h4. split; [|exact Hx04].
  destruct (find _ (sort_entries es)) as [anchor|]; [|reflexivity].
  repeat match goal with
         | |- context [if ?c then _ else _] => destruct c
         end; reflexivity.
Qed.

Lemma step_sim (h : Heap.store) (es : list WeightEntry)
    (bfm : list BodyMeasurement) (prevEntry : option WeightEntry)
    (entry : WeightEntry) (s : LoopState) :
  arrays_ok eR sR bR h es bfm ->
  exists h',
    Heap.step eR sR bR confidence startBodyFat startFatMass startLeanMass
      prevEntry entry s h
    = (h', step es confidence bfm startBodyFat startFatMass startLeanMass
             prevEntry entry s)
    /\ extends h h'.
Proof.
  intros Hok. pose proof Hok as (He & Hs & Hb & E1 & E2 & E3).
  unfold Heap.step, step. rewrite E3.
  destruct (actualMeasurement bfm (date entry)) as [bf|].
  - destruct prevEntry as [p|]; [now apply (calibrate_sim h es bfm)|].
    exists h. split; [reflexivity|apply extends_refl].
  - destruct prevEntry as [p|];
      [|exists h; split; [reflexivity|apply extends_refl]].
    destruct (JsNum.truthy_opt (calories entry) && JsNum.truthy_opt (calories p));
      [|exists h; split; [reflexivity|apply extends_refl]].
    destruct (calculateEmpiricalKcalPerKg_sim eR h) as (h' & E & Hx).
    rewrite E, E1. exists h'. split; [reflexivity|exact Hx].
Qed.

(** The loop of the run, from the turn [i] on, is the loop over the rest
    of the sorted entries. *)
Lemma loop_sim (rest : list WeightEntry) (done : list WeightEntry)
    (h : Heap.store) (es : list WeightEntry) (bfm : list BodyMeasurement)
    (s : LoopState) (fuel : nat) :
  arrays_ok eR sR bR h es bfm ->
  sort_entries es = done ++ rest ->
  List.length rest < fuel ->
  exists h',
    Heap.loop eR sR bR confidence startBodyFat startFatMass startLeanMass
      fuel (List.length done) s h
    = Some (h', loop es confidence bfm startBodyFat startFatMass startLeanMass
                  (last (map Some done) None) rest s)
    /\ extends h h'.
Proof.
  revert done h s fuel. induction rest as [|entry rest IH];
    intros done h s fuel Hok Hsplit Hfuel;
    pose proof Hok as (He & Hs & Hb & E1 & E2 & E3);
    (destruct fuel as [|fuel]; [simpl in Hfuel; lia|]); simpl.
  - rewrite E2, Hsplit, app_nil_r.
    rewrite (proj2 (nth_error_None done (List.length done))) by lia.
    exists h. split; [reflexivity|apply extends_refl].
  - rewrite E2, Hsplit. rewrite nth_error_app2, Nat.sub_diag by lia. simpl.
    assert (Hprev : match List.length done with
                    | 0 => None
                    | S j => nth_error (done ++ entry :: rest) j
                    end = last (map Some done) None).
    { clear. destruct done as [|d done] using rev_ind; [reflexivity|].
      rewrite length_app, Nat.add_1_r, map_app. simpl.
      rewrite last_last, <- app_assoc. simpl.
      rewrite nth_error_app2, Nat.sub_diag by lia. reflexivity. }
    rewrite Hprev.
    destruct (step_sim h es bfm (last (map Some done) None) entry s Hok)
      as (h1 & Es & Hx1).
    rewrite Es.
    destruct (step es confidence bfm startBodyFat startFatMass startLeanMass
                (last (map Some done) None) entry s) as [s'|];
      [|exists h1; split; [reflexivity|exact Hx1]].
    destruct (IH (done ++ [entry]) h1 s' fuel
                (arrays_ok_extends _ _ _ _ Hok Hx1)) as (h2 & El & Hx2).
    + now rewrite Hsplit, <- app_assoc.
    + simpl in Hfuel. lia.
    + rewrite length_app, Nat.add_1_r, map_app in El. cbn [map] in El.
      rewrite last_last in El. rewrite El. exists h2. split; [reflexivity|].
      now apply (extends_trans _ _ _ Hx1).
Qed.

End StoreFacts.

Section AppRunFacts.

Variable parseFloat : string -> float.

(** A run returns what [calculateBodyComposition] computes from the arrays
    at its addresses, and extends the store. *)
Lemma calculateBodyComposition_sim (fuel eR mR : nat) (sbf : string)
    (cf : CalibrationFactor) (conf : ConfidenceLevel) (h : Heap.store) :
  eR < List.length (Heap.entryArrays h) ->
  mR < List.length (Heap.measurementArrays h) ->
  List.length (Heap.entriesAt eR h) < fuel ->
  exists h',
    Heap.calculateBodyComposition parseFloat fuel eR mR sbf cf conf h
    = Some (h', calculateBodyComposition parseFloat (state_at eR mR sbf cf conf h))
    /\ extends h h'.
Proof.
  intros He Hm Hfuel.
  unfold Heap.calculateBodyComposition, calculateBodyComposition, state_at.
  cbn [st_entries st_measurements st_startingBodyFat st_calibrationFactor
       st_confidence].
  destruct ((List.length (Heap.entriesAt eR h) =? 0) || is_empty sbf);
    [exists h; split; [reflexivity|apply extends_refl]|].
  destruct (sorted_copy_spec eR h) as (h2 & c & E & Hx2 & Hc & Ec).
  destruct (Heap.spread eR h) as [h1 c1].
  rewrite E. clear E h1 c1.
  destruct (sorted_filter_spec mR h2) as (h4 & b & E & Hx4 & Hb & Eb).
  destruct (Heap.filterMeasurements has_bodyFat mR h2) as [h3 b3].
  rewrite E. clear E h3 b3.
  pose proof (extends_trans _ _ _ Hx2 Hx4) as Hx.
  rewrite (measurementsAt_extends h h2 mR Hx2 Hm) in Eb.
  assert (Hok : arrays_ok eR c b h4 (Heap.entriesAt eR h)
                  (bodyFatMeasurements (Heap.measurementsAt mR h))).
  { repeat split.
    - now apply (extends_entries_length h).
    - now apply (extends_entries_length h2).
    - exact Hb.
    - now apply entriesAt_extends.
    - now rewrite (entriesAt_extends h2 h4 c Hx4 Hc).
    - exact Eb. }
  rewrite (entriesAt_extends h2 h4 c Hx4 Hc), Ec.
  destruct (sort_entries (Heap.entriesAt eR h)) as [|first rest] eqn:Es;
    [exists h4; split; [reflexivity|exact Hx]|].
  match goal with
  | |- context [Heap.loop eR c b conf ?x ?y ?z fuel 0 ?init h4] =>
      destruct (loop_sim eR c b conf x y z (first :: rest) [] h4
                  (Heap.entriesAt eR h)
                  (bodyFatMeasurements (Heap.measurementsAt mR h))
                  init fuel Hok) as (h5 & El & Hx5)
  end.
  - exact Es.
  - rewrite <- Es. unfold sort_entries. now rewrite js_sort_length.
  - cbn [List.length map last] in El. rewrite El.
    exists h5. split; [|now apply (extends_trans _ _ _ Hx)].
    now destruct (loop _ _ _ _ _ _ None (first :: rest) _).
Qed.

(** C9: two runs of the estimator on the same inputs give the same
    estimates and the same proposed calibration.  A run reads the arrays of
    entries and of measurements at the addresses it is given, returns (with
    enough turns for its loop), and leaves every array of the store as it
    was, at its address, and the clock as it was: what it sorts are copies.
    So the run that follows it, in the store it leaves, returns the same
    result, and so does a run in any other store, at any other addresses
    and time, in which the two arrays have the same elements.  The result
    is what [calculateBodyComposition] computes from the elements of the
    two arrays. *)
Theorem calculateBodyComposition_deterministic (fuel entries measurements : nat)
    (startingBodyFat : string) (calibrationFactor : CalibrationFactor)
    (confidence : ConfidenceLevel) (h : Heap.store) :
  entries < List.length (Heap.entryArrays h) ->
  measurements < List.length (Heap.measurementArrays h) ->
  List.length (Heap.entriesAt entries h) < fuel ->
  exists h1 h2 r,
    Heap.calculateBodyComposition parseFloat fuel entries measurements
      startingBodyFat calibrationFactor confidence h = Some (h1, r)
    /\ Heap.calculateBodyComposition parseFloat fuel entries measurements
         startingBodyFat calibrationFactor confidence h1 = Some (h2, r)
    /\ r = calculateBodyComposition parseFloat
             (state_at entries measurements startingBodyFat calibrationFactor
                confidence h)
    /\ (forall a, a < List.length (Heap.entryArrays h) ->
                  Heap.entriesAt a h1 = Heap.entriesAt a h)
    /\ (forall a, a < List.length (Heap.measurementArrays h) ->
                  Heap.measurementsAt a h1 = Heap.measurementsAt a h)
    /\ Heap.clock h1 = Heap.clock h
    /\ (forall h' entries' measurements',
          entries' < List.length (Heap.entryArrays h') ->
          measurements' < List.length (Heap.measurementArrays h') ->
          Heap.entriesAt entries' h' = Heap.entriesAt entries h ->
          Heap.measurementsAt measurements' h' = Heap.measurementsAt measurements h ->
          exists h'',
            Heap.calculateBodyComposition parseFloat fuel entries' measurements'
              startingBodyFat calibrationFactor confidence h' = Some (h'', r)).
Proof.
  intros He Hm Hfuel.
  destruct (calculateBodyComposition_sim fuel entries measurements startingBodyFat
              calibrationFactor confidence h He Hm Hfuel) as (h1 & E1 & Hx1).
  assert (Hother : forall h' entries' measurements',
             entries' < List.length (Heap.entryArrays h') ->
             measurements' < List.length (Heap.measurementArrays h') ->
             Heap.entriesAt entries' h' = Heap.entriesAt entries h ->
             Heap.measurementsAt measurements' h' = Heap.measurementsAt measurements h ->
             exists h'',
               Heap.calculateBodyComposition parseFloat fuel entries' measurements'
                 startingBodyFat calibrationFactor confidence h'
               = Some (h'', calculateBodyComposition parseFloat
                              (state_at entries measurements startingBodyFat
                                 calibrationFactor confidence h))).
  { intros h' e' m' He' Hm' Ee Em.
    destruct (calculateBodyComposition_sim fuel e' m' startingBodyFat
                calibrationFactor confidence h' He' Hm') as (h'' & E & _).
    - now rewrite Ee.
    - exists h''. rewrite E. unfold state_at. now rewrite Ee, Em. }
  destruct (Hother h1 entries measurements) as (h2 & E2).
  - now apply (extends_entries_length h).
  - now apply (extends_measurements_length h).
  - now apply entriesAt_extends.
  - now apply measurementsAt_extends.
  - exists h1, h2. eexists. split; [exact E1|]. split; [exact E2|].
    split; [reflexivity|].
    split; [intros a Ha; now apply entriesAt_extends|].
    split; [intros a Ha; now apply measurementsAt_extends|].
    split; [apply Hx1|exact Hother].
Qed.

End AppRunFacts.

Lemma calculateBodyComposition_deterministic_witness :
  exists h1 h2 r,
    Heap.calculateBodyComposition parseDecimal 3 0 0 "20"
      Examples.default_calibration C95 MoreExamples.measured_gain_store
    = Some (h1, Some r)
    /\ Heap.calculateBodyComposition parseDecimal 3 0 0 "20"
         Examples.default_calibration C95 h1 = Some (h2, Some r)
    /\ List.length (estimates r) = 2
    /\ Heap.entriesAt 0 h1 = st_entries Examples.measured_gain.
Proof.
  destruct (calculateBodyComposition_deterministic parseDecimal 3 0 0 "20"
              Examples.default_calibration C95 MoreExamples.measured_gain_store)
    as (h1 & h2 & r & E1 & E2 & _ & He & _); [simpl; lia..|].
  assert (Er : exists r0,
             Heap.calculateBodyComposition parseDecimal 3 0 0 "20"
               Examples.default_calibration C95 MoreExamples.measured_gain_store
             = Some (fst r0, Some (snd r0))
             /\ List.length (estimates (snd r0)) = 2).
  { eexists (_, _). split; [vm_compute; reflexivity|reflexivity]. }
  destruct Er as ([h0 r0] & Er & Hlen). simpl in Er, Hlen.
  rewrite Er in E1. injection E1 as <- <-.
  exists h0, h2, r0. split; [exact Er|]. split; [exact E2|].
  split; [exact Hlen|]. apply (He 0). simpl. lia.
Defined.

(** Sorting a state array itself would not leave the store as it was. *)
Example sort_in_place_changes_the_store :
  let h := Heap.mkStore [MoreExamples.around_new_year] [] 0 in
  map date (Heap.entriesAt 0 (fst (Heap.sortEntries 0 h)))
  = ["2023-12-31"; "2024-01-01"; "2024-01-04"; "2024-01-09"]%string
  /\ map date (Heap.entriesAt 0 h)
     = ["2024-01-04"; "2023-12-31"; "2024-01-01"; "2024-01-09"]%string.
Proof. split; reflexivity. Qed.
